(** * The change-detection and polling pipeline of the iMessage listener

    A shallow embedding of
    [packages/server/src/server/databases/imessage/listeners/IMessageListener.ts]
    and of [getCacheName] from the iMessage helpers, together with the
    properties of the pipeline that follow from the code.

    Conventions of the embedding:
    - a JavaScript [Date] is its time value, an integer number of
      milliseconds ([Z]); [Stats.mtimeMs] is taken at millisecond resolution
      as well, so that [stat.mtime] and [stat.mtimeMs] agree;
    - an [async] method is a computation in the monad [M] below: it threads
      the listener object, appends to a trace of the effects it performs, and
      ends as [Returned], [Threw] (an exception or a rejected promise, which
      unwinds through every caller because the file has no [try]) or
      [Pending] (parked on a promise that has not settled, as a caller of
      [Sema.acquire] is while another caller holds the token);
    - the listener is an event emitter through its base class: [emit] and
      [removeAllListeners] are those of the platform's emitter, whose [emit]
      calls the subscribers of the event in turn, lets the exception of a
      subscriber through, and throws when an "error" event has no
      subscriber;
    - calls to the logger and the unused [startMs]/[endMs] clock readings of
      [poll] have no influence on the listener and are left out. *)

From Stdlib Require Import ZArith List String Ascii Bool Lia.
From Stdlib Require Import DecimalString DecimalZ.
From Stdlib Require Import Permutation.
Import ListNotations.
Open Scope Z_scope.

(** ** Values shared by the whole file *)

(** A [Date], by its time value in milliseconds since the epoch. *)
Definition Date := Z.

(** [fs.Stats], restricted to the modification time the listener reads. *)
Record Stats := { mtimeMs : Z }.

Definition mtime (s : Stats) : Date := mtimeMs s.

(** [FileChangeEvent] of the file watcher. *)
Record FileChangeEvent := {
  filePath : string;
  prevStat : Stats;
  currentStat : Stats
}.

(** How a call ends. *)
Inductive Outcome (A : Type) : Type :=
| Returned (a : A)
| Threw (error : string)
| Pending.
Arguments Returned {A} a.
Arguments Threw {A} error.
Arguments Pending {A}.

(** [Sema] of async-sema, by its counters: the free tokens and the callers
    parked in [acquire]. *)
Record Sema := { free : nat; waiting : nat }.

Definition Sema_new (nr : nat) : Sema := {| free := nr; waiting := 0 |}.

Definition nrWaiting (s : Sema) : nat := waiting s.

(** [MultiFileWatcher], as far as the listener drives it: the paths it was
    built with, the event names a handler was attached to, and whether
    [start] was called. *)
Record MultiFileWatcher := {
  watchedPaths : list string;
  handlers : list string;
  running : bool
}.

(** ** The debounce gate in front of [handleChangeEvent] *)
Module DebounceDecorator.

(** Modelled from the spec: the decorator [DebounceSubsequentWithWait] of
    [@server/lib/decorators/DebounceDecorator], which decorates
    [handleChangeEvent] and is not among the sources. Of the gate of
    section 4.1 this is the stream of one key, the streams of distinct keys
    being independent: the key, and the call that is scheduled and has not
    fired yet, if any, with the time its timer fires. The timer that is due
    fires and executes the handler with the arguments it carries, and
    stopping cancels the scheduled call, which then never fires. *)
Record Gate (A : Type) := { key : string; pendingCall : option (A * Z) }.
Arguments key {A} _.
Arguments pendingCall {A} _.
Arguments Build_Gate {A} _ _.

Definition idle {A : Type} (k : string) : Gate A := {| key := k; pendingCall := None |}.

(** The clock reaches [t]: a timer that is due fires, and the handler is
    executed with the arguments it carries. *)
Definition advance {A : Type} (t : Z) (g : Gate A) : list A * Gate A :=
  match pendingCall g with
  | Some (args, due) => if due <=? t then ([args], idle (key g)) else ([], g)
  | None => ([], g)
  end.

(** The process is stopped: the scheduled call is cancelled. *)
Definition cancel {A : Type} (g : Gate A) : Gate A := idle (key g).

(** [@DebounceSubsequentWithWait('IMessageListener.handleChangeEvent', 500)] *)
Definition handleChangeEvent_key : string := "IMessageListener.handleChangeEvent".
Definition handleChangeEvent_wait : Z := 500.

End DebounceDecorator.

Section Coordinator.

(** The payload of a result and the de-duplication cache are opaque to the
    listener; [trimCaches] is the one method of the cache it calls. *)
Variable Payload : Type.
Variable IMessageCache : Type.
Variable trimCaches : IMessageCache -> IMessageCache.

Record PollResult := { eventType : string; data : Payload }.

(** [IMessagePoller]: its [poll(after)] reads and updates the cache and
    ends with the results, with an exception, or not at all. *)
Record IMessagePoller := {
  tag : string;
  poller_poll : Date -> IMessageCache -> Outcome (list PollResult) * IMessageCache
}.

(** A subscriber of the listener, which is the event emitter the results go
    to: the event it was attached to, and how a call of it with a payload
    ends, by returning ([None]) or by throwing an exception. A subscriber is
    taken not to call back into the listener. *)
Record Subscriber := {
  eventName : string;
  callback : Payload -> option string
}.

Record IMessageListener := {
  stopped : bool;
  filePaths : list string;
  watcher : option MultiFileWatcher;
  processLock : Sema;
  pollers : list IMessagePoller;
  cache : IMessageCache;
  lastCheck : Z;
  (* the subscribers of the listener itself, in the order they were attached *)
  listeners : list Subscriber
}.

(** The effects of the listener, in the order they happen. *)
Inductive Effect : Type :=
| EAcquire                              (* processLock.acquire() handed out the token *)
| EEnqueue                              (* processLock.acquire() parked the caller *)
| ERelease                              (* processLock.release() *)
| ESetLastCheck (v : Z)                 (* this.lastCheck = v *)
| ESetStopped (b : bool)                (* this.stopped = b *)
| EStat (path : string)                 (* fs.statSync(path) *)
| EPollerPoll (index : nat) (after : Date) (* this.pollers[index].poll(after) *)
| EEmit (type : string) (payload : Payload) (* this.emit(type, payload) *)
| ECallback (type : string) (payload : Payload) (* a subscriber of type is called *)
| ETrimCaches                           (* this.cache.trimCaches() *)
| EWaitMs (ms : Z)                      (* await waitMs(ms) *)
| ERemoveAllListeners                   (* this.removeAllListeners() *)
| EWatcherNew                           (* new MultiFileWatcher(this.filePaths) *)
| EWatcherOn (name : string)            (* this.watcher.on(name, ...) *)
| EWatcherStart.                        (* this.watcher.start() *)

Definition Trace := list Effect.

(** ** The monad of the listener's methods *)

Definition M (A : Type) : Type :=
  IMessageListener -> Outcome A * IMessageListener * Trace.

Definition ret {A : Type} (a : A) : M A := fun st => (Returned a, st, []).

Definition bind {A B : Type} (m : M A) (k : A -> M B) : M B := fun st =>
  match m st with
  | (Returned a, st1, t1) =>
      match k a st1 with
      | (o, st2, t2) => (o, st2, t1 ++ t2)
      end
  | (Threw e, st1, t1) => (Threw e, st1, t1)
  | (Pending, st1, t1) => (Pending, st1, t1)
  end.

Notation "x <- m ;; k" := (bind m (fun x => k))
  (at level 61, m at next level, right associativity).
Notation "m ;;; k" := (bind m (fun _ => k))
  (at level 61, right associativity).

Definition outcome {A : Type} (r : Outcome A * IMessageListener * Trace) : Outcome A :=
  fst (fst r).
Definition final {A : Type} (r : Outcome A * IMessageListener * Trace) : IMessageListener :=
  snd (fst r).
Definition trace {A : Type} (r : Outcome A * IMessageListener * Trace) : Trace :=
  snd r.

(** ** Field updates *)

Definition with_stopped (b : bool) (st : IMessageListener) : IMessageListener :=
  {| stopped := b; filePaths := filePaths st; watcher := watcher st;
     processLock := processLock st; pollers := pollers st; cache := cache st;
     lastCheck := lastCheck st; listeners := listeners st |}.

Definition with_watcher (w : option MultiFileWatcher) (st : IMessageListener) : IMessageListener :=
  {| stopped := stopped st; filePaths := filePaths st; watcher := w;
     processLock := processLock st; pollers := pollers st; cache := cache st;
     lastCheck := lastCheck st; listeners := listeners st |}.

Definition with_processLock (s : Sema) (st : IMessageListener) : IMessageListener :=
  {| stopped := stopped st; filePaths := filePaths st; watcher := watcher st;
     processLock := s; pollers := pollers st; cache := cache st;
     lastCheck := lastCheck st; listeners := listeners st |}.

Definition with_pollers (ps : list IMessagePoller) (st : IMessageListener) : IMessageListener :=
  {| stopped := stopped st; filePaths := filePaths st; watcher := watcher st;
     processLock := processLock st; pollers := ps; cache := cache st;
     lastCheck := lastCheck st; listeners := listeners st |}.

Definition with_cache (c : IMessageCache) (st : IMessageListener) : IMessageListener :=
  {| stopped := stopped st; filePaths := filePaths st; watcher := watcher st;
     processLock := processLock st; pollers := pollers st; cache := c;
     lastCheck := lastCheck st; listeners := listeners st |}.

Definition with_lastCheck (v : Z) (st : IMessageListener) : IMessageListener :=
  {| stopped := stopped st; filePaths := filePaths st; watcher := watcher st;
     processLock := processLock st; pollers := pollers st; cache := cache st;
     lastCheck := v; listeners := listeners st |}.

Definition with_listeners (l : list Subscriber) (st : IMessageListener) : IMessageListener :=
  {| stopped := stopped st; filePaths := filePaths st; watcher := watcher st;
     processLock := processLock st; pollers := pollers st; cache := cache st;
     lastCheck := lastCheck st; listeners := l |}.

(** ** The statements of the methods *)

Definition getLastCheck : M Z := fun st => (Returned (lastCheck st), st, []).

Definition setLastCheck (v : Z) : M unit := fun st =>
  (Returned tt, with_lastCheck v st, [ESetLastCheck v]).

Definition setStopped (b : bool) : M unit := fun st =>
  (Returned tt, with_stopped b st, [ESetStopped b]).

(** [this.removeAllListeners()], inherited from the event emitter: the
    subscribers of the listener itself go; [this.watcher] is another
    emitter and is not touched. *)
Definition removeAllListeners : M unit := fun st =>
  (Returned tt, with_listeners [] st, [ERemoveAllListeners]).

(** [await this.processLock.acquire()]: takes a free token, or parks the
    caller until a [release] hands it one. *)
Definition acquire : M unit := fun st =>
  let s := processLock st in
  match free s with
  | O => (Pending, with_processLock {| free := O; waiting := S (waiting s) |} st, [EEnqueue])
  | S n => (Returned tt, with_processLock {| free := n; waiting := waiting s |} st, [EAcquire])
  end.

(** [this.processLock.release()]: the token goes to the first parked
    caller if there is one, and back to the free tokens otherwise. *)
Definition release : M unit := fun st =>
  let s := processLock st in
  match waiting s with
  | O => (Returned tt, with_processLock {| free := S (free s); waiting := O |} st, [ERelease])
  | S w => (Returned tt, with_processLock {| free := free s; waiting := w |} st, [ERelease])
  end.

(** Other invocations of the handler that reach [acquire] while this one is
    suspended in [await this.poll(...)]: the token is taken, so each of
    them is parked. *)
Definition othersArrive (n : nat) : M unit := fun st =>
  let s := processLock st in
  (Returned tt,
   with_processLock {| free := free s; waiting := (waiting s + n)%nat |} st,
   []).

Definition getNrWaiting : M nat := fun st =>
  (Returned (nrWaiting (processLock st)), st, []).

Definition waitMs (ms : Z) : M unit := fun st => (Returned tt, st, [EWaitMs ms]).

Definition cacheTrimCaches : M unit := fun st =>
  (Returned tt, with_cache (trimCaches (cache st)) st, [ETrimCaches]).

(** The calls that [emit] makes: the subscribers of [type], in the order
    they were attached; the exception of a subscriber ends the calls. *)
Fixpoint callSubscribers (type : string) (payload : Payload)
    (subscribers : list Subscriber) : Outcome unit * Trace :=
  match subscribers with
  | [] => (Returned tt, [])
  | subscriber :: rest =>
      if String.eqb (eventName subscriber) type then
        match callback subscriber payload with
        | None =>
            match callSubscribers type payload rest with
            | (o, t) => (o, ECallback type payload :: t)
            end
        | Some error => (Threw error, [ECallback type payload])
        end
      else callSubscribers type payload rest
  end.

(** Whether an event has a subscriber. *)
Definition hasSubscriber (type : string) (subscribers : list Subscriber) : bool :=
  existsb (fun subscriber => String.eqb (eventName subscriber) type) subscribers.

(** [this.emit(type, payload)], inherited from the event emitter: an "error"
    event that has no subscriber throws (the payload when it is an [Error],
    [ERR_UNHANDLED_ERROR] otherwise, which is the name used here for both);
    any other event calls its subscribers. *)
Definition emit (type : string) (payload : Payload) : M unit := fun st =>
  if String.eqb type "error" && negb (hasSubscriber type (listeners st))
  then (Threw "ERR_UNHANDLED_ERROR", st, [EEmit type payload])
  else
    match callSubscribers type payload (listeners st) with
    | (o, t) => (o, st, EEmit type payload :: t)
    end.

(** [await poller.poll(after)] for the poller at position [index]. *)
Definition callPoller (index : nat) (poller : IMessagePoller) (after : Date)
  : M (list PollResult) := fun st =>
  match poller_poll poller after (cache st) with
  | (o, c) => (o, with_cache c st, [EPollerPoll index after])
  end.

(** [fs.statSync(filePath)]: throws for a path that cannot be read. *)
Definition statSync (fs : string -> option Stats) (path : string) : M Stats := fun st =>
  match fs path with
  | Some stat => (Returned stat, st, [EStat path])
  | None => (Threw "ENOENT", st, [EStat path])
  end.

(** *** [addPoller] *)
Definition addPoller (poller : IMessagePoller) : M unit := fun st =>
  (Returned tt, with_pollers (pollers st ++ [poller]) st, []).

(** *** [stop] *)
Definition stop : M unit :=
  setStopped true ;;;
  removeAllListeners.

(** *** [poll]: the loop over the results, then the loop over the pollers *)
Fixpoint emitAll (results : list PollResult) : M unit :=
  match results with
  | [] => ret tt
  | result :: rest => emit (eventType result) (data result) ;;; emitAll rest
  end.

Fixpoint pollFrom (index : nat) (ps : list IMessagePoller) (after : Date)
    (emitResults : bool) : M unit :=
  match ps with
  | [] => ret tt
  | poller :: rest =>
      results <- callPoller index poller after ;;
      (if emitResults then emitAll results else ret tt) ;;;
      pollFrom (S index) rest after emitResults
  end.

Definition poll (after : Date) (emitResults : bool) : M unit := fun st =>
  pollFrom 0 (pollers st) after emitResults st.

(** *** [getEarliestModifiedDate]; [now] is what [new Date()] reads *)
Fixpoint earliestFrom (fs : string -> option Stats) (paths : list string)
    (earliest : Date) : M Date :=
  match paths with
  | [] => ret earliest
  | path :: rest =>
      stat <- statSync fs path ;;
      earliestFrom fs rest (if mtime stat <? earliest then mtime stat else earliest)
  end.

Definition getEarliestModifiedDate (now : Date) (fs : string -> option Stats) : M Date :=
  fun st => earliestFrom fs (filePaths st) now st.

(** *** [start] *)
Definition watcherNew : M unit := fun st =>
  (Returned tt,
   with_watcher (Some {| watchedPaths := filePaths st; handlers := []; running := false |}) st,
   [EWatcherNew]).

(** [this.watcher.on(name, ...)] and [this.watcher.start()]; on a listener
    without a watcher the property access throws. *)
Definition watcherOn (name : string) : M unit := fun st =>
  match watcher st with
  | Some w =>
      (Returned tt,
       with_watcher (Some {| watchedPaths := watchedPaths w;
                             handlers := handlers w ++ [name];
                             running := running w |}) st,
       [EWatcherOn name])
  | None => (Threw "TypeError", st, [])
  end.

Definition watcherStart : M unit := fun st =>
  match watcher st with
  | Some w =>
      (Returned tt,
       with_watcher (Some {| watchedPaths := watchedPaths w;
                             handlers := handlers w;
                             running := true |}) st,
       [EWatcherStart])
  | None => (Threw "TypeError", st, [])
  end.

Definition start (now : Date) (fs : string -> option Stats) : M unit :=
  setLastCheck 0 ;;;
  setStopped false ;;;
  earliest <- getEarliestModifiedDate now fs ;;
  poll (earliest - 60000) false ;;;
  watcherNew ;;;
  watcherOn "change" ;;;
  watcherOn "error" ;;;
  watcherStart.

(** *** [handleChangeEvent]

    [handleChangeEvent_locked] is the method from the statement after
    [await this.processLock.acquire()] on: what runs once the token is
    held, at once or when a [release] wakes the parked caller.
    [arrivals] is the number of other callers that reach [acquire] while
    the poll is awaited. *)
Definition handleChangeEvent_locked (event : FileChangeEvent) (arrivals : nat) : M unit :=
  lc <- getLastCheck ;;
  (if mtimeMs (currentStat event) >? lc then
     setLastCheck (mtimeMs (currentStat event)) ;;;
     poll (mtimeMs (prevStat event) - 30000) true ;;;
     othersArrive arrivals ;;;
     cacheTrimCaches ;;;
     n <- getNrWaiting ;;
     (if (0 <? n)%nat then waitMs 100 else ret tt)
   else ret tt) ;;;
  release.

Definition handleChangeEvent (event : FileChangeEvent) (arrivals : nat) : M unit :=
  acquire ;;;
  handleChangeEvent_locked event arrivals.

(** The listener when the poll of a fresh change has returned and the cache
    is trimmed: the callers that arrived meanwhile are parked. *)
Definition afterPoll (arrivals : nat) (st : IMessageListener) : IMessageListener :=
  with_cache (trimCaches (cache st))
    (with_processLock
       {| free := free (processLock st);
          waiting := (waiting (processLock st) + arrivals)%nat |} st).


(** The listener as [stop] leaves it. *)
Definition afterStop (st : IMessageListener) : IMessageListener :=
  with_listeners [] (with_stopped true st).

(** *** The listener behind the debounce gate

    The watcher's "change" callback awaits [this.handleChangeEvent(event)],
    which goes through the decorator: the gate is state of the decorated
    method, out of reach of the listener's fields. *)
Record Pipeline := {
  listener : IMessageListener;
  gate : DebounceDecorator.Gate FileChangeEvent
}.

(** Modelled from the spec: the process is stopped. [stop()] runs on the
    listener, and the gate, which is not among the sources, cancels its
    scheduled call as section 4.1 has it. *)
Definition pipelineStop (p : Pipeline) : Pipeline :=
  {| listener := final (stop (listener p));
     gate := DebounceDecorator.cancel (gate p) |}.

Fixpoint runHandlers (events : list FileChangeEvent) (st : IMessageListener)
  : IMessageListener * Trace :=
  match events with
  | [] => (st, [])
  | event :: rest =>
      match handleChangeEvent event 0 st with
      | (_, st1, t1) =>
          match runHandlers rest st1 with
          | (st2, t2) => (st2, t1 ++ t2)
          end
      end
  end.

(** The clock reaches [t]: a timer that is due fires and the body of the
    handler runs. *)
Definition elapse (t : Z) (p : Pipeline) : Pipeline * Trace :=
  match DebounceDecorator.advance t (gate p) with
  | (fired, g) =>
      match runHandlers fired (listener p) with
      | (st, tr) => ({| listener := st; gate := g |}, tr)
      end
  end.

(** The constructor. *)
Definition IMessageListener_new (paths : list string) (c : IMessageCache) : IMessageListener :=
  {| stopped := false; filePaths := paths; watcher := None;
     processLock := Sema_new 1; pollers := []; cache := c;
     lastCheck := 0; listeners := [] |}.

(** ** Reading a trace *)

(** The registry positions of the pollers called, in call order. *)
Fixpoint pollersInvoked (t : Trace) : list nat :=
  match t with
  | [] => []
  | EPollerPoll index _ :: rest => index :: pollersInvoked rest
  | _ :: rest => pollersInvoked rest
  end.

(** The [after] argument of each poller call. *)
Fixpoint pollAfters (t : Trace) : list Date :=
  match t with
  | [] => []
  | EPollerPoll _ after :: rest => after :: pollAfters rest
  | _ :: rest => pollAfters rest
  end.

(** What went to the event sink. *)
Fixpoint emitted (t : Trace) : list (string * Payload) :=
  match t with
  | [] => []
  | EEmit type payload :: rest => (type, payload) :: emitted rest
  | _ :: rest => emitted rest
  end.

(** What the subscribers of the listener were called with. *)
Fixpoint heard (t : Trace) : list (string * Payload) :=
  match t with
  | [] => []
  | ECallback type payload :: rest => (type, payload) :: heard rest
  | _ :: rest => heard rest
  end.

(** The values assigned to [lastCheck]. *)
Fixpoint lastCheckWrites (t : Trace) : list Z :=
  match t with
  | [] => []
  | ESetLastCheck v :: rest => v :: lastCheckWrites rest
  | _ :: rest => lastCheckWrites rest
  end.

(** Every assignment to [lastCheck] happens while the token is held;
    [held] says whether it is at the start of the trace. *)
Fixpoint writesUnderLock (held : bool) (t : Trace) : bool :=
  match t with
  | [] => true
  | EAcquire :: rest => writesUnderLock true rest
  | ERelease :: rest => writesUnderLock false rest
  | ESetLastCheck _ :: rest => held && writesUnderLock held rest
  | _ :: rest => writesUnderLock held rest
  end.

(** No assignment to [lastCheck] once the watcher was started. *)
Fixpoint writesBeforeWatcherStart (t : Trace) : bool :=
  match t with
  | [] => true
  | EWatcherStart :: rest =>
      match lastCheckWrites rest with [] => true | _ :: _ => false end
  | _ :: rest => writesBeforeWatcherStart rest
  end.

(** What follows the first [release] of a trace. *)
Fixpoint afterRelease (t : Trace) : Trace :=
  match t with
  | [] => []
  | ERelease :: rest => rest
  | _ :: rest => afterRelease rest
  end.

(** Whether the lock is released in a trace. *)
Definition released (t : Trace) : bool :=
  existsb (fun e => match e with ERelease => true | _ => false end) t.

(** The delays of a trace. *)
Fixpoint delays (t : Trace) : list Z :=
  match t with
  | [] => []
  | EWaitMs ms :: rest => ms :: delays rest
  | _ :: rest => delays rest
  end.

(** The results a run of the pollers hands back: those of each poller that
    returns, up to the first one that does not. *)
Fixpoint resultsFrom (ps : list IMessagePoller) (after : Date) (c : IMessageCache)
  : list PollResult :=
  match ps with
  | [] => []
  | poller :: rest =>
      match poller_poll poller after c with
      | (Returned results, c1) => results ++ resultsFrom rest after c1
      | (_, _) => []
      end
  end.

(** The listener's operations, to run them in sequence on one object. *)
Inductive Op : Type :=
| OpStart (now : Date) (fs : string -> option Stats)
| OpStop
| OpAddPoller (poller : IMessagePoller)
| OpPoll (after : Date) (emitResults : bool)
| OpHandleChangeEvent (event : FileChangeEvent) (arrivals : nat)
| OpResumeChangeEvent (event : FileChangeEvent) (arrivals : nat).

Definition runOp (op : Op) : M unit :=
  match op with
  | OpStart now fs => start now fs
  | OpStop => stop
  | OpAddPoller poller => addPoller poller
  | OpPoll after emitResults => poll after emitResults
  | OpHandleChangeEvent event arrivals => handleChangeEvent event arrivals
  | OpResumeChangeEvent event arrivals => handleChangeEvent_locked event arrivals
  end.

Definition isStart (op : Op) : bool :=
  match op with OpStart _ _ => true | _ => false end.

(** The object after a sequence of operations; an operation that throws or
    parks leaves the object as it was at that point. *)
Fixpoint runOps (ops : list Op) (st : IMessageListener) : IMessageListener :=
  match ops with
  | [] => st
  | op :: rest => runOps rest (final (runOp op st))
  end.

(** A trace that only reads the disk, calls pollers and emits. *)
Definition quiet (t : Trace) : Prop :=
  Forall (fun e => match e with
                   | EStat _ | EPollerPoll _ _ | EEmit _ _ | ECallback _ _ => True
                   | _ => False
                   end) t.

(** Where an operation may assign to [lastCheck]: [start] assigns its reset
    before it starts the watcher, and the change handler assigns while it
    holds the token, which it has from the beginning when it is resumed;
    the other operations, which never take the token, do not assign. *)
Definition writeDiscipline (op : Op) (t : Trace) : bool :=
  match op with
  | OpStart _ _ =>
      writesBeforeWatcherStart t && forallb (Z.eqb 0) (lastCheckWrites t)
  | OpResumeChangeEvent _ _ => writesUnderLock true t
  | _ => writesUnderLock false t
  end.

(** The earliest of [now] and the modification times, as a minimum. *)
Definition earliestOf (now : Date) (stats : list Stats) : Date :=
  fold_left Z.min (map mtime stats) now.

End Coordinator.

Arguments eventType {Payload} _.
Arguments data {Payload} _.
Arguments Build_PollResult {Payload} _ _.
Arguments tag {Payload IMessageCache} _.
Arguments poller_poll {Payload IMessageCache} _ _ _.
Arguments Build_IMessagePoller {Payload IMessageCache} _ _.
Arguments stopped {Payload IMessageCache} _.
Arguments filePaths {Payload IMessageCache} _.
Arguments watcher {Payload IMessageCache} _.
Arguments processLock {Payload IMessageCache} _.
Arguments pollers {Payload IMessageCache} _.
Arguments cache {Payload IMessageCache} _.
Arguments lastCheck {Payload IMessageCache} _.
Arguments listeners {Payload IMessageCache} _.
Arguments Build_IMessageListener {Payload IMessageCache} _ _ _ _ _ _ _ _.
Arguments EAcquire {Payload}.
Arguments EEnqueue {Payload}.
Arguments ERelease {Payload}.
Arguments ESetLastCheck {Payload} v.
Arguments ESetStopped {Payload} b.
Arguments EStat {Payload} path.
Arguments EPollerPoll {Payload} index after.
Arguments EEmit {Payload} type payload.
Arguments ECallback {Payload} type payload.
Arguments eventName {Payload} _.
Arguments callback {Payload} _ _.
Arguments Build_Subscriber {Payload} _ _.
Arguments ETrimCaches {Payload}.
Arguments EWaitMs {Payload} ms.
Arguments ERemoveAllListeners {Payload}.
Arguments EWatcherNew {Payload}.
Arguments EWatcherOn {Payload} name.
Arguments EWatcherStart {Payload}.
Arguments ret {Payload IMessageCache A} a.
Arguments bind {Payload IMessageCache A B} m k.
Arguments outcome {Payload IMessageCache A} r.
Arguments final {Payload IMessageCache A} r.
Arguments trace {Payload IMessageCache A} r.
Arguments with_stopped {Payload IMessageCache} b st.
Arguments with_watcher {Payload IMessageCache} w st.
Arguments with_processLock {Payload IMessageCache} s st.
Arguments with_pollers {Payload IMessageCache} ps st.
Arguments with_cache {Payload IMessageCache} c st.
Arguments with_lastCheck {Payload IMessageCache} v st.
Arguments with_listeners {Payload IMessageCache} l st.
Arguments getLastCheck {Payload IMessageCache}.
Arguments setLastCheck {Payload IMessageCache} v.
Arguments setStopped {Payload IMessageCache} b.
Arguments removeAllListeners {Payload IMessageCache}.
Arguments acquire {Payload IMessageCache}.
Arguments release {Payload IMessageCache}.
Arguments othersArrive {Payload IMessageCache} n.
Arguments getNrWaiting {Payload IMessageCache}.
Arguments waitMs {Payload IMessageCache} ms.
Arguments cacheTrimCaches {Payload IMessageCache} trimCaches.
Arguments callSubscribers {Payload} type payload subscribers.
Arguments hasSubscriber {Payload} type subscribers.
Arguments emit {Payload IMessageCache} type payload.
Arguments callPoller {Payload IMessageCache} index poller after.
Arguments statSync {Payload IMessageCache} fs path.
Arguments addPoller {Payload IMessageCache} poller.
Arguments stop {Payload IMessageCache}.
Arguments emitAll {Payload IMessageCache} results.
Arguments pollFrom {Payload IMessageCache} index ps after emitResults.
Arguments poll {Payload IMessageCache} after emitResults.
Arguments earliestFrom {Payload IMessageCache} fs paths earliest.
Arguments getEarliestModifiedDate {Payload IMessageCache} now fs.
Arguments watcherNew {Payload IMessageCache}.
Arguments watcherOn {Payload IMessageCache} name.
Arguments watcherStart {Payload IMessageCache}.
Arguments start {Payload IMessageCache} now fs.
Arguments handleChangeEvent_locked {Payload IMessageCache} trimCaches event arrivals.
Arguments handleChangeEvent {Payload IMessageCache} trimCaches event arrivals.
Arguments IMessageListener_new {Payload IMessageCache} paths c.
Arguments afterPoll {Payload IMessageCache} trimCaches arrivals st.
Arguments quiet {Payload} t.
Arguments afterStop {Payload IMessageCache} st.
Arguments listener {Payload IMessageCache} _.
Arguments gate {Payload IMessageCache} _.
Arguments Build_Pipeline {Payload IMessageCache} _ _.
Arguments pipelineStop {Payload IMessageCache} p.
Arguments runHandlers {Payload IMessageCache} trimCaches events st.
Arguments elapse {Payload IMessageCache} trimCaches t p.
Arguments writeDiscipline {Payload IMessageCache} op t.
Arguments pollersInvoked {Payload} t.
Arguments pollAfters {Payload} t.
Arguments emitted {Payload} t.
Arguments heard {Payload} t.
Arguments lastCheckWrites {Payload} t.
Arguments writesUnderLock {Payload} held t.
Arguments writesBeforeWatcherStart {Payload} t.
Arguments afterRelease {Payload} t.
Arguments delays {Payload} t.
Arguments released {Payload} t.
Arguments resultsFrom {Payload IMessageCache} ps after c.
Arguments OpStart {Payload IMessageCache} now fs.
Arguments OpStop {Payload IMessageCache}.
Arguments OpAddPoller {Payload IMessageCache} poller.
Arguments OpPoll {Payload IMessageCache} after emitResults.
Arguments OpHandleChangeEvent {Payload IMessageCache} event arrivals.
Arguments OpResumeChangeEvent {Payload IMessageCache} event arrivals.
Arguments runOp {Payload IMessageCache} trimCaches op.
Arguments isStart {Payload IMessageCache} op.
Arguments runOps {Payload IMessageCache} trimCaches ops st.

(** ** [getCacheName] of the iMessage helpers *)
Module Utils.

(** The fields of the [Message] entity that [getCacheName] reads; a date
    column may hold no date ([null], which is falsy), and a date it holds is
    a valid [Date], which is truthy whatever its time value. *)
Record Message := {
  guid : string;
  dateDelivered : option Date;
  dateRead : option Date
}.

(** An integer in a template literal: its decimal digits, with a sign when
    negative. *)
Definition numberToString (n : Z) : string :=
  NilEmpty.string_of_int (Z.to_int n).

Definition delivered (message : Message) : Z :=
  match dateDelivered message with Some d => d | None => 0 end.

Definition read (message : Message) : Z :=
  match dateRead message with Some d => d | None => 0 end.

Definition getCacheName (message : Message) : string :=
  (guid message ++ ":" ++ numberToString (delivered message)
     ++ ":" ++ numberToString (read message))%string.

(** No colon occurs in the string. *)
Fixpoint colonFree (s : string) : bool :=
  match s with
  | EmptyString => true
  | String c rest => negb (Ascii.eqb c ":"%char) && colonFree rest
  end.

End Utils.


(** ** A listener to run the methods on *)
Module Scenario.

(** The cache as the keys seen, newest first; trimming keeps the newest
    three. *)
Definition Keys := list string.

Definition trim (c : Keys) : Keys := firstn 3 c.

(** A poller with one row, delivered once. *)
Definition messagePoller : IMessagePoller string Keys :=
  {| tag := "MessagePoller";
     poller_poll := fun _ c =>
       if existsb (String.eqb "m1:0:0") c then (Returned [], c)
       else (Returned [ {| eventType := "new-message"; data := "m1"%string |} ],
             "m1:0:0"%string :: c) |}.

(** A poller with nothing to report. *)
Definition typingPoller : IMessagePoller string Keys :=
  {| tag := "TypingPoller"; poller_poll := fun _ c => (Returned [], c) |}.

(** A poller whose query fails. *)
Definition brokenPoller : IMessagePoller string Keys :=
  {| tag := "BrokenPoller"; poller_poll := fun _ c => (Threw "SQLITE_BUSY", c) |}.

(** One database file, last modified at 100000. *)
Definition disk (path : string) : option Stats :=
  if String.eqb path "chat.db" then Some {| mtimeMs := 100000 |} else None.

Definition fresh : IMessageListener string Keys :=
  IMessageListener_new ["chat.db"%string] [].

(** The listener with [messagePoller] and [typingPoller] registered. *)
Definition ready : IMessageListener string Keys :=
  runOps trim [OpAddPoller messagePoller; OpAddPoller typingPoller] fresh.

(** The listener with [brokenPoller] registered first. *)
Definition unlucky : IMessageListener string Keys :=
  runOps trim [OpAddPoller brokenPoller; OpAddPoller messagePoller] fresh.

(** The database file changes: modified at 200000, 100000 before. *)
Definition change : FileChangeEvent :=
  {| filePath := "chat.db";
     prevStat := {| mtimeMs := 100000 |};
     currentStat := {| mtimeMs := 200000 |} |}.

(** The listener once that change has been handled. *)
Definition polled : IMessageListener string Keys :=
  final (handleChangeEvent trim change 0 ready).

(** Two more changes of the file, each from the state the one before left. *)
Definition change2 : FileChangeEvent :=
  {| filePath := "chat.db";
     prevStat := {| mtimeMs := 200000 |};
     currentStat := {| mtimeMs := 200100 |} |}.

Definition change3 : FileChangeEvent :=
  {| filePath := "chat.db-wal";
     prevStat := {| mtimeMs := 200100 |};
     currentStat := {| mtimeMs := 200499 |} |}.

(** The started listener behind an idle gate. *)
Definition running0 : Pipeline string Keys :=
  {| listener := final (start 150000 disk ready);
     gate := DebounceDecorator.idle DebounceDecorator.handleChangeEvent_key |}.

(** The started listener when the execution of the handler for [change] is
    scheduled for 200500, and the same once the process is stopped before
    that timer fires. *)
Definition scheduled : Pipeline string Keys :=
  {| listener := listener running0;
     gate := {| DebounceDecorator.key := DebounceDecorator.handleChangeEvent_key;
                DebounceDecorator.pendingCall := Some (change, 200500) |} |}.

Definition stoppedWhilePending : Pipeline string Keys := pipelineStop scheduled.

(** A consumer of new messages, and one that fails on each of them. *)
Definition consumer : Subscriber string :=
  {| eventName := "new-message"; callback := fun _ => None |}.

Definition faultyConsumer : Subscriber string :=
  {| eventName := "new-message"; callback := fun _ => Some "consumer failed"%string |}.

(** The listener of [ready] with a consumer attached, and with the faulty
    one attached ahead of it. *)
Definition subscribed : IMessageListener string Keys :=
  with_listeners [consumer] ready.

Definition fragile : IMessageListener string Keys :=
  with_listeners [faultyConsumer; consumer] ready.

(** A poller that reports a row it could not read as an "error" result,
    ahead of a message; the listener with it and [typingPoller] registered
    has no subscriber. *)
Definition reportingPoller : IMessagePoller string Keys :=
  {| tag := "ReportingPoller";
     poller_poll := fun _ c =>
       (Returned [ {| eventType := "error"; data := "m1"%string |};
                   {| eventType := "new-message"; data := "m2"%string |} ], c) |}.

Definition noisy : IMessageListener string Keys :=
  runOps trim [OpAddPoller reportingPoller; OpAddPoller typingPoller] fresh.

(** A message in three states: as sent, delivered, and delivered and read. *)
Definition sent : Utils.Message :=
  {| Utils.guid := "m1"; Utils.dateDelivered := None; Utils.dateRead := None |}.

Definition deliveredMessage : Utils.Message :=
  {| Utils.guid := "m1"; Utils.dateDelivered := Some 1700000000000;
     Utils.dateRead := None |}.

Definition readMessage : Utils.Message :=
  {| Utils.guid := "m1"; Utils.dateDelivered := Some 1700000000000;
     Utils.dateRead := Some 1700000060000 |}.

End Scenario.

(** ** The other helpers of the iMessage utilities *)

(** A value that may be [undefined] or [null]. *)
Inductive Nullable (A : Type) : Type :=
| Undefined
| Null
| Value (a : A).
Arguments Undefined {A}.
Arguments Null {A}.
Arguments Value {A} a.

(** The string functions of the platform that the helpers call. *)
Module JSString.

(** [s.startsWith(pat)] *)
Fixpoint startsWith (pat s : string) : bool :=
  match pat with
  | EmptyString => true
  | String a pat' =>
      match s with
      | EmptyString => false
      | String b s' => if Ascii.eqb a b then startsWith pat' s' else false
      end
  end.

(** [s.includes(pat)] *)
Fixpoint contains (pat s : string) : bool :=
  startsWith pat s ||
  match s with
  | EmptyString => false
  | String _ rest => contains pat rest
  end.

Fixpoint dropChars (n : nat) (s : string) : string :=
  match n with
  | O => s
  | S m => match s with EmptyString => EmptyString | String _ rest => dropChars m rest end
  end.

(** [s.replace(pat, rep)] for a string pattern and a replacement without
    [$]: the first occurrence of [pat] is replaced. *)
Fixpoint replaceFirst (pat rep s : string) : string :=
  if startsWith pat s then (rep ++ dropChars (String.length pat) s)%string
  else match s with
       | EmptyString => EmptyString
       | String c rest => String c (replaceFirst pat rep rest)
       end.

(** [s.length]: the number of UTF-16 code units of the string. A string of
    this file holds the UTF-8 bytes of the JavaScript string, so that each
    code point below U+10000 counts for one unit, each code point from
    there on for two, and a byte that continues a code point for none. *)
Definition unitsOf (c : ascii) : nat :=
  if (nat_of_ascii c <? 128)%nat then 1%nat
  else if (nat_of_ascii c <? 192)%nat then 0%nat
  else if (nat_of_ascii c <? 240)%nat then 1%nat
  else 2%nat.

Fixpoint length (s : string) : nat :=
  match s with
  | EmptyString => 0%nat
  | String c rest => (unitsOf c + length rest)%nat
  end.

Definition isSlash (c : ascii) : bool := Ascii.eqb c "/"%char.

Fixpoint dropSlashes (l : list ascii) : list ascii :=
  match l with
  | c :: rest => if isSlash c then dropSlashes rest else l
  | [] => []
  end.

Fixpoint upToSlash (l : list ascii) : list ascii :=
  match l with
  | c :: rest => if isSlash c then [] else c :: upToSlash rest
  | [] => []
  end.

(** [path.basename(p)] on a POSIX system: the trailing slashes are dropped
    and what follows the last remaining slash is kept. *)
Definition basename (path : string) : string :=
  string_of_list_ascii
    (rev (upToSlash (dropSlashes (rev (list_ascii_of_string path))))).

Definition slashFree (s : string) : bool :=
  forallb (fun c => negb (isSlash c)) (list_ascii_of_string s).

End JSString.

Module Helpers.

(** The fields of the [Attachment] entity that [convertAudio] uses. *)
Record Attachment := {
  guid : string;
  transferName : string;
  mimeType : Nullable string;
  filePath : Nullable string
}.

(** *** [convertAudio] *)

Inductive AudioEffect : Type :=
| AExists (path : string)                             (* fs.existsSync(path) *)
| AConvert (attachment : Attachment) (path : string). (* FileSystem.convertCafToMp3 *)

Section ConvertAudio.

(** [FileSystem.convertDir], the state of the disk, and how
    [await FileSystem.convertCafToMp3(attachment, path)] ends; the converter
    leaves the attachment object alone. *)
Variable convertDir : string.
Variable existsSync : string -> bool.
Variable convertCafToMp3 : Attachment -> string -> Outcome unit.

Definition mp3Path (attachment : Attachment) : string :=
  (convertDir ++ "/" ++ guid attachment ++ ".mp3")%string.

(** The attachment after a conversion. *)
Definition converted (attachment : Attachment) : Attachment :=
  {| guid := guid attachment;
     transferName :=
       JSString.replaceFirst ".caf" ".mp3" (JSString.basename (mp3Path attachment));
     mimeType := Value "audio/mp3"%string;
     filePath := Value (mp3Path attachment) |}.

(** The result ([null] is [None]), the attachment object as the call leaves
    it, and the effects. *)
Definition convertAudio (attachment : Attachment)
  : Outcome (option string) * Attachment * list AudioEffect :=
  let newPath := mp3Path attachment in
  if negb (existsSync newPath) then
    match convertCafToMp3 attachment newPath with
    | Returned _ =>
        (Returned (Some newPath), converted attachment,
         [AExists newPath; AConvert attachment newPath])
    | Threw _ =>
        (Returned None, attachment, [AExists newPath; AConvert attachment newPath])
    | Pending =>
        (Pending, attachment, [AExists newPath; AConvert attachment newPath])
    end
  else (Returned (Some newPath), converted attachment, [AExists newPath]).

(** The conversions a call asked for. *)
Fixpoint conversions (t : list AudioEffect) : list (Attachment * string) :=
  match t with
  | [] => []
  | AConvert a path :: rest => (a, path) :: conversions rest
  | _ :: rest => conversions rest
  end.

End ConvertAudio.

(** How a call that also hands back an object and its effects ended. *)
Definition outcome3 {A B C : Type} (r : Outcome A * B * C) : Outcome A := fst (fst r).

(** *** [groupMessageType] and [messageOverview] *)

(** The members of the [ApiEvent] enumeration that the helpers name. *)
Inductive ApiEvent : Type :=
| GROUP_PARTICIPANT_ADDED
| GROUP_PARTICIPANT_REMOVED
| GROUP_NAME_CHANGE
| GROUP_PARTICIPANT_LEFT.

(** The fields of [MessageDbSpec] that the helpers read, numbers where the
    code compares them with numbers. *)
Record MessageDbSpec := {
  isFromMe : Nullable bool;
  attachments : Nullable (list Attachment);
  text : Nullable string;
  itemType : Nullable Z;
  groupActionType : Nullable Z;
  associatedMessageGuid : Nullable string;
  associatedMessageType : Nullable Z
}.

(** [v === n] for a number [n]. *)
Definition isNumber (n : Z) (v : Nullable Z) : bool :=
  match v with Value m => Z.eqb m n | _ => false end.

(** [msg.f]: the access throws when [msg] is [null] or [undefined]. *)
Definition get {A B : Type} (f : A -> Nullable B) (m : Nullable A) : Outcome (Nullable B) :=
  match m with Value a => Returned (f a) | _ => Threw "TypeError" end.

(** [msg?.f] *)
Definition getOpt {A B : Type} (f : A -> Nullable B) (m : Nullable A) : Nullable B :=
  match m with Value a => f a | _ => Undefined end.

(** [v ?? d] *)
Definition orElse {A : Type} (v : Nullable A) (d : A) : A :=
  match v with Value a => a | _ => d end.

(** Truthiness of a boolean and of a string field. *)
Definition truthyBool (v : Nullable bool) : bool :=
  match v with Value b => b | _ => false end.

Definition truthyString (v : Nullable string) : bool :=
  match v with Value s => negb (String.eqb s EmptyString) | _ => false end.

(** A string field in a template literal. *)
Definition render (v : Nullable string) : string :=
  match v with
  | Undefined => "undefined"%string
  | Null => "null"%string
  | Value s => s
  end.

(** [[1, 2, 3].includes(v)] *)
Definition isGroupItem (v : Nullable Z) : bool :=
  isNumber 1 v || isNumber 2 v || isNumber 3 v.

Definition groupMessageType (message : Nullable MessageDbSpec) : Outcome (option ApiEvent) :=
  match message with
  | Value msg =>
      Returned
        (if isNumber 1 (itemType msg) && isNumber 0 (groupActionType msg)
         then Some GROUP_PARTICIPANT_ADDED
         else if isNumber 1 (itemType msg) && isNumber 1 (groupActionType msg)
         then Some GROUP_PARTICIPANT_REMOVED
         else if isNumber 2 (itemType msg) then Some GROUP_NAME_CHANGE
         else if isNumber 3 (itemType msg) then Some GROUP_PARTICIPANT_LEFT
         else None)
  | _ => Threw "TypeError"
  end.

Section Overview.

(** The string of each member of [ApiEvent], which is declared elsewhere. *)
Variable apiEventValue : ApiEvent -> string.

(** The result of [groupMessageType] in a template literal. *)
Definition renderEvent (e : option ApiEvent) : string :=
  match e with Some event => apiEventValue event | None => "null"%string end.

Definition messageOverview (message : Nullable MessageDbSpec) : Outcome string :=
  let msgType :=
    if truthyBool (getOpt isFromMe message)
    then "Outgoing Message"%string else "Incoming Message"%string in
  let count := List.length (orElse (getOpt attachments message) []) in
  if (0 <? count)%nat then
    if (1 <? JSString.length (orElse (getOpt text message) EmptyString))%nat then
      match get text message with
      | Returned t =>
          Returned (Utils.numberToString (Z.of_nat count) ++ " Attachments & "
                    ++ msgType ++ ": " ++ render t)%string
      | Threw e => Threw e
      | Pending => Pending
      end
    else Returned (Utils.numberToString (Z.of_nat count) ++ " Attachments")%string
  else if negb (truthyString (getOpt text message))
          && isGroupItem (getOpt itemType message) then
    match groupMessageType message with
    | Returned groupEvent => Returned ("Group Event: " ++ renderEvent groupEvent)%string
    | Threw e => Threw e
    | Pending => Pending
    end
  else if truthyString (getOpt associatedMessageGuid message)
          && (0 <? orElse (getOpt associatedMessageType message) 0) then
    Returned ("Reaction: " ++ render (getOpt text message))%string
  else Returned (msgType ++ ": " ++ orElse (getOpt text message) "N/A"%string)%string.

End Overview.

End Helpers.

(** ** [ThemeRouter.create] *)
Module ThemeRouter.

Section Themes.

(** A value of the request body, and how
    [await BackupsInterface.saveTheme(name, data)] ends. *)
Variable JSON : Type.

(** An object, by its own properties in the order of [Object.keys]. *)
Definition JSObject : Type := list (string * JSON).

Variable saveTheme : JSON -> JSObject -> Outcome unit.

Definition keys (o : JSObject) : list string := map fst o.

(** [list.includes(k)] *)
Definition includes (k : string) (l : list string) : bool :=
  existsb (String.eqb k) l.

(** [o[k]], [None] for a missing property. *)
Fixpoint getProperty (k : string) (o : JSObject) : option JSON :=
  match o with
  | [] => None
  | (k', v) :: rest => if String.eqb k' k then Some v else getProperty k rest
  end.

(** [o[k] = v]: the property is overwritten where it is, or added last. *)
Fixpoint setProperty (k : string) (v : JSON) (o : JSObject) : JSObject :=
  match o with
  | [] => [(k, v)]
  | (k', v') :: rest =>
      if String.eqb k' k then (k, v) :: rest else (k', v') :: setProperty k v rest
  end.

Inductive ThemeEffect : Type :=
| ESaveTheme (name : JSON) (data : JSObject)  (* BackupsInterface.saveTheme(name, data) *)
| ESend (message : string).                   (* new Success(ctx, { message }).send() *)

(** [create] on a body whose [data] is an object, [null] or missing; the
    object is the one of the request and is changed in place. *)
Definition create (name : JSON) (data : Nullable JSObject)
  : Outcome unit * Nullable JSObject * list ThemeEffect :=
  match data with
  | Value o =>
      let o' := if negb (includes "name" (keys o)) then setProperty "name" name o else o in
      match saveTheme name o' with
      | Returned _ =>
          (Returned tt, Value o', [ESaveTheme name o'; ESend "Successfully saved theme!"])
      | Threw e => (Threw e, Value o', [ESaveTheme name o'])
      | Pending => (Pending, Value o', [ESaveTheme name o'])
      end
  | _ => (Threw "TypeError", data, [])
  end.

End Themes.

Arguments keys {JSON} o.
Arguments getProperty {JSON} k o.
Arguments setProperty {JSON} k v o.
Arguments ESaveTheme {JSON} name data.
Arguments ESend {JSON} message.
Arguments create {JSON} saveTheme name data.

End ThemeRouter.

(** ** [getBlurHash] and [getAttachmentResponse] *)

(** How a synchronous call of a library ends. *)
Inductive Try (A : Type) : Type :=
| Done (a : A)
| Exception (message : string).
Arguments Done {A} a.
Arguments Exception {A} message.

(** The size of a [NativeImage]. *)
Module NativeImage.

Record Size := { width : Z; height : Z }.

End NativeImage.

Module BlurHash.

Section Encoder.

(** The image library, and the encoder of the blurhash package, which
    throws on a bitmap it rejects. *)
Variable Image : Type.
Variable Bitmap : Type.
Variable getSize : Image -> NativeImage.Size.
Variable resize : Image -> Z -> Image.
Variable toBitmap : Image -> Bitmap.
Variable blurHashEncode : Bitmap -> Z -> Z -> Z -> Z -> Try string.

(** The image that is encoded: the one given, or its copy of width 320 when
    it is wider. *)
Definition calcImage (image : Image) : Image :=
  if NativeImage.width (getSize image) >? 320 then resize image 320 else image.

(** The arguments of the call of the encoder. *)
Definition encoderCall (image : Image) : Bitmap * Z * Z * Z * Z :=
  (toBitmap (calcImage image),
   NativeImage.width (getSize (calcImage image)),
   NativeImage.height (getSize (calcImage image)), 3, 3).

Definition getBlurHash (image : Image) : Nullable string :=
  let '(bitmap, w, h, componentX, componentY) := encoderCall image in
  match blurHashEncode bitmap w h componentX componentY with
  | Done hash => Value hash
  | Exception _ => Null
  end.

End Encoder.

End BlurHash.

Module AttachmentEntity.

(** The columns of the [Attachment] entity that [getAttachmentResponse]
    reads. *)
Record Attachment := {
  ROWID : Z;
  guid : string;
  messages : Nullable (list Utils.Message);
  uti : string;
  mimeType : Nullable string;
  transferState : Z;
  isOutgoing : bool;
  transferName : string;
  totalBytes : Z;
  isSticker : bool;
  hideAttachment : bool;
  filePath : Nullable string
}.

Module Response.

(** [AttachmentResponse] *)
Record AttachmentResponse := {
  originalROWID : Z;
  guid : string;
  messages : list string;
  data : Nullable string;
  height : Z;
  width : Z;
  blurhash : Nullable string;
  uti : string;
  mimeType : Nullable string;
  transferState : Z;
  isOutgoing : bool;
  transferName : string;
  totalBytes : Z;
  isSticker : bool;
  hideAttachment : bool
}.

End Response.

Definition handledImageMimes : list string :=
  ["image/jpeg"; "image/jpg"; "image/png"; "image/bmp"; "image/tiff"; "image/gif"]%string.

(** [handledImageMimes.includes(mimeType)] *)
Definition isHandledImage (mime : Nullable string) : bool :=
  match mime with
  | Value m => existsb (String.eqb m) handledImageMimes
  | _ => false
  end.

(** A path that is truthy: a string that is not empty. *)
Definition truthyPath (p : Nullable string) : option string :=
  match p with
  | Value (String c rest) => Some (String c rest)
  | _ => None
  end.

Inductive FileEffect : Type :=
| FExists (path : string)    (* fs.existsSync(path) *)
| FConvert (path : string)   (* FileSystem.convertCafToMp3(tableData, path) *)
| FRead (path : string).     (* fs.readFileSync(path) *)

Section GetAttachmentResponse.

(** The disk and the libraries: [FileSystem.getRealPath] and
    [FileSystem.convertDir], the [fs] calls, of which [readFileSync] throws
    on a file it cannot read, the converter, which changes the disk, the
    image library, the blurhash encoder and the Base64 encoder. *)
Variable Disk : Type.
Variable Bytes : Type.
Variable Image : Type.
Variable Bitmap : Type.
Variable getRealPath : string -> string.
Variable convertDir : string.
Variable existsSync : Disk -> string -> bool.
Variable readFileSync : Disk -> string -> Try Bytes.
Variable convertCafToMp3 : Disk -> Attachment -> string -> Outcome unit * Disk.
Variable createFromPath : Disk -> string -> Image.
Variable getSize : Image -> NativeImage.Size.
Variable resize : Image -> Z -> Image.
Variable toBitmap : Image -> Bitmap.
Variable blurHashEncode : Bitmap -> Z -> Z -> Z -> Z -> Try string.
Variable bytesToBase64 : Bytes -> string.

Definition mp3Path (attachment : Attachment) : string :=
  (convertDir ++ "/" ++ guid attachment ++ ".mp3")%string.

(** The attachment object after a conversion. *)
Definition converted (a : Attachment) : Attachment :=
  {| ROWID := ROWID a; guid := guid a; messages := messages a; uti := uti a;
     mimeType := Value "audio/mp3"%string;
     transferState := transferState a; isOutgoing := isOutgoing a;
     transferName :=
       JSString.replaceFirst ".caf" ".mp3" (JSString.basename (mp3Path a));
     totalBytes := totalBytes a; isSticker := isSticker a;
     hideAttachment := hideAttachment a;
     filePath := Value (mp3Path a) |}.

(** The object that [getAttachmentResponse] returns. *)
Definition respond (a : Attachment) (data : Nullable string) (image : option Image)
    (blurhash : Nullable string) : Response.AttachmentResponse :=
  {| Response.originalROWID := ROWID a;
     Response.guid := guid a;
     Response.messages :=
       match messages a with Value ms => map Utils.guid ms | _ => [] end;
     Response.data := data;
     Response.height :=
       match image with Some i => NativeImage.height (getSize i) | None => 0 end;
     Response.width :=
       match image with Some i => NativeImage.width (getSize i) | None => 0 end;
     Response.blurhash := blurhash;
     Response.uti := uti a;
     Response.mimeType := mimeType a;
     Response.transferState := transferState a;
     Response.isOutgoing := isOutgoing a;
     Response.transferName := transferName a;
     Response.totalBytes := totalBytes a;
     Response.isSticker := isSticker a;
     Response.hideAttachment := hideAttachment a |}.

(** The function from [fs.existsSync(fPath)] on, where [a] is the attachment
    object as it is then and [before] the effects so far. *)
Definition readAndRespond (withData withBlurhash : bool) (a : Attachment)
    (fPath : string) (disk : Disk) (before : list FileEffect)
  : Outcome Response.AttachmentResponse * Attachment * Disk * list FileEffect :=
  if existsSync disk fPath then
    match readFileSync disk fPath with
    | Done fopen =>
        let image :=
          if isHandledImage (mimeType a) then Some (createFromPath disk fPath) else None in
        let blurhash :=
          match image with
          | Some i =>
              if withBlurhash
              then BlurHash.getBlurHash Image Bitmap getSize resize toBitmap blurHashEncode i
              else Null
          | None => Null
          end in
        let data := if withData then Value (bytesToBase64 fopen) else Null in
        (Returned (respond a data image blurhash), a, disk,
         before ++ [FExists fPath; FRead fPath])
    | Exception _ =>
        (Returned (respond a Null None Null), a, disk,
         before ++ [FExists fPath; FRead fPath])
    end
  else (Returned (respond a Null None Null), a, disk, before ++ [FExists fPath]).

(** The response, the attachment object and the disk as the call leaves
    them, and the effects on the disk. *)
Definition getAttachmentResponse (attachment : Attachment)
    (withData withBlurhash : bool) (disk : Disk)
  : Outcome Response.AttachmentResponse * Attachment * Disk * list FileEffect :=
  match truthyPath (filePath attachment) with
  | Some path =>
      let fPath := getRealPath path in
      if String.eqb (uti attachment) "com.apple.coreaudio-format" then
        let newPath := mp3Path attachment in
        if negb (existsSync disk newPath) then
          match convertCafToMp3 disk attachment newPath with
          | (Returned _, disk') =>
              readAndRespond withData withBlurhash (converted attachment) newPath disk'
                [FExists newPath; FConvert newPath]
          | (Threw _, disk') =>
              readAndRespond withData withBlurhash attachment fPath disk'
                [FExists newPath; FConvert newPath]
          | (Pending, disk') =>
              (Pending, attachment, disk', [FExists newPath; FConvert newPath])
          end
        else
          readAndRespond withData withBlurhash (converted attachment) newPath disk
            [FExists newPath]
      else readAndRespond withData withBlurhash attachment fPath disk []
  | None => (Returned (respond attachment Null None Null), attachment, disk, [])
  end.

(** The parts of a result. *)
Definition responseOf
    (r : Outcome Response.AttachmentResponse * Attachment * Disk * list FileEffect)
  : Outcome Response.AttachmentResponse := fst (fst (fst r)).

Definition attachmentOf
    (r : Outcome Response.AttachmentResponse * Attachment * Disk * list FileEffect)
  : Attachment := snd (fst (fst r)).

Definition diskOf
    (r : Outcome Response.AttachmentResponse * Attachment * Disk * list FileEffect)
  : Disk := snd (fst r).

Definition effectsOf
    (r : Outcome Response.AttachmentResponse * Attachment * Disk * list FileEffect)
  : list FileEffect := snd r.

End GetAttachmentResponse.

Arguments responseOf {Disk} r.
Arguments attachmentOf {Disk} r.
Arguments diskOf {Disk} r.
Arguments effectsOf {Disk} r.

End AttachmentEntity.

(** ** [getAttachmentMetadata] *)
Module AttachmentMetadata.

(** [Metadata], with the two fields that [getAttachmentMetadata] reads and
    writes; [other] stands for its other fields. *)
Record Metadata (Other : Type) := {
  height : Nullable Z;
  width : Nullable Z;
  other : Other
}.
Arguments height {Other} m.
Arguments width {Other} m.
Arguments other {Other} m.

(** Truthiness of a number that may be absent. *)
Definition truthyNumber (v : Nullable Z) : bool :=
  match v with Value n => negb (Z.eqb n 0) | _ => false end.

(** [mimeType.startsWith(prefix)], a [TypeError] when the MIME type is
    [null] or [undefined]. *)
Definition mimeStartsWith (prefix : string) (mime : Nullable string) : Try bool :=
  match mime with
  | Value m => Done (JSString.startsWith prefix m)
  | _ => Exception "TypeError"
  end.

Inductive MetadataEffect : Type :=
| MAudio (path : Nullable string)   (* FileSystem.getAudioMetadata(path) *)
| MImage (path : Nullable string)   (* FileSystem.getImageMetadata(path) *)
| MVideo (path : Nullable string).  (* FileSystem.getVideoMetadata(path) *)

Section GetAttachmentMetadata.

(** The [handledImageMimes] of the helpers' constants, the three readers of
    [FileSystem], the fields of an empty [Metadata], [FileSystem.getRealPath]
    at a path that may be [null], where it may throw, and the image
    library. *)
Variable Other : Type.
Variable noOther : Other.
Variable handledImageMimes : list string.
Variable getAudioMetadata : Nullable string -> Outcome (Nullable (Metadata Other)).
Variable getImageMetadata : Nullable string -> Outcome (Nullable (Metadata Other)).
Variable getVideoMetadata : Nullable string -> Outcome (Nullable (Metadata Other)).
Variable Image : Type.
Variable getRealPath : Nullable string -> Try string.
Variable createFromPath : string -> Image.
Variable getSize : Image -> NativeImage.Size.

(** [handledImageMimes.includes(mimeType)] *)
Definition isHandled (mime : Nullable string) : bool :=
  match mime with
  | Value m => existsb (String.eqb m) handledImageMimes
  | _ => false
  end.

(** [!metadata?.height || !metadata?.width] *)
Definition lacksSize (metadata : Nullable (Metadata Other)) : bool :=
  negb (truthyNumber (Helpers.getOpt height metadata)) ||
  negb (truthyNumber (Helpers.getOpt width metadata)).

(** The [try] block after [getImageMetadata]: the metadata as the block, or
    its [catch], leaves it. Setting a field of an [undefined] metadata
    throws, and the [catch] only logs. *)
Definition sizeFromNativeImage (attachment : AttachmentEntity.Attachment)
    (metadata : Nullable (Metadata Other)) : Nullable (Metadata Other) :=
  if isHandled (AttachmentEntity.mimeType attachment) && lacksSize metadata then
    match getRealPath (AttachmentEntity.filePath attachment) with
    | Done path =>
        let size := getSize (createFromPath path) in
        if negb (Z.eqb (NativeImage.height size) 0) && negb (Z.eqb (NativeImage.width size) 0) then
          match metadata with
          | Value m =>
              Value {| height := Value (NativeImage.height size);
                       width := Value (NativeImage.width size);
                       other := other m |}
          | Null =>
              Value {| height := Value (NativeImage.height size);
                       width := Value (NativeImage.width size);
                       other := noOther |}
          | Undefined => Undefined
          end
        else metadata
    | Exception _ => metadata
    end
  else metadata.

Definition isCaf (attachment : AttachmentEntity.Attachment) : bool :=
  String.eqb (AttachmentEntity.uti attachment) "com.apple.coreaudio-format".

Definition getAttachmentMetadata (attachment : AttachmentEntity.Attachment)
  : Outcome (Nullable (Metadata Other)) * list MetadataEffect :=
  let mime := AttachmentEntity.mimeType attachment in
  let path := AttachmentEntity.filePath attachment in
  if negb (isCaf attachment) && negb (Helpers.truthyString mime)
  then (Returned Undefined, [])
  else
    match (if isCaf attachment then Done true else mimeStartsWith "audio" mime) with
    | Exception e => (Threw e, [])
    | Done true => (getAudioMetadata path, [MAudio path])
    | Done false =>
        match mimeStartsWith "image" mime with
        | Exception e => (Threw e, [])
        | Done true =>
            match getImageMetadata path with
            | Returned metadata =>
                (Returned (sizeFromNativeImage attachment metadata), [MImage path])
            | Threw e => (Threw e, [MImage path])
            | Pending => (Pending, [MImage path])
            end
        | Done false =>
            match mimeStartsWith "video" mime with
            | Exception e => (Threw e, [])
            | Done true => (getVideoMetadata path, [MVideo path])
            | Done false => (Returned Undefined, [])
            end
        end
    end.

End GetAttachmentMetadata.

End AttachmentMetadata.

(** ** [PrivateApiFaceTimeStatusHandler] *)
Module FaceTime.

(** [data.data] of the event, with the fields the handler reads;
    [data_handle] is its [handle]. *)
Record HandleRef := { value : string }.

Record CallData := {
  call_status : Z;
  data_handle : Nullable HandleRef;
  call_uuid : string;
  ended_error : Nullable string;
  ended_reason : Nullable string;
  image_url : Nullable string;
  is_outgoing : Nullable bool;
  is_sending_audio : Nullable bool;
  is_sending_video : Nullable bool
}.

(** [callStatusMap] *)
Definition callStatusMap (status : Z) : option string :=
  if Z.eqb status 1 then Some "answered"%string
  else if Z.eqb status 3 then Some "outgoing"%string
  else if Z.eqb status 4 then Some "incoming"%string
  else if Z.eqb status 6 then Some "disconnected"%string
  else None.

(** [v ?? d] *)
Definition orDefault {A : Type} (v : Nullable A) (d : A) : A :=
  match v with Value a => a | _ => d end.

(** [v ?? null] *)
Definition orNull {A : Type} (v : Nullable A) : Nullable A :=
  match v with Value a => Value a | _ => Null end.

Section Handler.

(** The services the handler reaches through [Server()] and its imports:
    the event cache with its [find] and [add], [slugifyAddress], the handle
    query of the message repository with the serializer of its rows, the
    [isMinVentura] constant, and how the wait for the link of an answered
    call ends. *)
Variable EventCache : Type.
Variable find : EventCache -> string -> bool.
Variable add : EventCache -> string -> EventCache.
Variable slugifyAddress : string -> string.
Variable HandleRow : Type.
Variable HandleResponse : Type.
Variable getHandles : string -> Outcome (list HandleRow).
Variable serialize : HandleRow -> Outcome HandleResponse.
Variable isMinVentura : bool.
Variable answerAndWaitForLink : string -> Outcome string.

(** [FaceTimeStatusData], the payload sent to the clients. *)
Record FaceTimeStatusData := {
  uuid : string;
  status_id : Z;
  status : string;
  out_ended_error : Nullable string;
  out_ended_reason : Nullable string;
  address : string;
  out_handle : Nullable HandleResponse;
  out_image_url : Nullable string;
  out_is_outgoing : bool;
  is_audio : bool;
  is_video : bool;
  url : Nullable string
}.

Inductive CallEffect : Type :=
| FFind (id : string)                  (* Server().eventCache.find(id) *)
| FAdd (id : string)                   (* Server().eventCache.add(id) *)
| FGetHandles (address : string)       (* Server().iMessageRepo.getHandles(...) *)
| FAnswer (callUuid : string)          (* this.answerAndWaitForLink(callUuid) *)
| FInvalidate (callUuid : string)      (* FaceTimeSessionManager().invalidateSession *)
| FEmit (output : FaceTimeStatusData). (* Server().emitMessage(FT_CALL_STATUS_CHANGED, ...) *)

(** The cache key of an incoming call. *)
Definition incomingId (data : CallData) : string :=
  ("ft-" ++ Utils.numberToString (call_status data) ++ "-" ++ call_uuid data)%string.

Definition buildOutput (data : CallData) (h : HandleRef)
    (serialized : Nullable HandleResponse) : FaceTimeStatusData :=
  {| uuid := call_uuid data;
     status_id := call_status data;
     status := match callStatusMap (call_status data) with
               | Some name => name
               | None => "unknown"%string
               end;
     out_ended_error := ended_error data;
     out_ended_reason := ended_reason data;
     address := value h;
     out_handle := serialized;
     out_image_url := orNull (image_url data);
     out_is_outgoing := orDefault (is_outgoing data) false;
     is_audio := orDefault (is_sending_audio data) false;
     is_video := orDefault (is_sending_video data) true;
     url := Undefined |}.

Definition withUrl (link : string) (o : FaceTimeStatusData) : FaceTimeStatusData :=
  {| uuid := uuid o; status_id := status_id o; status := status o;
     out_ended_error := out_ended_error o; out_ended_reason := out_ended_reason o;
     address := address o; out_handle := out_handle o;
     out_image_url := out_image_url o; out_is_outgoing := out_is_outgoing o;
     is_audio := is_audio o; is_video := is_video o; url := Value link |}.

(** The end of [handle], from the session step on. *)
Definition finish (data : CallData) (output : FaceTimeStatusData)
    (cache : EventCache) (before : list CallEffect)
  : Outcome unit * EventCache * list CallEffect :=
  if Z.eqb (call_status data) 4 && isMinVentura then
    match answerAndWaitForLink (call_uuid data) with
    | Returned link =>
        (Returned tt, cache,
         before ++ [FAnswer (call_uuid data); FEmit (withUrl link output)])
    | Threw _ =>
        (Returned tt, cache, before ++ [FAnswer (call_uuid data); FEmit output])
    | Pending => (Pending, cache, before ++ [FAnswer (call_uuid data)])
    end
  else if Z.eqb (call_status data) 6 && isMinVentura then
    (Returned tt, cache, before ++ [FInvalidate (call_uuid data); FEmit output])
  else (Returned tt, cache, before ++ [FEmit output]).

(** [handle], from the query of the handles on. *)
Definition lookUpAndSend (data : CallData) (h : HandleRef)
    (cache : EventCache) (before : list CallEffect)
  : Outcome unit * EventCache * list CallEffect :=
  let addr := slugifyAddress (value h) in
  match getHandles addr with
  | Returned rows =>
      match rows with
      | row :: _ =>
          match serialize row with
          | Returned response =>
              finish data (buildOutput data h (Value response)) cache
                (before ++ [FGetHandles addr])
          | Threw e => (Threw e, cache, before ++ [FGetHandles addr])
          | Pending => (Pending, cache, before ++ [FGetHandles addr])
          end
      | [] => finish data (buildOutput data h Null) cache (before ++ [FGetHandles addr])
      end
  | Threw e => (Threw e, cache, before ++ [FGetHandles addr])
  | Pending => (Pending, cache, before ++ [FGetHandles addr])
  end.

Definition handle (data : CallData) (cache : EventCache)
  : Outcome unit * EventCache * list CallEffect :=
  if Z.eqb (call_status data) 1 || Z.eqb (call_status data) 3 then (Returned tt, cache, [])
  else
    match data_handle data with
    | Value h =>
        if Z.eqb (call_status data) 4 then
          let id := incomingId data in
          if find cache id then (Returned tt, cache, [FFind id])
          else lookUpAndSend data h (add cache id) [FFind id; FAdd id]
        else lookUpAndSend data h cache []
    | _ => (Returned tt, cache, [])
    end.

(** What a run sent to the clients, and what it asked the repository. *)
Fixpoint emissions (t : list CallEffect) : list FaceTimeStatusData :=
  match t with
  | [] => []
  | FEmit output :: rest => output :: emissions rest
  | _ :: rest => emissions rest
  end.

Fixpoint queries (t : list CallEffect) : list string :=
  match t with
  | [] => []
  | FGetHandles address :: rest => address :: queries rest
  | _ :: rest => queries rest
  end.

End Handler.

End FaceTime.

(** ** More values to run the code on *)
Module MoreScenarios.

(** A disk with the database and its write-ahead log. *)
Definition disk2 (path : string) : option Stats :=
  if String.eqb path "chat.db" then Some {| mtimeMs := 100000 |}
  else if String.eqb path "chat.db-wal" then Some {| mtimeMs := 90000 |}
  else None.

(** Two listeners that watch the two files in opposite orders, and one that
    also watches a file that is not there. *)
Definition forward : IMessageListener string Scenario.Keys :=
  IMessageListener_new ["chat.db"%string; "chat.db-wal"%string] [].

Definition backward : IMessageListener string Scenario.Keys :=
  IMessageListener_new ["chat.db-wal"%string; "chat.db"%string] [].

Definition threeFiles : IMessageListener string Scenario.Keys :=
  runOps Scenario.trim [OpAddPoller Scenario.messagePoller]
    (IMessageListener_new
       ["chat.db"%string; "chat.db-shm"%string; "chat.db-wal"%string] []).

(** A contended sequence of operations on one listener: while the first
    change is polled another caller arrives and is parked; the release hands
    it the token; a third caller finds the token taken and is parked; the
    two resume in turn, each when the token is handed to it. *)
Definition busyDay : list (Op string Scenario.Keys) :=
  [OpHandleChangeEvent Scenario.change 1;
   OpHandleChangeEvent Scenario.change3 0;
   OpStop;
   OpResumeChangeEvent Scenario.change2 0;
   OpResumeChangeEvent Scenario.change3 0].

(** A voice message, and how its conversion may go. *)
Definition voice : Helpers.Attachment :=
  {| Helpers.guid := "at_0_7C3B";
     Helpers.transferName := "Audio Message.caf";
     Helpers.mimeType := Value "audio/x-caf"%string;
     Helpers.filePath := Value "~/Library/Messages/Attachments/7c/Audio Message.caf"%string |}.

Definition noFile (path : string) : bool := false.

Definition converts (a : Helpers.Attachment) (path : string) : Outcome unit := Returned tt.

Definition breaks (a : Helpers.Attachment) (path : string) : Outcome unit :=
  Threw "ffmpeg exited with code 1".

(** The names of the group events. *)
Definition eventName (e : Helpers.ApiEvent) : string :=
  match e with
  | Helpers.GROUP_PARTICIPANT_ADDED => "participant-added"
  | Helpers.GROUP_PARTICIPANT_REMOVED => "participant-removed"
  | Helpers.GROUP_NAME_CHANGE => "group-name-change"
  | Helpers.GROUP_PARTICIPANT_LEFT => "participant-left"
  end.

(** The object replacement character U+FFFC, which stands for an attachment
    in the text of a message: three bytes, one UTF-16 code unit. *)
Definition placeholder : string :=
  String "239"%char (String "191"%char (String "188"%char EmptyString)).

(** A group message of item type 1 with an action that is neither 0 nor 1,
    a message with two attachments whose text is the placeholder alone, and
    one whose text goes on after it. *)
Definition oddGroupAction : Helpers.MessageDbSpec :=
  {| Helpers.isFromMe := Value false;
     Helpers.attachments := Value [];
     Helpers.text := Null;
     Helpers.itemType := Value 1;
     Helpers.groupActionType := Value 2;
     Helpers.associatedMessageGuid := Null;
     Helpers.associatedMessageType := Value 0 |}.

Definition twoPhotos : Helpers.MessageDbSpec :=
  {| Helpers.isFromMe := Value true;
     Helpers.attachments := Value [voice; voice];
     Helpers.text := Value placeholder;
     Helpers.itemType := Value 2;
     Helpers.groupActionType := Value 0;
     Helpers.associatedMessageGuid := Value "p:0/m1"%string;
     Helpers.associatedMessageType := Value 2000 |}.

Definition captionedPhotos : Helpers.MessageDbSpec :=
  {| Helpers.isFromMe := Value true;
     Helpers.attachments := Value [voice; voice];
     Helpers.text := Value (placeholder ++ "Hi")%string;
     Helpers.itemType := Value 0;
     Helpers.groupActionType := Value 0;
     Helpers.associatedMessageGuid := Null;
     Helpers.associatedMessageType := Value 0 |}.

(** The event cache as the list of its keys, a repository that knows no
    handle, and a call that comes in. *)
Definition cacheFind (c : list string) (id : string) : bool := existsb (String.eqb id) c.

Definition cacheAdd (c : list string) (id : string) : list string := id :: c.

Definition noHandles (address : string) : Outcome (list unit) := Returned [].

Definition serializeUnit (row : unit) : Outcome unit := Returned tt.

Definition noAnswer (callUuid : string) : Outcome string := Threw "no window".

Definition asTyped (address : string) : string := address.

(** [handle] with these services, on a system that can answer a call. *)
Definition handleWith (data : FaceTime.CallData) (cache : list string)
  : Outcome unit * list string * list (FaceTime.CallEffect unit) :=
  FaceTime.handle (list string) cacheFind cacheAdd asTyped unit unit noHandles
    serializeUnit true noAnswer data cache.

Definition ringing : FaceTime.CallData :=
  {| FaceTime.call_status := 4;
     FaceTime.data_handle := Value {| FaceTime.value := "+15550100" |};
     FaceTime.call_uuid := "8E1F";
     FaceTime.ended_error := Undefined;
     FaceTime.ended_reason := Undefined;
     FaceTime.image_url := Undefined;
     FaceTime.is_outgoing := Value false;
     FaceTime.is_sending_audio := Value true;
     FaceTime.is_sending_video := Undefined |}.

(** A disk as the list of its files with their contents, a converter that
    writes the mp3, an image library in which an image is its size, and an
    encoder with one hash. *)
Definition Files : Type := list (string * string).

Definition fileExists (d : Files) (path : string) : bool :=
  existsb (fun f => String.eqb (fst f) path) d.

Definition readFile (d : Files) (path : string) : Try string :=
  match List.find (fun f => String.eqb (fst f) path) d with
  | Some f => Done (snd f)
  | None => Exception "ENOENT"
  end.

Definition writesMp3 (d : Files) (a : AttachmentEntity.Attachment) (path : string)
  : Outcome unit * Files :=
  (Returned tt, (path, "ID3"%string) :: d).

Definition ffmpegFails (d : Files) (a : AttachmentEntity.Attachment) (path : string)
  : Outcome unit * Files :=
  (Threw "ffmpeg exited with code 1", d).

Definition homePath (path : string) : string :=
  JSString.replaceFirst "~" "/Users/me" path.

Definition openImage (d : Files) (path : string) : NativeImage.Size :=
  {| NativeImage.width := 640; NativeImage.height := 480 |}.

Definition sizeOf (image : NativeImage.Size) : NativeImage.Size := image.

Definition scale (image : NativeImage.Size) (w : Z) : NativeImage.Size :=
  {| NativeImage.width := w;
     NativeImage.height := NativeImage.height image * w / NativeImage.width image |}.

Definition pixels (image : NativeImage.Size) : NativeImage.Size := image.

Definition oneHash (bitmap : NativeImage.Size) (w h componentX componentY : Z)
  : Try string :=
  Done "LEHV6nWB2yk8"%string.

Definition asText (content : string) : string := content.

(** A voice message and a photo on a disk that holds both files. *)
Definition voiceMemo : AttachmentEntity.Attachment :=
  {| AttachmentEntity.ROWID := 41;
     AttachmentEntity.guid := "at_0_7C3B";
     AttachmentEntity.messages := Value [Scenario.sent];
     AttachmentEntity.uti := "com.apple.coreaudio-format";
     AttachmentEntity.mimeType := Value "audio/x-caf"%string;
     AttachmentEntity.transferState := 5;
     AttachmentEntity.isOutgoing := false;
     AttachmentEntity.transferName := "Audio Message.caf";
     AttachmentEntity.totalBytes := 18432;
     AttachmentEntity.isSticker := false;
     AttachmentEntity.hideAttachment := false;
     AttachmentEntity.filePath := Value "~/Attachments/7c/Audio Message.caf"%string |}.

Definition photo : AttachmentEntity.Attachment :=
  {| AttachmentEntity.ROWID := 42;
     AttachmentEntity.guid := "at_0_9D21";
     AttachmentEntity.messages := Undefined;
     AttachmentEntity.uti := "public.jpeg";
     AttachmentEntity.mimeType := Value "image/jpeg"%string;
     AttachmentEntity.transferState := 5;
     AttachmentEntity.isOutgoing := true;
     AttachmentEntity.transferName := "IMG_0042.jpeg";
     AttachmentEntity.totalBytes := 204800;
     AttachmentEntity.isSticker := false;
     AttachmentEntity.hideAttachment := false;
     AttachmentEntity.filePath := Value "~/Attachments/9d/IMG_0042.jpeg"%string |}.

Definition clip : AttachmentEntity.Attachment :=
  {| AttachmentEntity.ROWID := 43;
     AttachmentEntity.guid := "at_0_11AF";
     AttachmentEntity.messages := Undefined;
     AttachmentEntity.uti := "public.mpeg-4";
     AttachmentEntity.mimeType := Value "video/mp4"%string;
     AttachmentEntity.transferState := 5;
     AttachmentEntity.isOutgoing := false;
     AttachmentEntity.transferName := "clip.mp4";
     AttachmentEntity.totalBytes := 1048576;
     AttachmentEntity.isSticker := false;
     AttachmentEntity.hideAttachment := false;
     AttachmentEntity.filePath := Null |}.

Definition attachments : Files :=
  [("/Users/me/Attachments/7c/Audio Message.caf"%string, "caff"%string);
   ("/Users/me/Attachments/9d/IMG_0042.jpeg"%string, "JFIF"%string)].

(** What is sent for the photo when its data and its blurhash are asked for. *)
Definition photoResponse : AttachmentEntity.Response.AttachmentResponse :=
  {| AttachmentEntity.Response.originalROWID := 42;
     AttachmentEntity.Response.guid := "at_0_9D21";
     AttachmentEntity.Response.messages := [];
     AttachmentEntity.Response.data := Value "JFIF"%string;
     AttachmentEntity.Response.height := 480;
     AttachmentEntity.Response.width := 640;
     AttachmentEntity.Response.blurhash := Value "LEHV6nWB2yk8"%string;
     AttachmentEntity.Response.uti := "public.jpeg";
     AttachmentEntity.Response.mimeType := Value "image/jpeg"%string;
     AttachmentEntity.Response.transferState := 5;
     AttachmentEntity.Response.isOutgoing := true;
     AttachmentEntity.Response.transferName := "IMG_0042.jpeg";
     AttachmentEntity.Response.totalBytes := 204800;
     AttachmentEntity.Response.isSticker := false;
     AttachmentEntity.Response.hideAttachment := false |}.

(** [getAttachmentResponse] with these services. *)
Definition respondWith
    (convertCafToMp3 : Files -> AttachmentEntity.Attachment -> string -> Outcome unit * Files)
    (attachment : AttachmentEntity.Attachment) (withData withBlurhash : bool) (d : Files)
  : Outcome AttachmentEntity.Response.AttachmentResponse * AttachmentEntity.Attachment
    * Files * list AttachmentEntity.FileEffect :=
  AttachmentEntity.getAttachmentResponse Files string NativeImage.Size NativeImage.Size
    homePath "/conv" fileExists readFile convertCafToMp3 openImage sizeOf scale pixels
    oneHash asText attachment withData withBlurhash d.

(** Readers of metadata that find none, and one that fails. *)
Definition noMetadata (path : Nullable string)
  : Outcome (Nullable (AttachmentMetadata.Metadata unit)) := Returned Null.

Definition ffprobeFails (path : Nullable string)
  : Outcome (Nullable (AttachmentMetadata.Metadata unit)) := Threw "ffprobe failed".

Definition realPath (path : Nullable string) : Try string :=
  match path with
  | Value p => Done (homePath p)
  | _ => Exception "TypeError"
  end.

Definition loadImage (path : string) : NativeImage.Size :=
  {| NativeImage.width := 640; NativeImage.height := 480 |}.

(** [getAttachmentMetadata] with these services. *)
Definition metadataWith
    (getVideoMetadata : Nullable string -> Outcome (Nullable (AttachmentMetadata.Metadata unit)))
    (attachment : AttachmentEntity.Attachment)
  : Outcome (Nullable (AttachmentMetadata.Metadata unit))
    * list AttachmentMetadata.MetadataEffect :=
  AttachmentMetadata.getAttachmentMetadata unit tt ["image/jpeg"; "image/png"]%string
    noMetadata noMetadata getVideoMetadata NativeImage.Size realPath loadImage sizeOf
    attachment.

(** A theme without a name of its own. *)
Definition colours : ThemeRouter.JSObject string :=
  [("primary"%string, "#2772C3"%string); ("dark"%string, "true"%string)].

Definition saves (name : string) (data : ThemeRouter.JSObject string) : Outcome unit :=
  Returned tt.

End MoreScenarios.

(** ** More readings of operations and traces *)

(** The operation is the resumption of a parked change handler. *)
Definition isResume {Payload IMessageCache : Type} (op : Op Payload IMessageCache) : bool :=
  match op with OpResumeChangeEvent _ _ => true | _ => false end.

(** Whether the operation, run on [st], hands the token of the lock to a
    parked caller: it releases the lock, and the token does not come back to
    the free ones. *)
Definition handsOver {Payload IMessageCache : Type}
    (trimCaches : IMessageCache -> IMessageCache) (op : Op Payload IMessageCache)
    (st : IMessageListener Payload IMessageCache) : bool :=
  released (trace (runOp trimCaches op st)) &&
  match op with
  | OpHandleChangeEvent _ _ =>
      Nat.ltb (free (processLock (final (runOp trimCaches op st)))) (free (processLock st))
  | OpResumeChangeEvent _ _ =>
      Nat.eqb (free (processLock (final (runOp trimCaches op st)))) (free (processLock st))
  | _ => false
  end.

(** The parked callers that have been handed the token and have not
    resumed yet, once [op] has run on [st] with [owed] of them before. *)
Definition owedNext {Payload IMessageCache : Type}
    (trimCaches : IMessageCache -> IMessageCache) (op : Op Payload IMessageCache)
    (owed : nat) (st : IMessageListener Payload IMessageCache) : nat :=
  ((if isResume op then Nat.pred owed else owed) +
   (if handsOver trimCaches op st then 1 else 0))%nat.

Fixpoint owedAfter {Payload IMessageCache : Type}
    (trimCaches : IMessageCache -> IMessageCache) (ops : list (Op Payload IMessageCache))
    (owed : nat) (st : IMessageListener Payload IMessageCache) : nat :=
  match ops with
  | [] => owed
  | op :: rest =>
      owedAfter trimCaches rest (owedNext trimCaches op owed st)
        (final (runOp trimCaches op st))
  end.

(** A sequence of operations in which a parked caller resumes only when the
    token has been handed to it. *)
Fixpoint wellScheduled {Payload IMessageCache : Type}
    (trimCaches : IMessageCache -> IMessageCache) (ops : list (Op Payload IMessageCache))
    (owed : nat) (st : IMessageListener Payload IMessageCache) : bool :=
  match ops with
  | [] => true
  | op :: rest =>
      (if isResume op then Nat.ltb 0 owed else true) &&
      wellScheduled trimCaches rest (owedNext trimCaches op owed st)
        (final (runOp trimCaches op st))
  end.

(** Whether a trace builds the watcher, attaches a handler to it or starts
    it. *)
Definition touchesWatcher {Payload : Type} (t : list (Effect Payload)) : bool :=
  existsb (fun e => match e with
                    | EWatcherNew | EWatcherOn _ | EWatcherStart => true
                    | _ => false
                    end) t.

(** * Properties of the listener *)
Section CoordinatorFacts.

Variable Payload : Type.
Variable IMessageCache : Type.
Variable trimCaches : IMessageCache -> IMessageCache.

Local Abbreviation Listener := (IMessageListener Payload IMessageCache).
Local Abbreviation Poller := (IMessagePoller Payload IMessageCache).
Local Abbreviation Events := (list (Effect Payload)).

(** ** Reading a concatenated trace *)

Lemma pollersInvoked_app (t1 t2 : Events) :
  pollersInvoked (t1 ++ t2) = pollersInvoked t1 ++ pollersInvoked t2.
Proof.
  induction t1 as [|e t1 IH]; [reflexivity|].
  destruct e; cbn; rewrite IH; reflexivity.
Qed.

Lemma pollAfters_app (t1 t2 : Events) :
  pollAfters (t1 ++ t2) = pollAfters t1 ++ pollAfters t2.
Proof.
  induction t1 as [|e t1 IH]; [reflexivity|].
  destruct e; cbn; rewrite IH; reflexivity.
Qed.

Lemma emitted_app (t1 t2 : Events) :
  emitted (t1 ++ t2) = emitted t1 ++ emitted t2.
Proof.
  induction t1 as [|e t1 IH]; [reflexivity|].
  destruct e; cbn; rewrite IH; reflexivity.
Qed.

Lemma lastCheckWrites_app (t1 t2 : Events) :
  lastCheckWrites (t1 ++ t2) = lastCheckWrites t1 ++ lastCheckWrites t2.
Proof.
  induction t1 as [|e t1 IH]; [reflexivity|].
  destruct e; cbn; rewrite IH; reflexivity.
Qed.

Lemma delays_app (t1 t2 : Events) :
  delays (t1 ++ t2) = delays t1 ++ delays t2.
Proof.
  induction t1 as [|e t1 IH]; [reflexivity|].
  destruct e; cbn; rewrite IH; reflexivity.
Qed.

(** ** The emitter *)

Lemma heard_app (t1 t2 : Events) : heard (t1 ++ t2) = heard t1 ++ heard t2.
Proof.
  induction t1 as [|e t1 IH]; [reflexivity|].
  destruct e; cbn; rewrite IH; reflexivity.
Qed.

(** The calls of the subscribers end by returning or with an exception, and
    are calls and nothing else. *)
Lemma callSubscribers_spec (type : string) (payload : Payload)
      (subscribers : list (Subscriber Payload)) :
  fst (callSubscribers type payload subscribers) <> Pending /\
  quiet (snd (callSubscribers type payload subscribers)) /\
  pollersInvoked (snd (callSubscribers type payload subscribers)) = [] /\
  pollAfters (snd (callSubscribers type payload subscribers)) = [] /\
  emitted (snd (callSubscribers type payload subscribers)) = [].
Proof.
  induction subscribers as [|subscriber rest IH].
  - cbn. repeat split; [discriminate | constructor].
  - cbn [callSubscribers].
    destruct (String.eqb (eventName subscriber) type); [|exact IH].
    destruct (callback subscriber payload) as [error|].
    + cbn. repeat split; [discriminate | repeat constructor].
    + destruct (callSubscribers type payload rest) as [o t].
      cbn [fst snd] in *. destruct IH as [H1 [H2 [H3 [H4 H5]]]].
      repeat split; [exact H1 | constructor; [exact I | exact H2] | exact H3
                     | exact H4 | exact H5].
Qed.

(** Without a subscriber of the event nobody is called. *)
Lemma callSubscribers_none (type : string) (payload : Payload)
      (subscribers : list (Subscriber Payload)) :
  hasSubscriber type subscribers = false ->
  callSubscribers type payload subscribers = (Returned tt, []).
Proof.
  induction subscribers as [|subscriber rest IH]; intros H; [reflexivity|].
  cbn [hasSubscriber existsb] in H. apply orb_false_iff in H. destruct H as [H1 H2].
  cbn [callSubscribers]. rewrite H1. apply IH. exact H2.
Qed.

(** One emission, spelled out. *)
Lemma emit_runs (type : string) (payload : Payload) (st : Listener) :
  emit type payload st =
  ((if String.eqb type "error" && negb (hasSubscriber type (listeners st))
    then Threw "ERR_UNHANDLED_ERROR"
    else fst (callSubscribers type payload (listeners st))),
   st,
   EEmit type payload ::
     (if String.eqb type "error" && negb (hasSubscriber type (listeners st))
      then []
      else snd (callSubscribers type payload (listeners st)))).
Proof.
  unfold emit.
  destruct (String.eqb type "error" && negb (hasSubscriber type (listeners st)))%bool;
    [reflexivity|].
  destruct (callSubscribers type payload (listeners st)) as [o t]. reflexivity.
Qed.

(** One emission: it leaves the listener alone, ends by returning or with an
    exception, depends on the subscribers only, and is one call of [emit]. *)
Lemma emit_spec (type : string) (payload : Payload) (st : Listener) :
  final (emit type payload st) = st /\
  outcome (emit type payload st) <> Pending /\
  quiet (trace (emit type payload st)) /\
  pollersInvoked (trace (emit type payload st)) = [] /\
  pollAfters (trace (emit type payload st)) = [] /\
  emitted (trace (emit type payload st)) = [(type, payload)] /\
  (forall st2 : Listener, listeners st2 = listeners st ->
     outcome (emit type payload st2) = outcome (emit type payload st) /\
     trace (emit type payload st2) = trace (emit type payload st)).
Proof.
  split; [rewrite emit_runs; reflexivity|].
  split; [|split; [|split; [|split; [|split]]]].
  - rewrite emit_runs. cbn [outcome fst].
    destruct (String.eqb type "error" && negb (hasSubscriber type (listeners st)))%bool;
      [discriminate|].
    apply callSubscribers_spec.
  - rewrite emit_runs. cbn [trace snd]. constructor; [exact I|].
    destruct (String.eqb type "error" && negb (hasSubscriber type (listeners st)))%bool;
      [constructor|].
    apply callSubscribers_spec.
  - rewrite emit_runs. cbn [trace snd pollersInvoked].
    destruct (String.eqb type "error" && negb (hasSubscriber type (listeners st)))%bool;
      [reflexivity|].
    apply callSubscribers_spec.
  - rewrite emit_runs. cbn [trace snd pollAfters].
    destruct (String.eqb type "error" && negb (hasSubscriber type (listeners st)))%bool;
      [reflexivity|].
    apply callSubscribers_spec.
  - rewrite emit_runs. cbn [trace snd emitted]. f_equal.
    destruct (String.eqb type "error" && negb (hasSubscriber type (listeners st)))%bool;
      [reflexivity|].
    apply callSubscribers_spec.
  - intros st2 H. rewrite !emit_runs, H. split; reflexivity.
Qed.

(** The emissions of one poller's results, one result at a time. *)
Lemma emitAll_cons (r : PollResult Payload) (rest : list (PollResult Payload))
      (st : Listener) :
  emitAll (r :: rest) st =
  match outcome (emit (eventType r) (data r) st) with
  | Returned _ =>
      (outcome (emitAll rest st), final (emitAll rest st),
       trace (emit (eventType r) (data r) st) ++ trace (emitAll rest st))
  | Threw error => (Threw error, st, trace (emit (eventType r) (data r) st))
  | Pending => (Pending, st, trace (emit (eventType r) (data r) st))
  end.
Proof.
  cbn [emitAll]. unfold bind.
  destruct (emit_spec (eventType r) (data r) st) as [Ef _].
  destruct (emit (eventType r) (data r) st) as [[o s] t].
  cbn [outcome final trace fst snd] in *. subst s.
  destruct o as [[] | error |]; [|reflexivity..].
  destruct (emitAll rest st) as [[o s] t']. reflexivity.
Qed.

Lemma emitAll_spec (results : list (PollResult Payload)) (st : Listener) :
  final (emitAll results st) = st /\
  outcome (emitAll results st) <> Pending /\
  quiet (trace (emitAll results st)) /\
  pollersInvoked (trace (emitAll results st)) = [] /\
  pollAfters (trace (emitAll results st)) = [] /\
  (exists more : list (string * Payload),
     map (fun r => (eventType r, data r)) results =
       emitted (trace (emitAll results st)) ++ more /\
     (outcome (emitAll results st) = Returned tt -> more = [])) /\
  (forall st2 : Listener, listeners st2 = listeners st ->
     outcome (emitAll results st2) = outcome (emitAll results st) /\
     trace (emitAll results st2) = trace (emitAll results st)).
Proof.
  induction results as [|r rest IH].
  - cbn. split; [reflexivity|]. split; [discriminate|]. split; [constructor|].
    split; [reflexivity|]. split; [reflexivity|].
    split; [exists []; split; reflexivity | intros st2 _; split; reflexivity].
  - destruct IH as [If [Ip [Iq [Ii [Ia [[more [Ie Im]] Is]]]]]].
    destruct (emit_spec (eventType r) (data r) st) as [Ef [Ep [Eq [Ei [Ea [Ee Es]]]]]].
    assert (Hsame : forall st2 : Listener, listeners st2 = listeners st ->
              outcome (emitAll (r :: rest) st2) = outcome (emitAll (r :: rest) st) /\
              trace (emitAll (r :: rest) st2) = trace (emitAll (r :: rest) st)).
    { intros st2 H. rewrite !emitAll_cons.
      destruct (Es st2 H) as [Ho Ht]. destruct (Is st2 H) as [Io It].
      rewrite Ho, Ht.
      destruct (outcome (emit (eventType r) (data r) st)) as [[] | error |];
        cbn [outcome trace fst snd]; [|split; reflexivity..].
      rewrite Io, It. split; reflexivity. }
    rewrite emitAll_cons in *.
    destruct (outcome (emit (eventType r) (data r) st)) as [[] | error |];
      cbn [outcome final trace fst snd] in *.
    + rewrite pollersInvoked_app, pollAfters_app, emitted_app, Ei, Ea, Ii, Ia, Ee.
      split; [exact If|]. split; [exact Ip|].
      split; [apply Forall_app; split; assumption|].
      split; [reflexivity|]. split; [reflexivity|]. split; [|exact Hsame].
      exists more. cbn [map app]. rewrite Ie. split; [reflexivity | exact Im].
    + rewrite Ee. split; [reflexivity|]. split; [discriminate|].
      split; [exact Eq|]. split; [exact Ei|]. split; [exact Ea|]. split; [|exact Hsame].
      exists (map (fun r0 => (eventType r0, data r0)) rest).
      split; [reflexivity | intros E; discriminate E].
    + contradiction Ep. reflexivity.
Qed.

(** ** The poll loop *)

Lemma with_cache_twice (c1 c2 : IMessageCache) (st : Listener) :
  with_cache c2 (with_cache c1 st) = with_cache c2 st.
Proof. reflexivity. Qed.

Lemma with_cache_same (st : Listener) : with_cache (cache st) st = st.
Proof. destruct st; reflexivity. Qed.

(** What follows the call of a poller in one turn of the loop. *)
Local Abbreviation emissions emitResults results :=
  (if emitResults then @emitAll Payload IMessageCache results
   else @ret Payload IMessageCache unit tt).

Lemma emissions_spec (emitResults : bool) (results : list (PollResult Payload))
      (st : Listener) :
  final (emissions emitResults results st) = st /\
  outcome (emissions emitResults results st) <> Pending /\
  quiet (trace (emissions emitResults results st)) /\
  pollersInvoked (trace (emissions emitResults results st)) = [] /\
  pollAfters (trace (emissions emitResults results st)) = [] /\
  (forall st2 : Listener, listeners st2 = listeners st ->
     outcome (emissions emitResults results st2) =
       outcome (emissions emitResults results st) /\
     trace (emissions emitResults results st2) =
       trace (emissions emitResults results st)).
Proof.
  destruct emitResults.
  - destruct (emitAll_spec results st) as [H1 [H2 [H3 [H4 [H5 [_ H7]]]]]].
    repeat split; try assumption; apply H7; assumption.
  - cbn. repeat split; [discriminate | constructor].
Qed.

(** One turn of the loop, when the poller returns: its results are emitted
    when the flag is set, and the loop goes on unless an emission throws. *)
Lemma pollFrom_returned (index : nat) (poller : Poller) (rest : list Poller)
      (after : Date) (emitResults : bool) (st : Listener)
      (results : list (PollResult Payload)) (c : IMessageCache) :
  poller_poll poller after (cache st) = (Returned results, c) ->
  pollFrom index (poller :: rest) after emitResults st =
  match outcome (emissions emitResults results (with_cache c st)) with
  | Returned _ =>
      (outcome (pollFrom (S index) rest after emitResults (with_cache c st)),
       final (pollFrom (S index) rest after emitResults (with_cache c st)),
       EPollerPoll index after ::
         trace (emissions emitResults results (with_cache c st))
         ++ trace (pollFrom (S index) rest after emitResults (with_cache c st)))
  | Threw error =>
      (Threw error, with_cache c st,
       EPollerPoll index after ::
         trace (emissions emitResults results (with_cache c st)))
  | Pending =>
      (Pending, with_cache c st,
       EPollerPoll index after ::
         trace (emissions emitResults results (with_cache c st)))
  end.
Proof.
  intros H. cbn [pollFrom]. unfold bind at 1. unfold callPoller. rewrite H.
  unfold bind at 1.
  destruct (emissions_spec emitResults results (with_cache c st)) as [Hf _].
  destruct (emissions emitResults results (with_cache c st)) as [[o s] t].
  cbn [outcome final trace fst snd] in *. subst s.
  destruct o as [[] | error |]; [|reflexivity..].
  destruct (pollFrom (S index) rest after emitResults (with_cache c st)) as [[o s] t'].
  reflexivity.
Qed.

(** One turn of the loop, when the poller throws: the loop is left. *)
Lemma pollFrom_threw (index : nat) (poller : Poller) (rest : list Poller)
      (after : Date) (emitResults : bool) (st : Listener)
      (error : string) (c : IMessageCache) :
  poller_poll poller after (cache st) = (Threw error, c) ->
  pollFrom index (poller :: rest) after emitResults st =
  (Threw error, with_cache c st, [EPollerPoll index after]).
Proof.
  intros H. cbn [pollFrom]. unfold bind, callPoller. rewrite H. reflexivity.
Qed.

Lemma pollFrom_pending (index : nat) (poller : Poller) (rest : list Poller)
      (after : Date) (emitResults : bool) (st : Listener) (c : IMessageCache) :
  poller_poll poller after (cache st) = (Pending, c) ->
  pollFrom index (poller :: rest) after emitResults st =
  (Pending, with_cache c st, [EPollerPoll index after]).
Proof.
  intros H. cbn [pollFrom]. unfold bind, callPoller. rewrite H. reflexivity.
Qed.

(** Case analysis on the first turn of the loop: the poller returns and so
    do the emissions, the poller returns and an emission throws, the poller
    throws, the poller does not settle. *)
Ltac first_poller poller after emitResults st :=
  let o := fresh "o" in
  let c := fresh "c" in
  let E := fresh "E" in
  let results := fresh "results" in
  let error := fresh "error" in
  let Tf := fresh "Tf" in
  let Tp := fresh "Tp" in
  let Tq := fresh "Tq" in
  let Ti := fresh "Ti" in
  let Ta := fresh "Ta" in
  let Ts := fresh "Ts" in
  let Et := fresh "Et" in
  destruct (poller_poll poller after (cache st)) as [o c] eqn:E;
  destruct o as [results | error |];
  [ rewrite (pollFrom_returned _ _ _ _ _ _ _ _ E);
    destruct (emissions_spec emitResults results (with_cache c st))
      as [Tf [Tp [Tq [Ti [Ta Ts]]]]];
    destruct (outcome (emissions emitResults results (with_cache c st)))
      as [[] | error |] eqn:Et;
    [ | | contradiction Tp; reflexivity ]
  | rewrite (pollFrom_threw _ _ _ _ _ _ _ _ E)
  | rewrite (pollFrom_pending _ _ _ _ _ _ _ E) ].

(** The loop touches nothing of the listener but the cache. *)
Lemma pollFrom_frame (ps : list Poller) :
  forall (index : nat) (after : Date) (emitResults : bool) (st : Listener),
  exists c, final (pollFrom index ps after emitResults st) = with_cache c st.
Proof.
  induction ps as [|poller rest IH]; intros index after emitResults st.
  - exists (cache st). cbn. symmetry. apply with_cache_same.
  - first_poller poller after emitResults st.
    + destruct (IH (S index) after emitResults (with_cache c st)) as [c' H].
      exists c'. cbn [final fst snd]. exact H.
    + exists c. reflexivity.
    + exists c. reflexivity.
    + exists c. reflexivity.
Qed.

Lemma poll_frame (after : Date) (emitResults : bool) (st : Listener) :
  exists c, final (poll after emitResults st) = with_cache c st.
Proof. apply pollFrom_frame. Qed.

Lemma pollFrom_quiet (ps : list Poller) :
  forall (index : nat) (after : Date) (emitResults : bool) (st : Listener),
  quiet (trace (pollFrom index ps after emitResults st)).
Proof.
  induction ps as [|poller rest IH]; intros index after emitResults st.
  - constructor.
  - first_poller poller after emitResults st; cbn [trace snd].
    + constructor; [exact I|]. apply Forall_app. split; [exact Tq | apply IH].
    + constructor; [exact I | exact Tq].
    + repeat constructor.
    + repeat constructor.
Qed.

Lemma quiet_lastCheckWrites (t : Events) : quiet t -> lastCheckWrites t = [].
Proof.
  induction 1 as [|e t He _ IH]; [reflexivity|].
  destruct e; try contradiction; exact IH.
Qed.

Lemma quiet_delays (t : Events) : quiet t -> delays t = [].
Proof.
  induction 1 as [|e t He _ IH]; [reflexivity|].
  destruct e; try contradiction; exact IH.
Qed.

Lemma quiet_writesUnderLock (t t' : Events) (held : bool) :
  quiet t -> writesUnderLock held (t ++ t') = writesUnderLock held t'.
Proof.
  induction 1 as [|e t He _ IH]; [reflexivity|].
  destruct e; try contradiction; exact IH.
Qed.

Lemma quiet_afterRelease (t t' : Events) :
  quiet t -> afterRelease (t ++ t') = afterRelease t'.
Proof.
  induction 1 as [|e t He _ IH]; [reflexivity|].
  destruct e; try contradiction; exact IH.
Qed.

(** Every call of the loop passes the same [after]. *)
Lemma pollFrom_afters (ps : list Poller) :
  forall (index : nat) (after : Date) (emitResults : bool) (st : Listener),
  Forall (eq after) (pollAfters (trace (pollFrom index ps after emitResults st))).
Proof.
  induction ps as [|poller rest IH]; intros index after emitResults st.
  - constructor.
  - first_poller poller after emitResults st; cbn [trace snd pollAfters].
    + constructor; [reflexivity|]. rewrite pollAfters_app, Ta. apply IH.
    + rewrite Ta. repeat constructor.
    + repeat constructor.
    + repeat constructor.
Qed.

(** With emission on, the sink receives the results of the pollers, in
    registry order and in the order each poller produced them: all of them
    when the loop returns, and in any case the first ones. *)
Lemma pollFrom_emits (ps : list Poller) :
  forall (index : nat) (after : Date) (st : Listener),
  exists more : list (string * Payload),
    map (fun r => (eventType r, data r)) (resultsFrom ps after (cache st)) =
      emitted (trace (pollFrom index ps after true st)) ++ more /\
    (outcome (pollFrom index ps after true st) = Returned tt -> more = []).
Proof.
  induction ps as [|poller rest IH]; intros index after st.
  - exists []. split; reflexivity.
  - cbn [resultsFrom].
    destruct (poller_poll poller after (cache st)) as [o c] eqn:E.
    destruct o as [results | error |].
    + rewrite (pollFrom_returned _ _ _ _ _ _ _ _ E).
      destruct (emitAll_spec results (with_cache c st))
        as [_ [Tp [_ [_ [_ [[more [Te Tm]] _]]]]]].
      destruct (IH (S index) after (with_cache c st)) as [more' [Ie Im]].
      cbn [cache with_cache] in Ie.
      rewrite map_app, Te, Ie.
      destruct (outcome (emitAll results (with_cache c st))) as [[] | error |] eqn:Et;
        cbn [outcome trace fst snd emitted].
      * rewrite (Tm eq_refl), app_nil_r, emitted_app.
        exists more'. rewrite <- app_assoc. split; [reflexivity | exact Im].
      * eexists. rewrite <- app_assoc. split; [reflexivity | intros H; discriminate H].
      * contradiction Tp. reflexivity.
    + rewrite (pollFrom_threw _ _ _ _ _ _ _ _ E).
      exists []. split; [reflexivity | intros H; discriminate H].
    + rewrite (pollFrom_pending _ _ _ _ _ _ _ E).
      exists []. split; [reflexivity | intros H; discriminate H].
Qed.

(** With emission off, the sink receives nothing and no subscriber is
    called. *)
Lemma pollFrom_silent (ps : list Poller) :
  forall (index : nat) (after : Date) (st : Listener),
  emitted (trace (pollFrom index ps after false st)) = [] /\
  heard (trace (pollFrom index ps after false st)) = [].
Proof.
  induction ps as [|poller rest IH]; intros index after st.
  - split; reflexivity.
  - destruct (poller_poll poller after (cache st)) as [o c] eqn:E.
    destruct o as [results | error |].
    + rewrite (pollFrom_returned _ _ _ _ _ _ _ _ E). cbn [ret outcome trace fst snd app].
      cbn [emitted heard]. apply IH.
    + rewrite (pollFrom_threw _ _ _ _ _ _ _ _ E). split; reflexivity.
    + rewrite (pollFrom_pending _ _ _ _ _ _ _ E). split; reflexivity.
Qed.

(** The positions called by the loop are consecutive from [index]: all of
    the registry when the loop returns, and otherwise the positions up to the
    poller at which the loop was left. *)
Lemma pollFrom_invoked (ps : list Poller) :
  forall (index : nat) (after : Date) (emitResults : bool) (st : Listener),
  match outcome (pollFrom index ps after emitResults st) with
  | Returned _ =>
      pollersInvoked (trace (pollFrom index ps after emitResults st)) =
      seq index (List.length ps)
  | _ =>
      exists k, (k < List.length ps)%nat /\
        pollersInvoked (trace (pollFrom index ps after emitResults st)) =
        seq index (S k)
  end.
Proof.
  induction ps as [|poller rest IH]; intros index after emitResults st.
  - reflexivity.
  - first_poller poller after emitResults st; cbn [outcome trace fst snd pollersInvoked].
    + specialize (IH (S index) after emitResults (with_cache c st)).
      rewrite pollersInvoked_app, Ti. cbn [app].
      destruct (outcome (pollFrom (S index) rest after emitResults (with_cache c st))).
      * cbn [length seq]. rewrite IH. reflexivity.
      * destruct IH as [k [Hk IH]]. exists (S k). split; [cbn; lia|].
        rewrite IH. reflexivity.
      * destruct IH as [k [Hk IH]]. exists (S k). split; [cbn; lia|].
        rewrite IH. reflexivity.
    + exists 0%nat. split; [cbn; lia|]. rewrite Ti. reflexivity.
    + exists 0%nat. split; [cbn; lia | reflexivity].
    + exists 0%nat. split; [cbn; lia | reflexivity].
Qed.

(** The loop over [ps1 ++ ps2] is the loop over [ps1] followed, when that
    returns, by the loop over [ps2]. *)
Lemma pollFrom_app (ps1 ps2 : list Poller) :
  forall (index : nat) (after : Date) (emitResults : bool) (st : Listener),
  outcome (pollFrom index ps1 after emitResults st) = Returned tt ->
  pollFrom index (ps1 ++ ps2) after emitResults st =
  (outcome (pollFrom (index + List.length ps1) ps2 after emitResults
              (final (pollFrom index ps1 after emitResults st))),
   final (pollFrom (index + List.length ps1) ps2 after emitResults
            (final (pollFrom index ps1 after emitResults st))),
   trace (pollFrom index ps1 after emitResults st) ++
   trace (pollFrom (index + List.length ps1) ps2 after emitResults
            (final (pollFrom index ps1 after emitResults st)))).
Proof.
  induction ps1 as [|poller rest IH]; intros index after emitResults st H.
  - cbn. rewrite Nat.add_0_r.
    destruct (pollFrom index ps2 after emitResults st) as [[o s] t]. reflexivity.
  - cbn [app List.length]. revert H.
    destruct (poller_poll poller after (cache st)) as [o c] eqn:E.
    destruct o as [results | error |].
    + rewrite (pollFrom_returned _ _ rest _ _ _ _ _ E),
        (pollFrom_returned _ _ (rest ++ ps2) _ _ _ _ _ E).
      destruct (outcome (emissions emitResults results (with_cache c st)))
        as [[] | error |]; cbn [outcome final trace fst snd]; [|discriminate..].
      intros H. rewrite (IH _ _ _ _ H). cbn [outcome final trace fst snd].
      rewrite Nat.add_succ_r. cbn [Nat.add app].
      rewrite <- !app_assoc. reflexivity.
    + rewrite (pollFrom_threw _ _ rest _ _ _ _ _ E). discriminate.
    + rewrite (pollFrom_pending _ _ rest _ _ _ _ E). discriminate.
Qed.

(** ** The body of [handleChangeEvent], case by case *)

Lemma gtb_false (x y : Z) : x <= y -> (x >? y) = false.
Proof. intros H. rewrite Z.gtb_ltb. apply Z.ltb_ge. exact H. Qed.

Lemma gtb_true (x y : Z) : x > y -> (x >? y) = true.
Proof. intros H. rewrite Z.gtb_ltb. apply Z.ltb_lt. lia. Qed.

(** A stale change: the body is the release alone. *)
Lemma handleChangeEvent_locked_stale (event : FileChangeEvent) (arrivals : nat)
      (st : Listener) :
  mtimeMs (currentStat event) <= lastCheck st ->
  handleChangeEvent_locked trimCaches event arrivals st = release st.
Proof.
  intros H. unfold handleChangeEvent_locked, bind, getLastCheck.
  rewrite (gtb_false _ _ H). cbn.
  destruct (release st) as [[o s] t]. reflexivity.
Qed.

(** A fresh change: the assignment, the poll and, when the poll returns, the
    trim, the delay under contention and the release. *)
Lemma handleChangeEvent_locked_fresh (event : FileChangeEvent) (arrivals : nat)
      (st : Listener) :
  mtimeMs (currentStat event) > lastCheck st ->
  handleChangeEvent_locked trimCaches event arrivals st =
  let r := poll (mtimeMs (prevStat event) - 30000) true
             (with_lastCheck (mtimeMs (currentStat event)) st) in
  match outcome r with
  | Returned _ =>
      (Returned tt,
       final (release (afterPoll trimCaches arrivals (final r))),
       ESetLastCheck (mtimeMs (currentStat event)) :: trace r ++
       ETrimCaches ::
       (if (0 <? waiting (processLock (final r)) + arrivals)%nat
        then [EWaitMs 100] else []) ++ [ERelease])
  | Threw error =>
      (Threw error, final r, ESetLastCheck (mtimeMs (currentStat event)) :: trace r)
  | Pending =>
      (Pending, final r, ESetLastCheck (mtimeMs (currentStat event)) :: trace r)
  end.
Proof.
  intros H. unfold handleChangeEvent_locked, bind at 1, getLastCheck.
  rewrite (gtb_true _ _ H). cbn zeta.
  unfold bind at 1. unfold bind at 1. unfold setLastCheck at 1.
  unfold bind at 1.
  destruct (poll (mtimeMs (prevStat event) - 30000) true
              (with_lastCheck (mtimeMs (currentStat event)) st)) as [[o st2] t2].
  destruct o as [[] | error |]; cbn [outcome final trace fst snd app];
    [|reflexivity..].
  unfold bind, othersArrive, cacheTrimCaches, getNrWaiting, nrWaiting, afterPoll.
  cbn [processLock with_processLock with_cache waiting free cache app].
  unfold waitMs, ret, release.
  destruct (waiting (processLock st2) + arrivals)%nat as [|n];
    cbn [Nat.ltb Nat.leb processLock with_processLock with_cache waiting free
         cache app fst snd final];
    rewrite <- ?app_assoc; reflexivity.
Qed.

(** A poller that throws ends the loop: the pollers before it were called,
    the ones after it are not, and the exception is the outcome of [poll]. *)
Lemma poll_stops_at_throw (ps1 ps2 : list Poller) (poller : Poller)
      (after : Date) (emitResults : bool) (st : Listener) (error : string) :
  pollers st = ps1 ++ poller :: ps2 ->
  outcome (pollFrom 0 ps1 after emitResults st) = Returned tt ->
  fst (poller_poll poller after
         (cache (final (pollFrom 0 ps1 after emitResults st)))) = Threw error ->
  outcome (poll after emitResults st) = Threw error /\
  pollersInvoked (trace (poll after emitResults st)) = seq 0 (S (List.length ps1)).
Proof.
  intros Hps H1 Hthrow. unfold poll. rewrite Hps.
  rewrite (pollFrom_app _ _ _ _ _ _ H1). cbn [Nat.add].
  destruct (poller_poll poller after
              (cache (final (pollFrom 0 ps1 after emitResults st))))
    as [o c] eqn:E.
  cbn [fst] in Hthrow. subst o.
  rewrite (pollFrom_threw _ _ _ _ _ _ _ _ E).
  cbn [outcome trace fst snd]. split; [reflexivity|].
  rewrite pollersInvoked_app. cbn [pollersInvoked].
  pose proof (pollFrom_invoked ps1 0 after emitResults st) as Hinv.
  rewrite H1 in Hinv. rewrite Hinv, seq_S. reflexivity.
Qed.

(** When [poll] returns, every poller of the registry was called, once and
    in registry order. *)
Lemma poll_returned_calls_all (after : Date) (emitResults : bool) (st : Listener) :
  outcome (poll after emitResults st) = Returned tt ->
  pollersInvoked (trace (poll after emitResults st)) =
  seq 0 (List.length (pollers st)).
Proof.
  intros H. unfold poll in *.
  pose proof (pollFrom_invoked (pollers st) 0 after emitResults st) as Hinv.
  rewrite H in Hinv. exact Hinv.
Qed.

Lemma release_lastCheck (st : Listener) :
  lastCheck (final (release st)) = lastCheck st.
Proof. unfold release. destruct (waiting (processLock st)); reflexivity. Qed.

Lemma release_cache (st : Listener) : cache (final (release st)) = cache st.
Proof. unfold release. destruct (waiting (processLock st)); reflexivity. Qed.

Lemma release_trace (st : Listener) : trace (release st) = [ERelease].
Proof. unfold release. destruct (waiting (processLock st)); reflexivity. Qed.

Lemma poll_lastCheck (after : Date) (emitResults : bool) (st : Listener) :
  lastCheck (final (poll after emitResults st)) = lastCheck st.
Proof.
  destruct (poll_frame after emitResults st) as [c H]. rewrite H. reflexivity.
Qed.

Lemma poll_processLock (after : Date) (emitResults : bool) (st : Listener) :
  processLock (final (poll after emitResults st)) = processLock st.
Proof.
  destruct (poll_frame after emitResults st) as [c H]. rewrite H. reflexivity.
Qed.

(** What is left of [handleChangeEvent] when the token is free. *)
Lemma handleChangeEvent_acquires (event : FileChangeEvent) (arrivals : nat)
      (st : Listener) (n : nat) :
  free (processLock st) = S n ->
  handleChangeEvent trimCaches event arrivals st =
  (outcome (handleChangeEvent_locked trimCaches event arrivals
              (with_processLock {| free := n; waiting := waiting (processLock st) |} st)),
   final (handleChangeEvent_locked trimCaches event arrivals
            (with_processLock {| free := n; waiting := waiting (processLock st) |} st)),
   EAcquire :: trace (handleChangeEvent_locked trimCaches event arrivals
            (with_processLock {| free := n; waiting := waiting (processLock st) |} st))).
Proof.
  intros H. unfold handleChangeEvent, bind, acquire. rewrite H.
  destruct (handleChangeEvent_locked trimCaches event arrivals
              (with_processLock {| free := n; waiting := waiting (processLock st) |} st))
    as [[o s] t].
  reflexivity.
Qed.

(** And when it is taken: the caller is parked, and nothing else happens. *)
Lemma handleChangeEvent_parks (event : FileChangeEvent) (arrivals : nat)
      (st : Listener) :
  free (processLock st) = 0%nat ->
  handleChangeEvent trimCaches event arrivals st =
  (Pending,
   with_processLock {| free := 0; waiting := S (waiting (processLock st)) |} st,
   [EEnqueue]).
Proof.
  intros H. unfold handleChangeEvent, bind, acquire. rewrite H. reflexivity.
Qed.

(** ** The claims about [handleChangeEvent] and [poll] *)

(** C3. A change event whose [currentStat.mtimeMs] is at most [lastCheck]
    runs no poll and leaves [lastCheck] as it is: for the whole of
    [handleChangeEvent], whether the caller gets the token or is parked, and
    for the part that runs once the token is held. *)
Theorem stale_change_event_runs_no_poll (event : FileChangeEvent)
        (arrivals : nat) (st : Listener) :
  mtimeMs (currentStat event) <= lastCheck st ->
  pollersInvoked (trace (handleChangeEvent trimCaches event arrivals st)) = [] /\
  lastCheck (final (handleChangeEvent trimCaches event arrivals st)) = lastCheck st /\
  pollersInvoked (trace (handleChangeEvent_locked trimCaches event arrivals st)) = [] /\
  lastCheck (final (handleChangeEvent_locked trimCaches event arrivals st)) = lastCheck st.
Proof.
  intros H.
  assert (Hlocked : forall st' : Listener, lastCheck st' = lastCheck st ->
            pollersInvoked (trace (handleChangeEvent_locked trimCaches event arrivals st')) = [] /\
            lastCheck (final (handleChangeEvent_locked trimCaches event arrivals st')) = lastCheck st).
  { intros st' Hst'. rewrite handleChangeEvent_locked_stale by (rewrite Hst'; exact H).
    rewrite release_trace, release_lastCheck. split; [reflexivity | exact Hst']. }
  split; [|split]; [| |apply Hlocked; reflexivity].
  - destruct (free (processLock st)) as [|n] eqn:Hfree.
    + rewrite handleChangeEvent_parks by exact Hfree. reflexivity.
    + rewrite (handleChangeEvent_acquires _ _ _ _ Hfree). cbn [trace snd pollersInvoked].
      apply Hlocked. reflexivity.
  - destruct (free (processLock st)) as [|n] eqn:Hfree.
    + rewrite handleChangeEvent_parks by exact Hfree. reflexivity.
    + rewrite (handleChangeEvent_acquires _ _ _ _ Hfree). cbn [final fst snd].
      apply Hlocked. reflexivity.
Qed.

Lemma poll_quiet (after : Date) (emitResults : bool) (st : Listener) :
  quiet (trace (poll after emitResults st)).
Proof. apply pollFrom_quiet. Qed.

Lemma quiet_alone (t : Events) (held : bool) :
  quiet t -> writesUnderLock held t = true.
Proof.
  intros H. rewrite <- (app_nil_r t). rewrite quiet_writesUnderLock by exact H.
  reflexivity.
Qed.

(** C1, as the code has it. For a change event whose [currentStat.mtimeMs]
    is above [lastCheck], the body of [handleChangeEvent] first assigns
    [currentStat.mtimeMs] to [lastCheck], its only assignment, then runs
    [poll] with emission on and [prevStat.mtimeMs - 30000] as [after]: what
    it emits are the results of the pollers, in order, all of them when the
    poll returns and the first of them when the poll is left early. When
    that poll returns, it trims the caches next without calling a poller
    again. *)
Theorem fresh_change_event_sets_lastCheck_then_polls (event : FileChangeEvent)
        (arrivals : nat) (st : Listener) :
  mtimeMs (currentStat event) > lastCheck st ->
  exists rest,
    trace (handleChangeEvent_locked trimCaches event arrivals st) =
      ESetLastCheck (mtimeMs (currentStat event)) ::
      trace (poll (mtimeMs (prevStat event) - 30000) true
               (with_lastCheck (mtimeMs (currentStat event)) st)) ++ rest /\
    lastCheckWrites (trace (handleChangeEvent_locked trimCaches event arrivals st)) =
      [mtimeMs (currentStat event)] /\
    lastCheck (final (handleChangeEvent_locked trimCaches event arrivals st)) =
      mtimeMs (currentStat event) /\
    Forall (eq (mtimeMs (prevStat event) - 30000))
      (pollAfters (trace (handleChangeEvent_locked trimCaches event arrivals st))) /\
    (exists more : list (string * Payload),
       map (fun r => (eventType r, data r))
         (resultsFrom (pollers st) (mtimeMs (prevStat event) - 30000) (cache st)) =
       emitted (trace (handleChangeEvent_locked trimCaches event arrivals st)) ++ more /\
       (outcome (poll (mtimeMs (prevStat event) - 30000) true
                   (with_lastCheck (mtimeMs (currentStat event)) st)) = Returned tt ->
        more = [])) /\
    (outcome (poll (mtimeMs (prevStat event) - 30000) true
                (with_lastCheck (mtimeMs (currentStat event)) st)) = Returned tt ->
     exists tail,
       rest = ETrimCaches :: tail /\
       pollersInvoked tail = [] /\
       cache (final (handleChangeEvent_locked trimCaches event arrivals st)) =
         trimCaches (cache (final (poll (mtimeMs (prevStat event) - 30000) true
                              (with_lastCheck (mtimeMs (currentStat event)) st))))).
Proof.
  intros H. rewrite (handleChangeEvent_locked_fresh _ _ _ H). cbn zeta.
  set (cur := mtimeMs (currentStat event)).
  set (after := mtimeMs (prevStat event) - 30000).
  set (r := poll after true (with_lastCheck cur st)).
  assert (Hw : lastCheckWrites (trace r) = [])
    by (apply quiet_lastCheckWrites, poll_quiet).
  assert (Ha : Forall (eq after) (pollAfters (trace r)))
    by (apply pollFrom_afters).
  assert (He : exists more : list (string * Payload),
             map (fun x => (eventType x, data x)) (resultsFrom (pollers st) after (cache st))
             = emitted (trace r) ++ more /\
             (outcome r = Returned tt -> more = []))
    by (exact (pollFrom_emits (pollers st) 0 after (with_lastCheck cur st))).
  assert (Hl : lastCheck (final r) = cur)
    by (exact (poll_lastCheck after true (with_lastCheck cur st))).
  destruct He as [more [He Hm]].
  destruct (outcome r) as [[] | error |] eqn:Ho.
  - exists (ETrimCaches ::
            (if (0 <? waiting (processLock (final r)) + arrivals)%nat
             then [EWaitMs 100] else []) ++ [ERelease]).
    cbn [trace final outcome fst snd lastCheckWrites pollAfters emitted].
    rewrite lastCheckWrites_app, pollAfters_app, emitted_app, Hw.
    rewrite release_lastCheck, release_cache.
    split; [reflexivity|].
    split; [destruct (0 <? waiting (processLock (final r)) + arrivals)%nat; reflexivity|].
    split; [exact Hl|].
    split; [destruct (0 <? waiting (processLock (final r)) + arrivals)%nat; cbn;
            rewrite app_nil_r; exact Ha|].
    split.
    + exists more. split; [|exact Hm].
      destruct (0 <? waiting (processLock (final r)) + arrivals)%nat; cbn;
        rewrite app_nil_r; exact He.
    + intros _. eexists. split; [reflexivity|]. split; [|reflexivity].
      destruct (0 <? waiting (processLock (final r)) + arrivals)%nat; reflexivity.
  - exists []. cbn [trace final outcome fst snd lastCheckWrites pollAfters emitted].
    rewrite app_nil_r, Hw.
    split; [reflexivity|]. split; [reflexivity|]. split; [exact Hl|].
    split; [exact Ha|]. split; [exists more; split; [exact He | exact Hm]|]. discriminate.
  - exists []. cbn [trace final outcome fst snd lastCheckWrites pollAfters emitted].
    rewrite app_nil_r, Hw.
    split; [reflexivity|]. split; [reflexivity|]. split; [exact Hl|].
    split; [exact Ha|]. split; [exists more; split; [exact He | exact Hm]|]. discriminate.
Qed.

(** C2, as the code has it. In the body of [handleChangeEvent] for a fresh
    change, a poller that throws is not caught by the loop of [poll]: the
    pollers before it have been called, none after it is, and its exception
    is the outcome of the handler. When the poll returns, which takes every
    call of a poller and every emission to return, every poller of the
    registry has been called in registry order, and the release of the lock
    is the last effect of the handler. *)
Theorem poller_exception_leaves_the_poll_loop (event : FileChangeEvent)
        (arrivals : nat) (st : Listener) :
  mtimeMs (currentStat event) > lastCheck st ->
  (forall (ps1 ps2 : list Poller) (poller : Poller) (error : string),
     pollers st = ps1 ++ poller :: ps2 ->
     outcome (pollFrom 0 ps1 (mtimeMs (prevStat event) - 30000) true
                (with_lastCheck (mtimeMs (currentStat event)) st)) = Returned tt ->
     fst (poller_poll poller (mtimeMs (prevStat event) - 30000)
            (cache (final (pollFrom 0 ps1 (mtimeMs (prevStat event) - 30000) true
                             (with_lastCheck (mtimeMs (currentStat event)) st)))))
       = Threw error ->
     outcome (handleChangeEvent_locked trimCaches event arrivals st) = Threw error /\
     pollersInvoked (trace (handleChangeEvent_locked trimCaches event arrivals st)) =
       seq 0 (S (List.length ps1))) /\
  (outcome (poll (mtimeMs (prevStat event) - 30000) true
              (with_lastCheck (mtimeMs (currentStat event)) st)) = Returned tt ->
   outcome (handleChangeEvent_locked trimCaches event arrivals st) = Returned tt /\
   pollersInvoked (trace (handleChangeEvent_locked trimCaches event arrivals st)) =
     seq 0 (List.length (pollers st)) /\
   exists before,
     trace (handleChangeEvent_locked trimCaches event arrivals st) = before ++ [ERelease]).
Proof.
  intros H. rewrite (handleChangeEvent_locked_fresh _ _ _ H). cbn zeta.
  set (cur := mtimeMs (currentStat event)).
  set (after := mtimeMs (prevStat event) - 30000).
  split.
  - intros ps1 ps2 poller error Hps H1 Hthrow.
    destruct (poll_stops_at_throw ps1 ps2 poller after true
                (with_lastCheck cur st) error Hps H1 Hthrow) as [Ho Hi].
    rewrite Ho. cbn [outcome trace fst snd pollersInvoked]. split; [reflexivity|].
    exact Hi.
  - intros Ho. rewrite Ho. cbn [outcome trace fst snd pollersInvoked].
    split; [reflexivity|]. split.
    + rewrite pollersInvoked_app, (poll_returned_calls_all _ _ _ Ho).
      destruct (0 <? _)%nat; cbn; rewrite app_nil_r; reflexivity.
    + exists (ESetLastCheck cur :: trace (poll after true (with_lastCheck cur st)) ++
              ETrimCaches ::
              (if (0 <? waiting (processLock (final (poll after true (with_lastCheck cur st))))
                        + arrivals)%nat
               then [EWaitMs 100] else [])).
      cbn [app]. rewrite <- app_assoc. reflexivity.
Qed.

(** C8, as the code has it. In a cycle whose poll has returned, the handler
    waits 100 ms when a caller is parked on the lock, and it does so after
    trimming the caches and before releasing the lock: the release is the
    last effect, it hands the token to a parked caller, and nothing follows
    it. Without a parked caller the cycle has no delay. *)
Theorem settle_delay_precedes_release (event : FileChangeEvent)
        (arrivals : nat) (st : Listener) :
  mtimeMs (currentStat event) > lastCheck st ->
  outcome (poll (mtimeMs (prevStat event) - 30000) true
             (with_lastCheck (mtimeMs (currentStat event)) st)) = Returned tt ->
  afterRelease (trace (handleChangeEvent_locked trimCaches event arrivals st)) = [] /\
  ((0 < waiting (processLock st) + arrivals)%nat ->
     trace (handleChangeEvent_locked trimCaches event arrivals st) =
       (ESetLastCheck (mtimeMs (currentStat event)) ::
        trace (poll (mtimeMs (prevStat event) - 30000) true
                 (with_lastCheck (mtimeMs (currentStat event)) st)))
       ++ [ETrimCaches; EWaitMs 100; ERelease] /\
     delays (trace (handleChangeEvent_locked trimCaches event arrivals st)) = [100] /\
     processLock (final (handleChangeEvent_locked trimCaches event arrivals st)) =
       {| free := free (processLock st);
          waiting := Nat.pred (waiting (processLock st) + arrivals) |}) /\
  ((waiting (processLock st) + arrivals = 0)%nat ->
     trace (handleChangeEvent_locked trimCaches event arrivals st) =
       (ESetLastCheck (mtimeMs (currentStat event)) ::
        trace (poll (mtimeMs (prevStat event) - 30000) true
                 (with_lastCheck (mtimeMs (currentStat event)) st)))
       ++ [ETrimCaches; ERelease] /\
     delays (trace (handleChangeEvent_locked trimCaches event arrivals st)) = []).
Proof.
  intros H Ho. rewrite (handleChangeEvent_locked_fresh _ _ _ H). cbn zeta.
  set (cur := mtimeMs (currentStat event)) in *.
  set (after := mtimeMs (prevStat event) - 30000) in *.
  rewrite Ho. cbn [trace final fst snd].
  pose proof (poll_quiet after true (with_lastCheck cur st)) as Hq.
  pose proof (poll_processLock after true (with_lastCheck cur st)) as Hp.
  cbn [processLock with_lastCheck] in Hp. rewrite Hp.
  split; [|split].
  - cbn [afterRelease]. rewrite quiet_afterRelease by exact Hq.
    destruct (0 <? _)%nat; reflexivity.
  - intros Hc.
    destruct (waiting (processLock st) + arrivals)%nat as [|n] eqn:Hn; [lia|].
    cbn [Nat.ltb Nat.leb app delays]. split; [reflexivity|]. split.
    + rewrite delays_app, (quiet_delays _ Hq). reflexivity.
    + unfold release, afterPoll.
      cbn [processLock with_processLock with_cache waiting free].
      rewrite Hp, Hn. reflexivity.
  - intros Hc. rewrite Hc. cbn [Nat.ltb Nat.leb app delays]. split; [reflexivity|].
    rewrite delays_app, (quiet_delays _ Hq). reflexivity.
Qed.

(** ** [getEarliestModifiedDate] and [start] *)

Lemma earlier_is_min (m earliest : Z) :
  (if m <? earliest then m else earliest) = Z.min earliest m.
Proof. destruct (Z.ltb_spec m earliest); lia. Qed.

(** The loop over the paths leaves the listener alone and only reads the
    disk; what it returns is no later than what it started from. *)
Lemma earliestFrom_frame (fs : string -> option Stats) (paths : list string) :
  forall (earliest : Date) (st : Listener),
  final (earliestFrom fs paths earliest st) = st /\
  quiet (trace (earliestFrom fs paths earliest st)) /\
  outcome (earliestFrom fs paths earliest st) <> Pending /\
  (forall d, outcome (earliestFrom fs paths earliest st) = Returned d -> d <= earliest).
Proof.
  induction paths as [|path rest IH]; intros earliest st.
  - cbn. repeat split; [constructor | discriminate |].
    intros d Hd. injection Hd as <-. lia.
  - cbn [earliestFrom]. unfold bind, statSync.
    destruct (fs path) as [stat|].
    + specialize (IH (if mtime stat <? earliest then mtime stat else earliest) st).
      destruct (earliestFrom fs rest _ st) as [[o s] t].
      cbn [final outcome trace fst snd] in *.
      destruct IH as [Hf [Hq [Hp Hd]]].
      repeat split; [exact Hf | constructor; [exact I | exact Hq] | exact Hp |].
      intros d Ho. specialize (Hd d Ho). rewrite earlier_is_min in Hd. lia.
    + cbn. repeat split; [repeat constructor | discriminate | discriminate].
Qed.

(** When every path can be read, the loop returns the minimum. *)
Lemma earliestFrom_returns (fs : string -> option Stats) (paths : list string) :
  forall (stats : list Stats) (earliest : Date) (st : Listener),
  map fs paths = map Some stats ->
  earliestFrom fs paths earliest st =
  (Returned (earliestOf earliest stats), st, map EStat paths).
Proof.
  induction paths as [|path rest IH]; intros stats earliest st H.
  - destruct stats; [reflexivity | discriminate].
  - destruct stats as [|stat stats]; [discriminate|].
    cbn [map] in H. injection H as H1 H2.
    cbn [earliestFrom]. unfold bind, statSync. rewrite H1.
    rewrite (IH stats _ st H2). cbn. rewrite earlier_is_min. reflexivity.
Qed.

(** A minimum of a start value and a list: below the start value, below
    every element, and one of them. *)
Lemma fold_min_spec (l : list Z) :
  forall start : Z,
  fold_left Z.min l start <= start /\
  Forall (fun x => fold_left Z.min l start <= x) l /\
  In (fold_left Z.min l start) (start :: l).
Proof.
  induction l as [|x l IH]; intros start.
  - cbn. repeat split; [lia | constructor | left; reflexivity].
  - cbn [fold_left]. destruct (IH (Z.min start x)) as [H1 [H2 H3]].
    repeat split.
    + lia.
    + constructor; [lia | exact H2].
    + destruct H3 as [H3 | H3].
      * destruct (Z.min_spec start x) as [[_ Hm] | [_ Hm]].
        -- left. lia.
        -- right. left. lia.
      * right. right. exact H3.
Qed.

(** The listener as the first two statements of [start] leave it. *)
Lemma start_cases (now : Date) (fs : string -> option Stats) (st : Listener) :
  start now fs st =
  match outcome (getEarliestModifiedDate now fs (with_stopped false (with_lastCheck 0 st))) with
  | Returned d =>
      match outcome (poll (d - 60000) false (with_stopped false (with_lastCheck 0 st))) with
      | Returned _ =>
          (Returned tt,
           with_watcher
             (Some {| watchedPaths := filePaths st;
                      handlers := ["change"; "error"]%string;
                      running := true |})
             (final (poll (d - 60000) false (with_stopped false (with_lastCheck 0 st)))),
           ESetLastCheck 0 :: ESetStopped false ::
           trace (getEarliestModifiedDate now fs (with_stopped false (with_lastCheck 0 st))) ++
           trace (poll (d - 60000) false (with_stopped false (with_lastCheck 0 st))) ++
           [EWatcherNew; EWatcherOn "change"; EWatcherOn "error"; EWatcherStart])
      | Threw error =>
          (Threw error,
           final (poll (d - 60000) false (with_stopped false (with_lastCheck 0 st))),
           ESetLastCheck 0 :: ESetStopped false ::
           trace (getEarliestModifiedDate now fs (with_stopped false (with_lastCheck 0 st))) ++
           trace (poll (d - 60000) false (with_stopped false (with_lastCheck 0 st))))
      | Pending =>
          (Pending,
           final (poll (d - 60000) false (with_stopped false (with_lastCheck 0 st))),
           ESetLastCheck 0 :: ESetStopped false ::
           trace (getEarliestModifiedDate now fs (with_stopped false (with_lastCheck 0 st))) ++
           trace (poll (d - 60000) false (with_stopped false (with_lastCheck 0 st))))
      end
  | Threw error =>
      (Threw error, with_stopped false (with_lastCheck 0 st),
       ESetLastCheck 0 :: ESetStopped false ::
       trace (getEarliestModifiedDate now fs (with_stopped false (with_lastCheck 0 st))))
  | Pending =>
      (Pending, with_stopped false (with_lastCheck 0 st),
       ESetLastCheck 0 :: ESetStopped false ::
       trace (getEarliestModifiedDate now fs (with_stopped false (with_lastCheck 0 st))))
  end.
Proof.
  set (st1 := with_stopped false (with_lastCheck 0 st)).
  unfold start. unfold bind at 1. unfold setLastCheck at 1.
  unfold bind at 1. unfold setStopped at 1. fold st1.
  unfold bind at 1.
  pose proof (earliestFrom_frame fs (filePaths st1) now st1) as [Hf _].
  fold (getEarliestModifiedDate now fs st1) in Hf.
  destruct (getEarliestModifiedDate now fs st1) as [[o s] t].
  cbn [final fst snd] in Hf. subst s.
  destruct o as [d | error |]; cbn [outcome trace fst snd app]; [|reflexivity..].
  unfold bind at 1.
  destruct (poll_frame (d - 60000) false st1) as [c Hc].
  destruct (poll (d - 60000) false st1) as [[o s] t2].
  cbn [final fst snd] in Hc. subst s.
  destruct o as [[] | error |]; cbn [outcome final trace fst snd app];
    rewrite ?app_nil_r; [|reflexivity..].
  unfold bind, watcherNew, watcherOn, watcherStart.
  cbn. rewrite ?app_nil_r. reflexivity.
Qed.

Lemma quiet_writesBeforeWatcherStart (t t' : Events) :
  quiet t -> writesBeforeWatcherStart (t ++ t') = writesBeforeWatcherStart t'.
Proof.
  induction 1 as [|e t He _ IH]; [reflexivity|].
  destruct e; try contradiction; exact IH.
Qed.

Lemma quiet_app (t t' : Events) : quiet t -> quiet t' -> quiet (t ++ t').
Proof. intros H H'. apply Forall_app. split; assumption. Qed.

Lemma stats_trace (paths : list string) :
  pollAfters (map (@EStat Payload) paths) = [] /\
  pollersInvoked (map (@EStat Payload) paths) = [] /\
  emitted (map (@EStat Payload) paths) = [] /\
  lastCheckWrites (map (@EStat Payload) paths) = [].
Proof.
  induction paths as [|path rest IH]; [repeat split | exact IH].
Qed.

Lemma getEarliestModifiedDate_quiet (now : Date) (fs : string -> option Stats)
      (st : Listener) :
  quiet (trace (getEarliestModifiedDate now fs st)).
Proof. apply (earliestFrom_frame fs (filePaths st) now st). Qed.

(** What the body of [handleChangeEvent] does to [lastCheck]. *)
Lemma handleChangeEvent_locked_lastCheck (event : FileChangeEvent)
      (arrivals : nat) (st : Listener) :
  lastCheck (final (handleChangeEvent_locked trimCaches event arrivals st)) =
  Z.max (lastCheck st) (mtimeMs (currentStat event)) /\
  lastCheckWrites (trace (handleChangeEvent_locked trimCaches event arrivals st)) =
  (if mtimeMs (currentStat event) >? lastCheck st
   then [mtimeMs (currentStat event)] else []) /\
  writesUnderLock true (trace (handleChangeEvent_locked trimCaches event arrivals st)) = true.
Proof.
  destruct (Z.gtb_spec (mtimeMs (currentStat event)) (lastCheck st)) as [H | H].
  - rewrite handleChangeEvent_locked_fresh by lia. cbn zeta.
    set (cur := mtimeMs (currentStat event)) in *.
    set (r := poll (mtimeMs (prevStat event) - 30000) true (with_lastCheck cur st)).
    pose proof (poll_quiet (mtimeMs (prevStat event) - 30000) true
                  (with_lastCheck cur st)) as Hq. fold r in Hq.
    pose proof (poll_lastCheck (mtimeMs (prevStat event) - 30000) true
                  (with_lastCheck cur st)) as Hl. fold r in Hl.
    cbn [lastCheck with_lastCheck] in Hl.
    destruct (outcome r) as [[] | error |];
      cbn [final trace fst snd lastCheckWrites writesUnderLock andb].
    + rewrite release_lastCheck. cbn [afterPoll lastCheck with_cache with_processLock].
      rewrite Hl, lastCheckWrites_app, (quiet_lastCheckWrites _ Hq).
      rewrite (quiet_writesUnderLock _ _ _ Hq).
      destruct (0 <? _)%nat; cbn; repeat split; lia.
    + rewrite Hl, (quiet_lastCheckWrites _ Hq), (quiet_alone _ _ Hq).
      repeat split; lia.
    + rewrite Hl, (quiet_lastCheckWrites _ Hq), (quiet_alone _ _ Hq).
      repeat split; lia.
  - rewrite handleChangeEvent_locked_stale by lia.
    rewrite release_lastCheck, release_trace. cbn. repeat split; lia.
Qed.

(** What [start] does to [lastCheck]. *)
Lemma start_lastCheck (now : Date) (fs : string -> option Stats) (st : Listener) :
  lastCheck (final (start now fs st)) = 0 /\
  lastCheckWrites (trace (start now fs st)) = [0] /\
  writesBeforeWatcherStart (trace (start now fs st)) = true.
Proof.
  rewrite start_cases.
  set (st1 := with_stopped false (with_lastCheck 0 st)).
  pose proof (getEarliestModifiedDate_quiet now fs st1) as Hq.
  destruct (outcome (getEarliestModifiedDate now fs st1)) as [d | error |].
  - pose proof (poll_quiet (d - 60000) false st1) as Hp.
    pose proof (poll_lastCheck (d - 60000) false st1) as Hl.
    destruct (outcome (poll (d - 60000) false st1)) as [[] | error |];
      cbn [final trace fst snd lastCheckWrites writesBeforeWatcherStart
           lastCheck with_watcher];
      rewrite Hl.
    + rewrite !lastCheckWrites_app, (quiet_lastCheckWrites _ Hq),
        (quiet_lastCheckWrites _ Hp).
      rewrite !quiet_writesBeforeWatcherStart by assumption.
      repeat split.
    + rewrite <- (app_nil_r (trace (poll (d - 60000) false st1))).
      rewrite !lastCheckWrites_app, (quiet_lastCheckWrites _ Hq),
        (quiet_lastCheckWrites _ Hp).
      rewrite !quiet_writesBeforeWatcherStart by assumption.
      repeat split.
    + rewrite <- (app_nil_r (trace (poll (d - 60000) false st1))).
      rewrite !lastCheckWrites_app, (quiet_lastCheckWrites _ Hq),
        (quiet_lastCheckWrites _ Hp).
      rewrite !quiet_writesBeforeWatcherStart by assumption.
      repeat split.
  - cbn [final trace fst snd lastCheckWrites writesBeforeWatcherStart].
    rewrite (quiet_lastCheckWrites _ Hq).
    rewrite <- (app_nil_r (trace _)), quiet_writesBeforeWatcherStart by assumption.
    repeat split.
  - cbn [final trace fst snd lastCheckWrites writesBeforeWatcherStart].
    rewrite (quiet_lastCheckWrites _ Hq).
    rewrite <- (app_nil_r (trace _)), quiet_writesBeforeWatcherStart by assumption.
    repeat split.
Qed.

(** What [handleChangeEvent] as a whole does to [lastCheck]. *)
Lemma handleChangeEvent_lastCheck (event : FileChangeEvent)
      (arrivals : nat) (st : Listener) :
  lastCheck st <= lastCheck (final (handleChangeEvent trimCaches event arrivals st)) /\
  (lastCheckWrites (trace (handleChangeEvent trimCaches event arrivals st)) = [] ->
   lastCheck (final (handleChangeEvent trimCaches event arrivals st)) = lastCheck st) /\
  writesUnderLock false (trace (handleChangeEvent trimCaches event arrivals st)) = true.
Proof.
  destruct (free (processLock st)) as [|n] eqn:Hfree.
  - rewrite handleChangeEvent_parks by exact Hfree. cbn. repeat split; lia.
  - rewrite (handleChangeEvent_acquires _ _ _ _ Hfree).
    cbn [final trace fst snd lastCheckWrites writesUnderLock].
    destruct (handleChangeEvent_locked_lastCheck event arrivals
                (with_processLock {| free := n; waiting := waiting (processLock st) |} st))
      as [Hl [Hw Hd]].
    cbn [lastCheck with_processLock] in Hl, Hw.
    rewrite Hl, Hw, Hd. repeat split; [lia|].
    destruct (Z.gtb_spec (mtimeMs (currentStat event)) (lastCheck st));
      [discriminate | lia].
Qed.

(** C7. [lastCheck] is assigned under a discipline: by [start], its reset to
    0, before the watcher is started, and by the change handler between
    taking the token and releasing it; no other operation assigns it, and it
    changes by assignment only. No operation but [start] lowers it, alone or
    in a sequence of operations on the listener. *)
Theorem lastCheck_only_grows_and_is_written_under_the_lock (op : Op Payload IMessageCache)
        (st : Listener) :
  writeDiscipline op (trace (runOp trimCaches op st)) = true /\
  (lastCheckWrites (trace (runOp trimCaches op st)) = [] ->
   lastCheck (final (runOp trimCaches op st)) = lastCheck st) /\
  (isStart op = false ->
   lastCheck st <= lastCheck (final (runOp trimCaches op st))) /\
  (forall ops : list (Op Payload IMessageCache),
     forallb (fun o => negb (isStart o)) ops = true ->
     lastCheck st <= lastCheck (runOps trimCaches ops st)).
Proof.
  assert (Hone : forall (o : Op Payload IMessageCache) (s : Listener),
            writeDiscipline o (trace (runOp trimCaches o s)) = true /\
            (lastCheckWrites (trace (runOp trimCaches o s)) = [] ->
             lastCheck (final (runOp trimCaches o s)) = lastCheck s) /\
            (isStart o = false ->
             lastCheck s <= lastCheck (final (runOp trimCaches o s)))).
  { intros o s. destruct o as [now fs | | poller | after emitResults
                               | event arrivals | event arrivals];
      cbn [runOp writeDiscipline isStart].
    - destruct (start_lastCheck now fs s) as [Hl [Hw Hd]].
      rewrite Hw, Hd. repeat split; discriminate.
    - cbn. repeat split; lia.
    - cbn. repeat split; lia.
    - rewrite (quiet_alone _ _ (poll_quiet after emitResults s)), poll_lastCheck.
      repeat split; lia.
    - destruct (handleChangeEvent_lastCheck event arrivals s) as [Hl [Hw Hd]].
      repeat split; auto.
    - destruct (handleChangeEvent_locked_lastCheck event arrivals s) as [Hl [Hw Hd]].
      rewrite Hl, Hw, Hd. repeat split; [|lia].
      destruct (Z.gtb_spec (mtimeMs (currentStat event)) (lastCheck s));
        [discriminate | lia]. }
  destruct (Hone op st) as [H1 [H2 H3]].
  repeat split; [exact H1 | exact H2 | exact H3 |].
  intros ops. generalize st.
  induction ops as [|o rest IH]; intros s Hops.
  - cbn. lia.
  - cbn [forallb] in Hops. apply andb_prop in Hops. destruct Hops as [Ho Hrest].
    apply negb_true_iff in Ho. cbn [runOps].
    destruct (Hone o s) as [_ [_ Hm]].
    etransitivity; [exact (Hm Ho) | exact (IH _ Hrest)].
Qed.

(** C4, as the code has it. When every watched path can be read and the
    pollers return, [start] sets [lastCheck] to 0 and assigns it nothing
    else, reads each path, calls every poller once with the earliest of the
    current time and the modification times, less 60000 ms, as [after],
    emits nothing to the sink, and only then builds the watcher, attaches the
    handlers of its "change" and "error" events and starts it. *)
Theorem start_resets_lastCheck_and_polls_silently (now : Date)
        (fs : string -> option Stats) (st : Listener) (stats : list Stats) :
  map fs (filePaths st) = map Some stats ->
  outcome (poll (earliestOf now stats - 60000) false
             (with_stopped false (with_lastCheck 0 st))) = Returned tt ->
  outcome (start now fs st) = Returned tt /\
  trace (start now fs st) =
    ESetLastCheck 0 :: ESetStopped false ::
    map EStat (filePaths st) ++
    trace (poll (earliestOf now stats - 60000) false
             (with_stopped false (with_lastCheck 0 st))) ++
    [EWatcherNew; EWatcherOn "change"; EWatcherOn "error"; EWatcherStart] /\
  lastCheck (final (start now fs st)) = 0 /\
  lastCheckWrites (trace (start now fs st)) = [0] /\
  pollersInvoked (trace (start now fs st)) = seq 0 (List.length (pollers st)) /\
  Forall (eq (earliestOf now stats - 60000)) (pollAfters (trace (start now fs st))) /\
  emitted (trace (start now fs st)) = [] /\
  watcher (final (start now fs st)) =
    Some {| watchedPaths := filePaths st;
            handlers := ["change"; "error"]%string;
            running := true |}.
Proof.
  intros Hfs Hpoll.
  destruct (start_lastCheck now fs st) as [Hl [Hw _]].
  rewrite start_cases in *.
  set (st1 := with_stopped false (with_lastCheck 0 st)) in *.
  unfold getEarliestModifiedDate in *.
  rewrite (earliestFrom_returns fs (filePaths st1) stats now st1 Hfs) in *.
  cbn [outcome trace fst snd] in *. rewrite Hpoll in *.
  cbn [outcome final trace fst snd watcher with_watcher] in *.
  destruct (stats_trace (filePaths st)) as [Sa [Si [Se _]]].
  split; [reflexivity|]. split; [reflexivity|]. split; [exact Hl|].
  split; [exact Hw|].
  cbn [pollersInvoked pollAfters emitted].
  rewrite !pollersInvoked_app, !pollAfters_app, !emitted_app.
  change (filePaths st1) with (filePaths st).
  rewrite Sa, Si, Se. cbn [app pollersInvoked pollAfters emitted].
  rewrite !app_nil_r.
  split; [exact (poll_returned_calls_all _ _ st1 Hpoll)|].
  split; [apply pollFrom_afters|].
  split; [apply pollFrom_silent | reflexivity].
Qed.

(** C10. When every watched path can be read, [getEarliestModifiedDate]
    returns the minimum of the current time and the modification times of
    the watched paths: a date that is not later than the current time, not
    later than any of the modification times, and one of them; it is the
    current time when no path is watched; and every poller call made by
    [start] has an [after] that is at least 60000 ms before the current
    time. *)
Theorem earliest_modified_date_is_a_minimum (now : Date)
        (fs : string -> option Stats) (st : Listener) (stats : list Stats) :
  map fs (filePaths st) = map Some stats ->
  outcome (getEarliestModifiedDate now fs st) = Returned (earliestOf now stats) /\
  earliestOf now stats <= now /\
  Forall (fun s => earliestOf now stats <= mtime s) stats /\
  In (earliestOf now stats) (now :: map mtime stats) /\
  (filePaths st = [] -> outcome (getEarliestModifiedDate now fs st) = Returned now) /\
  Forall (eq (earliestOf now stats - 60000)) (pollAfters (trace (start now fs st))) /\
  Forall (fun after => after <= now - 60000) (pollAfters (trace (start now fs st))).
Proof.
  intros Hfs.
  destruct (fold_min_spec (map mtime stats) now) as [Hnow [Hall Hin]].
  fold (earliestOf now stats) in Hnow, Hall, Hin.
  assert (Hafters : Forall (eq (earliestOf now stats - 60000))
                      (pollAfters (trace (start now fs st)))).
  { rewrite start_cases.
    set (st1 := with_stopped false (with_lastCheck 0 st)).
    unfold getEarliestModifiedDate.
    rewrite (earliestFrom_returns fs (filePaths st1) stats now st1 Hfs).
    cbn [outcome trace fst snd].
    destruct (stats_trace (filePaths st1)) as [Sa _].
    pose proof (pollFrom_afters (pollers st1) 0 (earliestOf now stats - 60000) false st1)
      as Hp.
    fold (poll (earliestOf now stats - 60000) false st1) in Hp.
    destruct (outcome (poll (earliestOf now stats - 60000) false st1));
      cbn [trace snd pollAfters];
      rewrite !pollAfters_app, Sa; cbn [app pollAfters]; rewrite ?app_nil_r;
      exact Hp. }
  split; [|split; [|split; [|split; [|split; [|split]]]]].
  - unfold getEarliestModifiedDate.
    rewrite (earliestFrom_returns fs (filePaths st) stats now st Hfs). reflexivity.
  - exact Hnow.
  - apply Forall_forall. intros s Hs. rewrite Forall_forall in Hall.
    apply Hall. apply in_map. exact Hs.
  - exact Hin.
  - intros Hnone. unfold getEarliestModifiedDate. rewrite Hnone. reflexivity.
  - exact Hafters.
  - eapply Forall_impl; [|exact Hafters]. intros after <-. lia.
Qed.

(** ** [stop] and the change handler *)

Lemma stop_runs (st : Listener) :
  stop st = (Returned tt, afterStop st, [ESetStopped true; ERemoveAllListeners]).
Proof. reflexivity. Qed.

(** On a listener without subscribers an emission calls nobody. *)
Lemma emit_unheard (type : string) (payload : Payload) (st : Listener) :
  listeners st = [] -> heard (trace (emit type payload st)) = [].
Proof.
  intros H. rewrite emit_runs, H. cbn [trace snd heard callSubscribers].
  destruct (String.eqb type "error" && negb (hasSubscriber type []))%bool; reflexivity.
Qed.

Lemma emitAll_unheard (results : list (PollResult Payload)) (st : Listener) :
  listeners st = [] -> heard (trace (emitAll results st)) = [].
Proof.
  intros H. induction results as [|r rest IH]; [reflexivity|].
  rewrite emitAll_cons.
  pose proof (emit_unheard (eventType r) (data r) st H) as He.
  destruct (outcome (emit (eventType r) (data r) st)) as [[] | error |];
    cbn [trace snd]; [|exact He..].
  rewrite heard_app, He, IH. reflexivity.
Qed.

Lemma pollFrom_unheard (ps : list Poller) :
  forall (index : nat) (after : Date) (emitResults : bool) (st : Listener),
  listeners st = [] ->
  heard (trace (pollFrom index ps after emitResults st)) = [].
Proof.
  induction ps as [|poller rest IH]; intros index after emitResults st H.
  - reflexivity.
  - assert (Hturn : forall (results : list (PollResult Payload)) (c : IMessageCache),
              heard (trace (emissions emitResults results (with_cache c st))) = []).
    { intros results c. destruct emitResults; [|reflexivity].
      apply emitAll_unheard. exact H. }
    first_poller poller after emitResults st; cbn [trace snd heard].
    + rewrite heard_app, Hturn. apply IH. exact H.
    + apply Hturn.
    + reflexivity.
    + reflexivity.
Qed.

Lemma release_frame (st : Listener) :
  stopped (final (release st)) = stopped st /\
  watcher (final (release st)) = watcher st /\
  listeners (final (release st)) = listeners st.
Proof. unfold release. destruct (waiting (processLock st)); repeat split. Qed.

(** The change handler leaves the flag, the watcher and the subscribers of
    the listener as they are, and calls the subscribers that its poll
    calls. *)
Lemma handleChangeEvent_locked_frame (event : FileChangeEvent) (arrivals : nat)
      (st : Listener) :
  stopped (final (handleChangeEvent_locked trimCaches event arrivals st)) = stopped st /\
  watcher (final (handleChangeEvent_locked trimCaches event arrivals st)) = watcher st /\
  listeners (final (handleChangeEvent_locked trimCaches event arrivals st)) = listeners st /\
  (listeners st = [] ->
   heard (trace (handleChangeEvent_locked trimCaches event arrivals st)) = []).
Proof.
  destruct (Z.gtb_spec (mtimeMs (currentStat event)) (lastCheck st)) as [H | H].
  - rewrite handleChangeEvent_locked_fresh by lia. cbn zeta.
    set (st1 := with_lastCheck (mtimeMs (currentStat event)) st).
    destruct (poll_frame (mtimeMs (prevStat event) - 30000) true st1) as [c Hc].
    pose proof (pollFrom_unheard (pollers st1) 0 (mtimeMs (prevStat event) - 30000)
                  true st1) as Hh.
    fold (poll (mtimeMs (prevStat event) - 30000) true st1) in Hh.
    destruct (outcome (poll (mtimeMs (prevStat event) - 30000) true st1))
      as [[] | error |]; cbn [final trace fst snd heard]; rewrite Hc.
    + destruct (release_frame (afterPoll trimCaches arrivals (with_cache c st1)))
        as [R1 [R2 R3]].
      rewrite R1, R2, R3. do 3 (split; [reflexivity|]).
      intros Hl. rewrite heard_app, (Hh Hl).
      destruct (0 <? _)%nat; reflexivity.
    + do 3 (split; [reflexivity|]). exact Hh.
    + do 3 (split; [reflexivity|]). exact Hh.
  - rewrite handleChangeEvent_locked_stale by lia.
    destruct (release_frame st) as [R1 [R2 R3]]. rewrite R1, R2, R3, release_trace.
    repeat split.
Qed.

Lemma handleChangeEvent_frame (event : FileChangeEvent) (arrivals : nat)
      (st : Listener) :
  stopped (final (handleChangeEvent trimCaches event arrivals st)) = stopped st /\
  watcher (final (handleChangeEvent trimCaches event arrivals st)) = watcher st /\
  listeners (final (handleChangeEvent trimCaches event arrivals st)) = listeners st /\
  (listeners st = [] ->
   heard (trace (handleChangeEvent trimCaches event arrivals st)) = []).
Proof.
  destruct (free (processLock st)) as [|n] eqn:Hfree.
  - rewrite handleChangeEvent_parks by exact Hfree. cbn. repeat split.
  - rewrite (handleChangeEvent_acquires _ _ _ _ Hfree). cbn [final trace fst snd heard].
    apply (handleChangeEvent_locked_frame event arrivals
             (with_processLock {| free := n; waiting := waiting (processLock st) |} st)).
Qed.

(** Once the scheduled call is cancelled, time brings no execution. *)
Lemma elapse_cancelled (p : Pipeline Payload IMessageCache) (t : Z) :
  elapse trimCaches t (pipelineStop p) = (pipelineStop p, []).
Proof. destruct p as [st g]. reflexivity. Qed.


(** ** More about [poll], [addPoller] and the lock *)

Lemma quiet_released (t : Events) : quiet t -> released t = false.
Proof.
  induction 1 as [|e t He _ IH]; [reflexivity|].
  destruct e; try contradiction; exact IH.
Qed.

Lemma quiet_touchesWatcher (t : Events) : quiet t -> touchesWatcher t = false.
Proof.
  induction 1 as [|e t He _ IH]; [reflexivity|].
  destruct e; try contradiction; exact IH.
Qed.

(** The loop reads nothing of the listener but the cache and the
    subscribers. *)
Lemma pollFrom_same_cache (ps : list Poller) :
  forall (index : nat) (after : Date) (emitResults : bool) (st st2 : Listener),
  cache st = cache st2 ->
  listeners st = listeners st2 ->
  outcome (pollFrom index ps after emitResults st) =
    outcome (pollFrom index ps after emitResults st2) /\
  trace (pollFrom index ps after emitResults st) =
    trace (pollFrom index ps after emitResults st2) /\
  cache (final (pollFrom index ps after emitResults st)) =
    cache (final (pollFrom index ps after emitResults st2)).
Proof.
  induction ps as [|poller rest IH]; intros index after emitResults st st2 H Hl.
  - cbn. repeat split. exact H.
  - destruct (poller_poll poller after (cache st)) as [o c] eqn:E.
    assert (E2 : poller_poll poller after (cache st2) = (o, c))
      by (rewrite <- H; exact E).
    destruct o as [results | error |].
    + rewrite (pollFrom_returned _ _ _ _ _ st _ _ E),
        (pollFrom_returned _ _ _ _ _ st2 _ _ E2).
      destruct (emissions_spec emitResults results (with_cache c st2))
        as [_ [_ [_ [_ [_ Ts]]]]].
      destruct (Ts (with_cache c st) Hl) as [To Tt]. rewrite To, Tt.
      destruct (outcome (emissions emitResults results (with_cache c st2)))
        as [[] | error |]; cbn [outcome final trace fst snd];
        [|repeat split..].
      destruct (IH (S index) after emitResults (with_cache c st) (with_cache c st2)
                  eq_refl Hl) as [H1 [H2 H3]].
      rewrite H1, H2, H3. repeat split.
    + rewrite (pollFrom_threw _ _ _ _ _ st _ _ E),
        (pollFrom_threw _ _ _ _ _ st2 _ _ E2). repeat split.
    + rewrite (pollFrom_pending _ _ _ _ _ st _ E),
        (pollFrom_pending _ _ _ _ _ st2 _ E2). repeat split.
Qed.

(** A loop that returns with emission on returns without it, from the same
    calls and to the same listener; in any case the loop without emission
    calls the pollers that the other one calls, and possibly more. *)
Lemma pollFrom_flag (ps : list Poller) :
  forall (index : nat) (after : Date) (st : Listener),
  (outcome (pollFrom index ps after true st) = Returned tt ->
   outcome (pollFrom index ps after false st) = Returned tt /\
   final (pollFrom index ps after true st) = final (pollFrom index ps after false st) /\
   pollersInvoked (trace (pollFrom index ps after true st)) =
     pollersInvoked (trace (pollFrom index ps after false st))) /\
  (exists later : list nat,
     pollersInvoked (trace (pollFrom index ps after false st)) =
     pollersInvoked (trace (pollFrom index ps after true st)) ++ later) /\
  (forall error : string,
     outcome (pollFrom index ps after false st) = Threw error ->
     outcome (pollFrom index ps after true st) <> Returned tt).
Proof.
  induction ps as [|poller rest IH]; intros index after st.
  - split; [intros _; repeat split|]. split; [exists []; reflexivity|].
    intros error H. discriminate H.
  - destruct (poller_poll poller after (cache st)) as [o c] eqn:E.
    destruct o as [results | error |].
    + rewrite (pollFrom_returned _ _ _ _ true st _ _ E),
        (pollFrom_returned _ _ _ _ false st _ _ E).
      destruct (emitAll_spec results (with_cache c st)) as [_ [Tp [_ [Ti _]]]].
      destruct (IH (S index) after (with_cache c st)) as [H1 [[later H2] H3]].
      cbn [ret outcome final trace fst snd pollersInvoked app].
      destruct (outcome (emitAll results (with_cache c st))) as [[] | error |] eqn:Et;
        cbn [outcome final trace fst snd pollersInvoked].
      * rewrite pollersInvoked_app, Ti. cbn [app].
        split; [|split; [|exact H3]].
        -- intros Hret. destruct (H1 Hret) as [G1 [G2 G3]].
           rewrite G1, G2, G3. repeat split.
        -- exists later. rewrite H2. reflexivity.
      * rewrite Ti.
        split; [intros H; discriminate H|].
        split; [|intros e _ H; discriminate H].
        exists (pollersInvoked
                  (trace (pollFrom (S index) rest after false (with_cache c st)))).
        reflexivity.
      * contradiction Tp. reflexivity.
    + rewrite (pollFrom_threw _ _ _ _ true st _ _ E),
        (pollFrom_threw _ _ _ _ false st _ _ E).
      split; [intros H; discriminate H|].
      split; [exists []; reflexivity | intros e _ H; discriminate H].
    + rewrite (pollFrom_pending _ _ _ _ true st _ E),
        (pollFrom_pending _ _ _ _ false st _ E).
      split; [intros H; discriminate H|].
      split; [exists []; reflexivity | intros e _ H; discriminate H].
Qed.

(** X1. [poll] changes nothing of the listener but the cache: the flag, the
    paths, the watcher, the lock, the registry, [lastCheck] and the
    subscribers are as before, whatever the pollers do, and its effects
    contain no assignment to [lastCheck], no release, no delay and nothing on
    the watcher. *)
Theorem poll_touches_only_the_cache (after : Date) (emitResults : bool) (st : Listener) :
  stopped (final (poll after emitResults st)) = stopped st /\
  filePaths (final (poll after emitResults st)) = filePaths st /\
  watcher (final (poll after emitResults st)) = watcher st /\
  processLock (final (poll after emitResults st)) = processLock st /\
  pollers (final (poll after emitResults st)) = pollers st /\
  lastCheck (final (poll after emitResults st)) = lastCheck st /\
  listeners (final (poll after emitResults st)) = listeners st /\
  lastCheckWrites (trace (poll after emitResults st)) = [] /\
  released (trace (poll after emitResults st)) = false /\
  delays (trace (poll after emitResults st)) = [] /\
  touchesWatcher (trace (poll after emitResults st)) = false.
Proof.
  destruct (poll_frame after emitResults st) as [c H]. rewrite H.
  pose proof (poll_quiet after emitResults st) as Hq.
  rewrite (quiet_lastCheckWrites _ Hq), (quiet_released _ Hq), (quiet_delays _ Hq),
    (quiet_touchesWatcher _ Hq).
  repeat split.
Qed.

(** X2. The [emitResults] flag of [poll] decides emission: without it the
    sink receives nothing and no subscriber is called; with it the sink
    receives the results of the pollers, in registry order and in the order
    each poller gave them, all of them when the poll returns. A poll that
    returns with the flag returns without it, having called the same
    pollers and leaving the same listener; the converse fails when an
    emission throws, and then the poll without the flag goes on to pollers
    that the other one never calls. *)
Theorem poll_flag_only_decides_emission (after : Date) (st : Listener) :
  emitted (trace (poll after false st)) = [] /\
  heard (trace (poll after false st)) = [] /\
  (exists more : list (string * Payload),
     map (fun r => (eventType r, data r)) (resultsFrom (pollers st) after (cache st)) =
       emitted (trace (poll after true st)) ++ more /\
     (outcome (poll after true st) = Returned tt -> more = [])) /\
  (outcome (poll after true st) = Returned tt ->
   outcome (poll after false st) = Returned tt /\
   final (poll after true st) = final (poll after false st) /\
   pollersInvoked (trace (poll after true st)) =
     pollersInvoked (trace (poll after false st))) /\
  (exists later : list nat,
     pollersInvoked (trace (poll after false st)) =
     pollersInvoked (trace (poll after true st)) ++ later) /\
  (forall error : string,
     outcome (poll after false st) = Threw error ->
     outcome (poll after true st) <> Returned tt).
Proof.
  destruct (pollFrom_flag (pollers st) 0 after st) as [H1 [H2 H3]].
  destruct (pollFrom_silent (pollers st) 0 after st) as [S1 S2].
  split; [exact S1|]. split; [exact S2|].
  split; [apply pollFrom_emits|].
  split; [exact H1|]. split; [exact H2 | exact H3].
Qed.

(** X3. A poller added with [addPoller] is the last of the registry: a poll
    calls it once, after all the pollers registered before it have
    returned, and does not call it when one of them fails to return, in
    which case the poll goes as it did without the new poller. *)
Theorem addPoller_registers_last (poller : Poller) (after : Date)
        (emitResults : bool) (st : Listener) :
  pollers (final (addPoller poller st)) = pollers st ++ [poller] /\
  (outcome (poll after emitResults st) = Returned tt ->
   pollersInvoked (trace (poll after emitResults (final (addPoller poller st)))) =
     pollersInvoked (trace (poll after emitResults st)) ++ [List.length (pollers st)]) /\
  (outcome (poll after emitResults st) <> Returned tt ->
   outcome (poll after emitResults (final (addPoller poller st))) =
     outcome (poll after emitResults st) /\
   trace (poll after emitResults (final (addPoller poller st))) =
     trace (poll after emitResults st)).
Proof.
  split; [reflexivity|].
  set (st' := final (addPoller poller st)).
  assert (Hc : cache st' = cache st) by reflexivity.
  destruct (pollFrom_same_cache (pollers st) 0 after emitResults st' st Hc eq_refl)
    as [Ho [Ht _]].
  unfold poll. change (pollers st') with (pollers st ++ [poller]).
  split.
  - intros Hret. unfold poll in Hret.
    rewrite (pollFrom_app (pollers st) [poller] 0 after emitResults st')
      by (rewrite Ho; exact Hret).
    cbn [trace snd Nat.add]. rewrite pollersInvoked_app, Ht. f_equal.
    first_poller poller after emitResults
      (final (pollFrom 0 (pollers st) after emitResults st'));
      cbn [trace snd pollersInvoked pollFrom ret].
    + rewrite app_nil_r, Ti. reflexivity.
    + rewrite Ti. reflexivity.
    + reflexivity.
    + reflexivity.
  - intros Hnot. unfold poll in Hnot. rewrite <- Ho, <- Ht. rewrite <- Ho in Hnot.
    clear Ho Ht Hc. revert Hnot. generalize st'. generalize 0%nat.
    induction (pollers st) as [|q rest IH]; intros index s Hnot.
    + cbn in Hnot. contradiction Hnot. reflexivity.
    + cbn [app]. revert Hnot.
      destruct (poller_poll q after (cache s)) as [o c] eqn:E.
      destruct o as [results | error |].
      * rewrite (pollFrom_returned _ _ (rest ++ [poller]) _ _ s _ _ E),
          (pollFrom_returned _ _ rest _ _ s _ _ E).
        destruct (outcome (emissions emitResults results (with_cache c s)))
          as [[] | error |]; cbn [outcome trace fst snd];
          [|intros _; split; reflexivity..].
        intros Hnot.
        destruct (IH (S index) (with_cache c s) Hnot) as [G1 G2].
        rewrite G1, G2. split; reflexivity.
      * rewrite (pollFrom_threw _ _ (rest ++ [poller]) _ _ s _ _ E),
          (pollFrom_threw _ _ rest _ _ s _ _ E). intros _. split; reflexivity.
      * rewrite (pollFrom_pending _ _ (rest ++ [poller]) _ _ s _ E),
          (pollFrom_pending _ _ rest _ _ s _ E). intros _. split; reflexivity.
Qed.

(** The poll of a listener depends on its registry, its cache and its
    subscribers only. *)
Lemma poll_same_cache (after : Date) (emitResults : bool) (st st2 : Listener) :
  pollers st = pollers st2 -> cache st = cache st2 -> listeners st = listeners st2 ->
  outcome (poll after emitResults st) = outcome (poll after emitResults st2) /\
  trace (poll after emitResults st) = trace (poll after emitResults st2) /\
  cache (final (poll after emitResults st)) = cache (final (poll after emitResults st2)).
Proof.
  intros Hp Hc Hl. unfold poll. rewrite Hp. apply pollFrom_same_cache; assumption.
Qed.

(** A stale change, through the whole of [handleChangeEvent]. *)
Lemma handleChangeEvent_stale_quiet (event : FileChangeEvent) (arrivals : nat)
      (st : Listener) :
  mtimeMs (currentStat event) <= lastCheck st ->
  pollersInvoked (trace (handleChangeEvent trimCaches event arrivals st)) = [] /\
  lastCheck (final (handleChangeEvent trimCaches event arrivals st)) = lastCheck st.
Proof.
  intros H. destruct (free (processLock st)) as [|n] eqn:Hfree.
  - rewrite handleChangeEvent_parks by exact Hfree. split; reflexivity.
  - rewrite (handleChangeEvent_acquires _ _ _ _ Hfree).
    cbn [trace final fst snd pollersInvoked].
    rewrite handleChangeEvent_locked_stale by exact H.
    rewrite release_trace, release_lastCheck. split; reflexivity.
Qed.

(** X4. A [handleChangeEvent] that found the token free and returned has
    given it up again: back to the lock when no caller is parked, and to one
    of the parked callers otherwise, which leaves one caller fewer parked. *)
Theorem handleChangeEvent_gives_the_token_up (event : FileChangeEvent)
        (arrivals : nat) (st : Listener) (n : nat) :
  free (processLock st) = S n ->
  outcome (handleChangeEvent trimCaches event arrivals st) = Returned tt ->
  processLock (final (handleChangeEvent trimCaches event arrivals st)) =
  match (waiting (processLock st) +
         (if mtimeMs (currentStat event) >? lastCheck st then arrivals else 0))%nat with
  | O => {| free := S n; waiting := 0 |}
  | S w => {| free := n; waiting := w |}
  end.
Proof.
  intros Hfree. rewrite (handleChangeEvent_acquires _ _ _ _ Hfree).
  cbn [outcome final fst snd].
  set (st0 := with_processLock {| free := n; waiting := waiting (processLock st) |} st).
  destruct (Z.gtb_spec (mtimeMs (currentStat event)) (lastCheck st)) as [H | H].
  - rewrite (handleChangeEvent_locked_fresh event arrivals st0) by (cbn; lia).
    cbn zeta.
    pose proof (poll_processLock (mtimeMs (prevStat event) - 30000) true
                  (with_lastCheck (mtimeMs (currentStat event)) st0)) as Hp.
    cbn [processLock with_lastCheck with_processLock st0] in Hp.
    destruct (outcome (poll (mtimeMs (prevStat event) - 30000) true
                         (with_lastCheck (mtimeMs (currentStat event)) st0)))
      as [[] | error |]; cbn [outcome final fst snd]; [|discriminate..].
    intros _. unfold release, afterPoll.
    cbn [processLock with_processLock with_cache waiting free].
    rewrite Hp. cbn [waiting free].
    destruct (waiting (processLock st) + arrivals)%nat; reflexivity.
  - rewrite (handleChangeEvent_locked_stale event arrivals st0) by (cbn; lia).
    intros _. unfold release. cbn [processLock with_processLock st0 waiting free].
    rewrite Nat.add_0_r. destruct (waiting (processLock st)); reflexivity.
Qed.

Lemma released_app (t1 t2 : Events) :
  released (t1 ++ t2) = (released t1 || released t2)%bool.
Proof. apply existsb_app. Qed.

(** The body of the handler either ends without a release, with the free
    tokens as they were, or releases: the token goes back to the free ones,
    or to a parked caller, which leaves the free ones as they were. *)
Lemma handleChangeEvent_locked_token (event : FileChangeEvent) (arrivals : nat)
      (st : Listener) :
  released (trace (handleChangeEvent_locked trimCaches event arrivals st)) = false /\
  free (processLock (final (handleChangeEvent_locked trimCaches event arrivals st)))
    = free (processLock st)
  \/
  released (trace (handleChangeEvent_locked trimCaches event arrivals st)) = true /\
  (free (processLock (final (handleChangeEvent_locked trimCaches event arrivals st)))
     = S (free (processLock st)) \/
   free (processLock (final (handleChangeEvent_locked trimCaches event arrivals st)))
     = free (processLock st)).
Proof.
  assert (Hrelease : forall s : Listener,
            free (processLock (final (release s))) = S (free (processLock s)) \/
            free (processLock (final (release s))) = free (processLock s)).
  { intros s. unfold release. destruct (waiting (processLock s));
      [left | right]; reflexivity. }
  destruct (Z.gtb_spec (mtimeMs (currentStat event)) (lastCheck st)) as [H | H].
  - rewrite handleChangeEvent_locked_fresh by lia. cbn zeta.
    set (st1 := with_lastCheck (mtimeMs (currentStat event)) st).
    pose proof (poll_processLock (mtimeMs (prevStat event) - 30000) true st1) as Hp.
    pose proof (poll_quiet (mtimeMs (prevStat event) - 30000) true st1) as Hq.
    cbn [processLock with_lastCheck st1] in Hp.
    destruct (outcome (poll (mtimeMs (prevStat event) - 30000) true st1))
      as [[] | error |]; cbn [final trace fst snd].
    + right. split.
      * cbn [released existsb orb].
        change (existsb _ ?t) with (released t).
        rewrite released_app, (quiet_released _ Hq). cbn [orb released existsb].
        change (existsb _ ?t) with (released t).
        rewrite released_app. cbn. apply orb_true_r.
      * destruct (Hrelease (afterPoll trimCaches arrivals
                              (final (poll (mtimeMs (prevStat event) - 30000) true st1))))
          as [G | G]; rewrite G; unfold afterPoll;
          cbn [processLock with_processLock with_cache free]; rewrite Hp;
          [left | right]; reflexivity.
    + left. split; [|rewrite Hp; reflexivity].
      cbn [released existsb orb]. apply quiet_released. exact Hq.
    + left. split; [|rewrite Hp; reflexivity].
      cbn [released existsb orb]. apply quiet_released. exact Hq.
  - rewrite handleChangeEvent_locked_stale by lia. right.
    rewrite release_trace. split; [reflexivity | apply Hrelease].
Qed.

(** What [start] leaves alone, and what it sets, however it ends. *)
Lemma start_frame (now : Date) (fs : string -> option Stats) (st : Listener) :
  pollers (final (start now fs st)) = pollers st /\
  filePaths (final (start now fs st)) = filePaths st /\
  processLock (final (start now fs st)) = processLock st /\
  listeners (final (start now fs st)) = listeners st /\
  stopped (final (start now fs st)) = false /\
  (outcome (start now fs st) <> Returned tt ->
   watcher (final (start now fs st)) = watcher st /\
   touchesWatcher (trace (start now fs st)) = false).
Proof.
  rewrite start_cases.
  set (st1 := with_stopped false (with_lastCheck 0 st)).
  pose proof (getEarliestModifiedDate_quiet now fs st1) as Hq.
  destruct (outcome (getEarliestModifiedDate now fs st1)) as [d | error |].
  - destruct (poll_frame (d - 60000) false st1) as [c Hc].
    pose proof (poll_quiet (d - 60000) false st1) as Hp.
    destruct (outcome (poll (d - 60000) false st1)) as [[] | error |];
      cbn [outcome final trace fst snd]; rewrite Hc.
    + do 5 (split; [reflexivity|]). intros Hnot. contradiction Hnot. reflexivity.
    + do 5 (split; [reflexivity|]). intros _. split; [reflexivity|].
      cbn [touchesWatcher existsb orb].
      apply quiet_touchesWatcher, quiet_app; assumption.
    + do 5 (split; [reflexivity|]). intros _. split; [reflexivity|].
      cbn [touchesWatcher existsb orb].
      apply quiet_touchesWatcher, quiet_app; assumption.
  - cbn [outcome final trace fst snd].
    do 5 (split; [reflexivity|]). intros _. split; [reflexivity|].
    cbn [touchesWatcher existsb orb]. apply quiet_touchesWatcher. exact Hq.
  - cbn [outcome final trace fst snd].
    do 5 (split; [reflexivity|]). intros _. split; [reflexivity|].
    cbn [touchesWatcher existsb orb]. apply quiet_touchesWatcher. exact Hq.
Qed.

(** One operation keeps the count of the token: the free token and the
    callers that were handed the token while parked are one at most. *)
Lemma token_count_step (op : Op Payload IMessageCache) (owed : nat) (st : Listener) :
  (free (processLock st) + owed <= 1)%nat ->
  (if isResume op then Nat.ltb 0 owed else true) = true ->
  (free (processLock (final (runOp trimCaches op st)))
   + owedNext trimCaches op owed st <= 1)%nat.
Proof.
  intros Hcount Hresume. unfold owedNext, handsOver.
  destruct op as [now fs | | poller | after emitResults
                  | event arrivals | event arrivals]; cbn [runOp isResume] in *.
  - destruct (start_frame now fs st) as [_ [_ [Hl _]]].
    rewrite Hl, andb_false_r. lia.
  - cbn. lia.
  - cbn. lia.
  - rewrite poll_processLock, andb_false_r. lia.
  - destruct (free (processLock st)) as [|n] eqn:Hf.
    + rewrite handleChangeEvent_parks by exact Hf. cbn. lia.
    + rewrite (handleChangeEvent_acquires _ _ _ _ Hf). cbn [final trace fst snd].
      set (st0 := with_processLock
                    {| free := n; waiting := waiting (processLock st) |} st).
      change (released (EAcquire :: ?t)) with (released t).
      destruct (handleChangeEvent_locked_token event arrivals st0)
        as [[Hr Hfree] | [Hr [Hfree | Hfree]]];
        rewrite Hr, Hfree; cbn [processLock with_processLock free st0 andb].
      * lia.
      * rewrite Nat.ltb_irrefl. lia.
      * assert (Hlt : (n <? S n)%nat = true) by (apply Nat.ltb_lt; lia).
        rewrite Hlt. lia.
  - apply Nat.ltb_lt in Hresume.
    destruct (handleChangeEvent_locked_token event arrivals st)
      as [[Hr Hfree] | [Hr [Hfree | Hfree]]];
      rewrite Hr, Hfree; cbn [andb].
    + lia.
    + assert (Hne : (S (free (processLock st)) =? free (processLock st))%nat = false)
        by (apply Nat.eqb_neq; lia).
      rewrite Hne. lia.
    + rewrite Nat.eqb_refl. lia.
Qed.

Lemma token_count (ops : list (Op Payload IMessageCache)) :
  forall (st : Listener) (owed : nat),
  (free (processLock st) + owed <= 1)%nat ->
  wellScheduled trimCaches ops owed st = true ->
  (free (processLock (runOps trimCaches ops st)) + owedAfter trimCaches ops owed st
   <= 1)%nat.
Proof.
  induction ops as [|op rest IH]; intros st owed Hcount Hops.
  - exact Hcount.
  - cbn [wellScheduled] in Hops. apply andb_prop in Hops. destruct Hops as [Hop Hrest].
    cbn [runOps owedAfter]. apply IH; [|exact Hrest].
    apply token_count_step; assumption.
Qed.

(** X5. The lock never has more than its one token. On a listener whose
    lock has at most one free token, every sequence of [start], [stop],
    [addPoller], [poll] and [handleChangeEvent] calls and of resumptions of
    parked callers, in which a parked caller resumes only when the token
    has been handed to it, leaves at most one token: free, or in the hands
    of a caller that has yet to resume. *)
Theorem lock_never_holds_more_than_one_token (ops : list (Op Payload IMessageCache))
        (st : Listener) :
  (free (processLock st) <= 1)%nat ->
  wellScheduled trimCaches ops 0 st = true ->
  (free (processLock (runOps trimCaches ops st)) + owedAfter trimCaches ops 0 st
   <= 1)%nat.
Proof.
  intros Hfree Hops. apply token_count; [lia | exact Hops].
Qed.

(** X6. Once a change event has been handled by a caller that got the token,
    an event that is not newer polls nothing and leaves [lastCheck] alone:
    this holds for the same event delivered again and for an event that
    arrives out of order, however the first handling ended. *)
Theorem handled_change_shadows_older_changes (event event' : FileChangeEvent)
        (arrivals arrivals' : nat) (st : Listener) :
  free (processLock st) <> 0%nat ->
  mtimeMs (currentStat event') <= mtimeMs (currentStat event) ->
  pollersInvoked
    (trace (handleChangeEvent trimCaches event' arrivals'
              (final (handleChangeEvent trimCaches event arrivals st)))) = [] /\
  lastCheck
    (final (handleChangeEvent trimCaches event' arrivals'
              (final (handleChangeEvent trimCaches event arrivals st)))) =
  lastCheck (final (handleChangeEvent trimCaches event arrivals st)).
Proof.
  intros Hfree Hle. apply handleChangeEvent_stale_quiet.
  destruct (free (processLock st)) as [|n] eqn:Hf; [contradiction Hfree; reflexivity|].
  rewrite (handleChangeEvent_acquires _ _ _ _ Hf). cbn [final fst snd].
  destruct (handleChangeEvent_locked_lastCheck event arrivals
              (with_processLock {| free := n; waiting := waiting (processLock st) |} st))
    as [Hl _].
  rewrite Hl. lia.
Qed.

(** X7. When the poll of a fresh change throws, at a poller or at an
    emission, the handler ends with that exception after it has moved
    [lastCheck] to the current modification time, without trimming the
    caches and without releasing the lock; on a lock of one token, every
    later [handleChangeEvent] is then parked and polls nothing. *)
Theorem failed_poll_keeps_the_lock (event : FileChangeEvent) (arrivals : nat)
        (st : Listener) (error : string) :
  free (processLock st) = 1%nat ->
  mtimeMs (currentStat event) > lastCheck st ->
  outcome (poll (mtimeMs (prevStat event) - 30000) true st) = Threw error ->
  outcome (handleChangeEvent trimCaches event arrivals st) = Threw error /\
  lastCheck (final (handleChangeEvent trimCaches event arrivals st)) =
    mtimeMs (currentStat event) /\
  cache (final (handleChangeEvent trimCaches event arrivals st)) =
    cache (final (poll (mtimeMs (prevStat event) - 30000) true st)) /\
  released (trace (handleChangeEvent trimCaches event arrivals st)) = false /\
  processLock (final (handleChangeEvent trimCaches event arrivals st)) =
    {| free := 0; waiting := waiting (processLock st) |} /\
  (forall (event' : FileChangeEvent) (arrivals' : nat),
     outcome (handleChangeEvent trimCaches event' arrivals'
                (final (handleChangeEvent trimCaches event arrivals st))) = Pending /\
     pollersInvoked
       (trace (handleChangeEvent trimCaches event' arrivals'
                 (final (handleChangeEvent trimCaches event arrivals st)))) = []).
Proof.
  intros Hfree Hfresh Hthrow.
  assert (Hfinal : exists st2 t2,
            handleChangeEvent trimCaches event arrivals st = (Threw error, st2, t2) /\
            lastCheck st2 = mtimeMs (currentStat event) /\
            cache st2 = cache (final (poll (mtimeMs (prevStat event) - 30000) true st)) /\
            released t2 = false /\
            processLock st2 = {| free := 0; waiting := waiting (processLock st) |}).
  { rewrite (handleChangeEvent_acquires _ _ _ _ Hfree).
    set (st0 := with_processLock {| free := 0; waiting := waiting (processLock st) |} st).
    rewrite (handleChangeEvent_locked_fresh event arrivals st0) by (cbn; lia).
    cbn zeta.
    set (st1 := with_lastCheck (mtimeMs (currentStat event)) st0).
    destruct (poll_same_cache (mtimeMs (prevStat event) - 30000) true st1 st
                eq_refl eq_refl eq_refl) as [Ho [_ Hc]].
    pose proof (poll_lastCheck (mtimeMs (prevStat event) - 30000) true st1) as Hl.
    pose proof (poll_processLock (mtimeMs (prevStat event) - 30000) true st1) as Hp.
    pose proof (poll_quiet (mtimeMs (prevStat event) - 30000) true st1) as Hq.
    rewrite Hthrow in Ho. rewrite Ho. cbn [outcome final trace fst snd].
    eexists. eexists. split; [reflexivity|].
    split; [exact Hl|]. split; [exact Hc|]. split; [|exact Hp].
    cbn [released existsb orb]. apply quiet_released. exact Hq. }
  destruct Hfinal as [st2 [t2 [Hrun [Hl [Hc [Hr Hp]]]]]].
  rewrite Hrun. cbn [outcome final trace fst snd].
  split; [reflexivity|]. split; [exact Hl|]. split; [exact Hc|].
  split; [exact Hr|]. split; [exact Hp|].
  intros event' arrivals'.
  rewrite handleChangeEvent_parks by (rewrite Hp; reflexivity).
  split; reflexivity.
Qed.

(** The calls of the subscribers throw only what a subscriber of the event
    throws. *)
Lemma callSubscribers_threw (type : string) (payload : Payload)
      (subscribers : list (Subscriber Payload)) (error : string) :
  fst (callSubscribers type payload subscribers) = Threw error ->
  exists subscriber : Subscriber Payload,
    In subscriber subscribers /\ eventName subscriber = type /\
    callback subscriber payload = Some error.
Proof.
  induction subscribers as [|subscriber rest IH]; intros H; [discriminate H|].
  cbn [callSubscribers] in H.
  destruct (String.eqb_spec (eventName subscriber) type) as [Hname | _].
  - destruct (callback subscriber payload) as [e|] eqn:Hcall.
    + cbn in H. injection H as ->.
      exists subscriber. split; [left; reflexivity|]. split; assumption.
    + destruct (callSubscribers type payload rest) as [o t]. cbn [fst] in *.
      destruct (IH H) as [sub [Hin Hsub]]. exists sub. split; [right; exact Hin | exact Hsub].
  - destruct (IH H) as [sub [Hin Hsub]]. exists sub. split; [right; exact Hin | exact Hsub].
Qed.

(** X28. The emission of a poller's results throws only at a result for
    which [emit] throws: an "error" result while the listener has no
    subscriber of "error", or a result whose event has a subscriber that
    throws on its payload, and then with that subscriber's exception. On a
    listener whose subscribers all return and that has a subscriber of
    "error", the emission returns and the sink receives every result. *)
Theorem emission_throws_only_for_an_unhandled_error_or_a_failing_subscriber
        (results : list (PollResult Payload)) (st : Listener) :
  (forall error : string,
     outcome (emitAll results st) = Threw error ->
     exists r : PollResult Payload,
       In r results /\
       (eventType r = "error"%string /\
        hasSubscriber "error" (listeners st) = false /\
        error = "ERR_UNHANDLED_ERROR"%string
        \/
        exists subscriber : Subscriber Payload,
          In subscriber (listeners st) /\ eventName subscriber = eventType r /\
          callback subscriber (data r) = Some error)) /\
  (hasSubscriber "error" (listeners st) = true ->
   (forall (subscriber : Subscriber Payload) (payload : Payload),
      In subscriber (listeners st) -> callback subscriber payload = None) ->
   outcome (emitAll results st) = Returned tt /\
   emitted (trace (emitAll results st)) = map (fun r => (eventType r, data r)) results).
Proof.
  assert (Hthrow : forall error : string,
            outcome (emitAll results st) = Threw error ->
            exists r : PollResult Payload,
              In r results /\
              (eventType r = "error"%string /\
               hasSubscriber "error" (listeners st) = false /\
               error = "ERR_UNHANDLED_ERROR"%string
               \/
               exists subscriber : Subscriber Payload,
                 In subscriber (listeners st) /\ eventName subscriber = eventType r /\
                 callback subscriber (data r) = Some error)).
  { induction results as [|r rest IH]; intros error H; [discriminate H|].
    rewrite emitAll_cons in H.
    destruct (outcome (emit (eventType r) (data r) st)) as [[] | e |] eqn:He;
      cbn [outcome fst] in H.
    - destruct (IH error H) as [r' [Hin Hr']]. exists r'. split; [right; exact Hin | exact Hr'].
    - injection H as ->. exists r. split; [left; reflexivity|].
      rewrite emit_runs in He. cbn [outcome fst] in He.
      destruct (String.eqb_spec (eventType r) "error") as [Htype | _]; cbn [andb] in He.
      + rewrite Htype in *.
        destruct (hasSubscriber "error" (listeners st)) eqn:Hsub; cbn [negb] in He.
        * right. apply callSubscribers_threw. exact He.
        * injection He as <-. left. repeat split.
      + right. apply callSubscribers_threw. exact He.
    - discriminate H. }
  split; [exact Hthrow|].
  intros Herror Hreturn.
  destruct (emitAll_spec results st) as [_ [Hp [_ [_ [_ [[more [He Hm]] _]]]]]].
  assert (Ho : outcome (emitAll results st) = Returned tt).
  { destruct (outcome (emitAll results st)) as [[] | error |] eqn:Ho.
    - reflexivity.
    - destruct (Hthrow error eq_refl) as [r [_ [[_ [Hnone _]] | [sub [Hin [_ Hcall]]]]]].
      + rewrite Herror in Hnone. discriminate Hnone.
      + rewrite (Hreturn sub (data r) Hin) in Hcall. discriminate Hcall.
    - contradiction Hp. reflexivity. }
  split; [exact Ho|]. rewrite He, (Hm Ho), app_nil_r. reflexivity.
Qed.

(** X29. An emission that throws leaves the loop of [poll] as a poller that
    throws does: when the pollers before one have returned, that one returns
    its results and emitting them throws, [poll] ends with that exception,
    has called the pollers up to that one and none after it, and leaves the
    cache as that poller left it. *)
Theorem emission_failure_leaves_the_poll_loop (ps1 ps2 : list Poller) (poller : Poller)
        (after : Date) (st : Listener) (results : list (PollResult Payload))
        (c : IMessageCache) (error : string) :
  pollers st = ps1 ++ poller :: ps2 ->
  outcome (pollFrom 0 ps1 after true st) = Returned tt ->
  poller_poll poller after (cache (final (pollFrom 0 ps1 after true st)))
    = (Returned results, c) ->
  outcome (emitAll results (with_cache c (final (pollFrom 0 ps1 after true st))))
    = Threw error ->
  outcome (poll after true st) = Threw error /\
  pollersInvoked (trace (poll after true st)) = seq 0 (S (List.length ps1)) /\
  cache (final (poll after true st)) = c /\
  exists more : list (string * Payload),
    emitted (trace (poll after true st)) ++ more =
    emitted (trace (pollFrom 0 ps1 after true st)) ++
    map (fun r => (eventType r, data r)) results.
Proof.
  intros Hps H1 Hpoller Hemit. unfold poll. rewrite Hps.
  rewrite (pollFrom_app _ _ _ _ _ _ H1). cbn [Nat.add].
  rewrite (pollFrom_returned _ _ _ _ _ _ _ _ Hpoller), Hemit.
  cbn [outcome final trace fst snd cache with_cache].
  destruct (emitAll_spec results (with_cache c (final (pollFrom 0 ps1 after true st))))
    as [_ [_ [_ [Ti [_ [[more [He _]] _]]]]]].
  split; [reflexivity|]. split; [|split; [reflexivity|]].
  - rewrite pollersInvoked_app. cbn [pollersInvoked]. rewrite Ti.
    pose proof (pollFrom_invoked ps1 0 after true st) as Hinv.
    rewrite H1 in Hinv. rewrite Hinv, seq_S. reflexivity.
  - exists more. rewrite emitted_app. cbn [emitted]. rewrite <- app_assoc, He.
    reflexivity.
Qed.

(** The loop over the paths, up to a path that cannot be read. *)
Lemma earliestFrom_stops (fs : string -> option Stats) (paths1 : list string) :
  forall (stats1 : list Stats) (path : string) (paths2 : list string)
         (earliest : Date) (st : Listener),
  map fs paths1 = map Some stats1 ->
  fs path = None ->
  earliestFrom fs (paths1 ++ path :: paths2) earliest st =
  (Threw "ENOENT", st, map EStat (paths1 ++ [path])).
Proof.
  induction paths1 as [|p rest IH]; intros stats1 path paths2 earliest st H Hnone.
  - cbn [app earliestFrom]. unfold bind, statSync. rewrite Hnone. reflexivity.
  - destruct stats1 as [|stat stats1]; [discriminate|].
    cbn [map] in H. injection H as H1 H2.
    cbn [app earliestFrom]. unfold bind, statSync. rewrite H1.
    rewrite (IH stats1 path paths2 _ st H2 Hnone). reflexivity.
Qed.

(** X8. [getEarliestModifiedDate] fails at the first watched path that
    cannot be read: it throws, having read the paths up to that one and none
    of the paths after it, and leaves the listener as it was. *)
Theorem getEarliestModifiedDate_fails_at_unreadable_path (now : Date)
        (fs : string -> option Stats) (st : Listener)
        (paths1 paths2 : list string) (path : string) (stats1 : list Stats) :
  filePaths st = paths1 ++ path :: paths2 ->
  map fs paths1 = map Some stats1 ->
  fs path = None ->
  getEarliestModifiedDate now fs st =
  (Threw "ENOENT", st, map EStat (paths1 ++ [path])).
Proof.
  intros Hp H1 Hnone. unfold getEarliestModifiedDate. rewrite Hp.
  apply (earliestFrom_stops fs paths1 stats1); assumption.
Qed.

(** X9. When a watched path cannot be read, [start] throws before it polls:
    no poller is called, the watcher is not built and the one the listener
    may have had stays in its field, while [lastCheck] is already reset to 0
    and the [stopped] flag cleared. *)
Theorem start_fails_on_unreadable_path (now : Date)
        (fs : string -> option Stats) (st : Listener)
        (paths1 paths2 : list string) (path : string) (stats1 : list Stats) :
  filePaths st = paths1 ++ path :: paths2 ->
  map fs paths1 = map Some stats1 ->
  fs path = None ->
  outcome (start now fs st) = Threw "ENOENT" /\
  trace (start now fs st) =
    ESetLastCheck 0 :: ESetStopped false :: map EStat (paths1 ++ [path]) /\
  pollersInvoked (trace (start now fs st)) = [] /\
  watcher (final (start now fs st)) = watcher st /\
  lastCheck (final (start now fs st)) = 0 /\
  stopped (final (start now fs st)) = false.
Proof.
  intros Hp H1 Hnone. rewrite start_cases.
  set (st1 := with_stopped false (with_lastCheck 0 st)).
  unfold getEarliestModifiedDate. change (filePaths st1) with (filePaths st).
  rewrite Hp, (earliestFrom_stops fs paths1 stats1 path paths2 now st1 H1 Hnone).
  cbn [outcome final trace fst snd].
  destruct (stats_trace (paths1 ++ [path])) as [_ [Hi _]].
  cbn [pollersInvoked]. rewrite Hi. repeat split.
Qed.

(** X10. However it ends, [start] leaves the registry, the watched paths,
    the lock and the subscribers of the listener as they were and clears the
    [stopped] flag. Unless it returns, it does nothing on the watcher, whose
    field keeps what it held; when it returns, the field holds a new watcher
    of the watched paths with the two handlers, whatever it held before. *)
Theorem start_keeps_registry_lock_and_subscribers (now : Date)
        (fs : string -> option Stats) (st : Listener) :
  pollers (final (start now fs st)) = pollers st /\
  filePaths (final (start now fs st)) = filePaths st /\
  processLock (final (start now fs st)) = processLock st /\
  listeners (final (start now fs st)) = listeners st /\
  stopped (final (start now fs st)) = false /\
  (outcome (start now fs st) <> Returned tt ->
   watcher (final (start now fs st)) = watcher st /\
   touchesWatcher (trace (start now fs st)) = false) /\
  (outcome (start now fs st) = Returned tt ->
   watcher (final (start now fs st)) =
     Some {| watchedPaths := filePaths st;
             handlers := ["change"; "error"]%string;
             running := true |}).
Proof.
  destruct (start_frame now fs st) as [H1 [H2 [H3 [H4 [H5 H6]]]]].
  do 5 (split; [assumption|]). split; [exact H6|].
  rewrite start_cases.
  destruct (outcome (getEarliestModifiedDate now fs
                       (with_stopped false (with_lastCheck 0 st)))) as [d | error |];
    [|discriminate..].
  destruct (outcome (poll (d - 60000) false (with_stopped false (with_lastCheck 0 st))))
    as [[] | error |]; [|discriminate..].
  intros _. reflexivity.
Qed.

Lemma fold_min_permutation (l l' : list Z) :
  Permutation l l' -> forall a : Z, fold_left Z.min l a = fold_left Z.min l' a.
Proof.
  induction 1 as [| x l l' _ IH | x y l | l l' l'' _ IH1 _ IH2]; intros a.
  - reflexivity.
  - cbn. apply IH.
  - cbn. f_equal. lia.
  - rewrite IH1. apply IH2.
Qed.

(** The stats of paths that can all be read. *)
Lemma readable_stats (fs : string -> option Stats) (paths : list string) :
  Forall (fun p => fs p <> None) paths ->
  map fs paths =
  map Some (map (fun p => match fs p with Some s => s | None => {| mtimeMs := 0 |} end)
              paths).
Proof.
  induction 1 as [|p rest Hp _ IH]; [reflexivity|].
  cbn [map]. rewrite <- IH. destruct (fs p); [reflexivity | contradiction Hp; reflexivity].
Qed.

(** X11. The date that [getEarliestModifiedDate] returns does not depend on
    the order of the watched paths: two listeners that watch the same
    readable paths in different orders get the same date. *)
Theorem getEarliestModifiedDate_ignores_path_order (now : Date)
        (fs : string -> option Stats) (st st' : Listener) :
  Permutation (filePaths st) (filePaths st') ->
  Forall (fun p => fs p <> None) (filePaths st) ->
  exists d : Date,
    outcome (getEarliestModifiedDate now fs st) = Returned d /\
    outcome (getEarliestModifiedDate now fs st') = Returned d.
Proof.
  intros Hperm Hread.
  assert (Hread' : Forall (fun p => fs p <> None) (filePaths st')).
  { apply Forall_forall. intros p Hin. rewrite Forall_forall in Hread.
    apply Hread. apply Permutation_sym in Hperm.
    exact (Permutation_in p Hperm Hin). }
  set (statOf := fun p => match fs p with Some s => s | None => {| mtimeMs := 0 |} end).
  exists (earliestOf now (map statOf (filePaths st))).
  unfold getEarliestModifiedDate.
  rewrite (earliestFrom_returns fs (filePaths st) _ now st (readable_stats fs _ Hread)).
  rewrite (earliestFrom_returns fs (filePaths st') _ now st' (readable_stats fs _ Hread')).
  cbn [outcome fst]. split; [reflexivity|]. f_equal. unfold earliestOf.
  symmetry. apply fold_min_permutation.
  apply Permutation_map, Permutation_map. exact Hperm.
Qed.

End CoordinatorFacts.

(** * Properties of the cache key *)
Section CacheKeyFacts.

Import Utils.
Local Open Scope string_scope.

Lemma append_assoc (a b c : string) : (a ++ b) ++ c = a ++ (b ++ c).
Proof. induction a as [|x a IH]; [reflexivity|]. cbn. rewrite IH. reflexivity. Qed.

Lemma colonFree_app (a b : string) :
  colonFree (a ++ b) = colonFree a && colonFree b.
Proof.
  induction a as [|x a IH]; [reflexivity|].
  cbn. rewrite IH. apply andb_assoc.
Qed.

Lemma colonFree_digits (d : Decimal.uint) :
  colonFree (NilEmpty.string_of_uint d) = true.
Proof. induction d; cbn; try rewrite IHd; reflexivity. Qed.

Lemma colonFree_number (n : Z) : colonFree (numberToString n) = true.
Proof.
  unfold numberToString. destruct (Z.to_int n) as [d | d]; cbn.
  - apply colonFree_digits.
  - apply colonFree_digits.
Qed.

Lemma numberToString_inj (n m : Z) : numberToString n = numberToString m -> n = m.
Proof.
  unfold numberToString. intros H. apply DecimalZ.to_int_inj.
  assert (E : Some (Z.to_int n) = Some (Z.to_int m)).
  { rewrite <- (NilEmpty.isi (Z.to_int n)), <- (NilEmpty.isi (Z.to_int m)).
    rewrite H. reflexivity. }
  injection E as E. exact E.
Qed.

(** A string is cut in one way only at its last colon. *)
Lemma cut_at_last_colon (s1 : string) :
  forall s2 t1 t2 : string,
  colonFree t1 = true -> colonFree t2 = true ->
  s1 ++ ":" ++ t1 = s2 ++ ":" ++ t2 ->
  s1 = s2 /\ t1 = t2.
Proof.
  induction s1 as [|x s1 IH]; intros s2 t1 t2 H1 H2 H; destruct s2 as [|y s2]; cbn in H.
  - injection H as H. split; [reflexivity | exact H].
  - injection H as Hy Ht. subst t1.
    rewrite colonFree_app in H1. cbn in H1.
    rewrite andb_false_r in H1. discriminate.
  - injection H as Hx Ht. subst t2.
    rewrite colonFree_app in H2. cbn in H2.
    rewrite andb_false_r in H2. discriminate.
  - injection H as Hx Ht. subst y.
    destruct (IH s2 t1 t2 H1 H2 Ht) as [E1 E2]. subst. split; reflexivity.
Qed.

(** C9. The key of a message is its guid, its delivered time and its read
    time, an absent date counting as 0: two messages have the same key
    exactly when the three agree. So a message whose delivered or read time
    differs from the one it had gets a different key, and a message in the
    same state gets the same key again. *)
Theorem getCacheName_identifies_guid_delivered_read (m1 m2 : Message) :
  (getCacheName m1 = getCacheName m2 <->
   guid m1 = guid m2 /\ delivered m1 = delivered m2 /\ read m1 = read m2) /\
  (dateDelivered m1 = None -> delivered m1 = 0%Z) /\
  (dateRead m1 = None -> read m1 = 0%Z) /\
  (forall d : Date, dateDelivered m1 = Some d -> delivered m1 = d) /\
  (forall d : Date, dateRead m1 = Some d -> read m1 = d) /\
  (guid m1 = guid m2 ->
   delivered m1 <> delivered m2 \/ read m1 <> read m2 ->
   getCacheName m1 <> getCacheName m2).
Proof.
  assert (Hiff : getCacheName m1 = getCacheName m2 <->
                 guid m1 = guid m2 /\ delivered m1 = delivered m2 /\ read m1 = read m2).
  { unfold getCacheName. split.
    - intros H.
      assert (R : forall g d r : string,
                g ++ ":" ++ d ++ ":" ++ r = (g ++ ":" ++ d) ++ ":" ++ r)
        by (intros; rewrite !append_assoc; reflexivity).
      rewrite !R in H.
      apply cut_at_last_colon in H; try apply colonFree_number.
      destruct H as [H Hr].
      apply cut_at_last_colon in H; try apply colonFree_number.
      destruct H as [Hg Hd].
      split; [exact Hg|]. split; apply numberToString_inj; assumption.
    - intros [Hg [Hd Hr]]. rewrite Hg, Hd, Hr. reflexivity. }
  split; [exact Hiff|].
  split; [unfold delivered; intros ->; reflexivity|].
  split; [unfold read; intros ->; reflexivity|].
  split; [unfold delivered; intros d ->; reflexivity|].
  split; [unfold read; intros d ->; reflexivity|].
  intros _ Hdiff Hkey. apply Hiff in Hkey. destruct Hkey as [_ [Hd Hr]].
  destruct Hdiff as [Hdiff | Hdiff]; contradiction.
Qed.

End CacheKeyFacts.

(** * The properties at work *)

(** The claims run on the listener of [Scenario]. *)

Lemma stale_change_event_runs_no_poll_witness :
  mtimeMs (currentStat Scenario.change) <= lastCheck Scenario.polled /\
  pollersInvoked
    (trace (handleChangeEvent Scenario.trim Scenario.change 0 Scenario.polled)) = [] /\
  lastCheck (final (handleChangeEvent Scenario.trim Scenario.change 0 Scenario.polled)) =
    lastCheck Scenario.polled.
Proof.
  assert (H : mtimeMs (currentStat Scenario.change) <= lastCheck Scenario.polled)
    by (vm_compute; intros E; discriminate E).
  split; [exact H|].
  destruct (stale_change_event_runs_no_poll string Scenario.Keys Scenario.trim
              Scenario.change 0 Scenario.polled H) as [H1 [H2 _]].
  split; [exact H1 | exact H2].
Defined.

Lemma fresh_change_event_sets_lastCheck_then_polls_witness :
  mtimeMs (currentStat Scenario.change) > lastCheck Scenario.noisy /\
  lastCheck (final (handleChangeEvent_locked Scenario.trim Scenario.change 0 Scenario.noisy)) =
    mtimeMs (currentStat Scenario.change) /\
  Forall (eq (mtimeMs (prevStat Scenario.change) - 30000))
    (pollAfters
       (trace (handleChangeEvent_locked Scenario.trim Scenario.change 0 Scenario.noisy))) /\
  outcome (handleChangeEvent_locked Scenario.trim Scenario.change 0 Scenario.noisy)
    = Threw "ERR_UNHANDLED_ERROR" /\
  exists more : list (string * string),
    [("error"%string, "m1"%string); ("new-message"%string, "m2"%string)] =
    emitted (trace (handleChangeEvent_locked Scenario.trim Scenario.change 0 Scenario.noisy))
    ++ more /\
    more <> [].
Proof.
  assert (H : mtimeMs (currentStat Scenario.change) > lastCheck Scenario.noisy)
    by (vm_compute; reflexivity).
  split; [exact H|].
  destruct (fresh_change_event_sets_lastCheck_then_polls string Scenario.Keys
              Scenario.trim Scenario.change 0 Scenario.noisy H)
    as [rest [_ [_ [H3 [H4 [[more [H5 _]] _]]]]]].
  split; [exact H3|]. split; [exact H4|]. split; [vm_compute; reflexivity|].
  exists more. split; [exact H5|].
  intros ->. vm_compute in H5. discriminate H5.
Defined.

(** C1 as the spec words it fails: the value assigned to [lastCheck] is the
    current modification time, 200000 here, and not the previous one less
    30000, which is 70000 and is the [after] of the poll. *)
Lemma handleChangeEvent_does_not_backdate_lastCheck :
  lastCheckWrites
    (trace (handleChangeEvent_locked Scenario.trim Scenario.change 0 Scenario.ready))
    = [200000] /\
  mtimeMs (prevStat Scenario.change) - 30000 = 70000 /\
  ~ (forall (event : FileChangeEvent) (arrivals : nat)
            (st : IMessageListener string Scenario.Keys),
       mtimeMs (currentStat event) > lastCheck st ->
       lastCheckWrites (trace (handleChangeEvent_locked Scenario.trim event arrivals st))
       = [mtimeMs (prevStat event) - 30000]).
Proof.
  split; [vm_compute; reflexivity|]. split; [vm_compute; reflexivity|].
  intros H. specialize (H Scenario.change 0%nat Scenario.ready).
  assert (Hfresh : mtimeMs (currentStat Scenario.change) > lastCheck Scenario.ready)
    by (vm_compute; reflexivity).
  specialize (H Hfresh). vm_compute in H. discriminate H.
Qed.

Lemma poller_exception_leaves_the_poll_loop_witness :
  mtimeMs (currentStat Scenario.change) > lastCheck Scenario.unlucky /\
  outcome (handleChangeEvent_locked Scenario.trim Scenario.change 0 Scenario.unlucky)
    = Threw "SQLITE_BUSY" /\
  pollersInvoked
    (trace (handleChangeEvent_locked Scenario.trim Scenario.change 0 Scenario.unlucky))
    = [0%nat] /\
  outcome (poll (mtimeMs (prevStat Scenario.change) - 30000) true
             (with_lastCheck (mtimeMs (currentStat Scenario.change)) Scenario.ready))
    = Returned tt /\
  pollersInvoked
    (trace (handleChangeEvent_locked Scenario.trim Scenario.change 0 Scenario.ready))
    = [0%nat; 1%nat] /\
  released
    (trace (handleChangeEvent_locked Scenario.trim Scenario.change 0 Scenario.ready))
    = true.
Proof.
  assert (H : mtimeMs (currentStat Scenario.change) > lastCheck Scenario.unlucky)
    by (vm_compute; reflexivity).
  assert (H' : mtimeMs (currentStat Scenario.change) > lastCheck Scenario.ready)
    by (vm_compute; reflexivity).
  assert (Hpoll : outcome (poll (mtimeMs (prevStat Scenario.change) - 30000) true
                             (with_lastCheck (mtimeMs (currentStat Scenario.change))
                                Scenario.ready)) = Returned tt)
    by (vm_compute; reflexivity).
  split; [exact H|].
  destruct (poller_exception_leaves_the_poll_loop string Scenario.Keys
              Scenario.trim Scenario.change 0 Scenario.unlucky H) as [Hthrow _].
  destruct (poller_exception_leaves_the_poll_loop string Scenario.Keys
              Scenario.trim Scenario.change 0 Scenario.ready H') as [_ Hreturn].
  destruct (Hthrow [] [Scenario.messagePoller] Scenario.brokenPoller "SQLITE_BUSY"%string
              eq_refl eq_refl eq_refl) as [T1 T2].
  destruct (Hreturn Hpoll) as [_ [R2 [before R3]]].
  split; [exact T1|]. split; [exact T2|]. split; [exact Hpoll|].
  split; [exact R2|].
  rewrite R3. unfold released. rewrite existsb_app. cbn. apply orb_true_r.
Defined.

(** C2 as the spec words it fails: with a poller that throws registered
    ahead of another one, the second is never called, the handler ends with
    the exception, and the lock is not released. *)
Lemma poller_failure_is_not_isolated :
  pollersInvoked
    (trace (handleChangeEvent Scenario.trim Scenario.change 0 Scenario.unlucky))
    = [0%nat] /\
  List.length (pollers Scenario.unlucky) = 2%nat /\
  outcome (handleChangeEvent Scenario.trim Scenario.change 0 Scenario.unlucky)
    = Threw "SQLITE_BUSY" /\
  released (trace (handleChangeEvent Scenario.trim Scenario.change 0 Scenario.unlucky))
    = false /\
  ~ (forall (event : FileChangeEvent) (arrivals : nat)
            (st : IMessageListener string Scenario.Keys),
       mtimeMs (currentStat event) > lastCheck st ->
       free (processLock st) = 1%nat ->
       (forall poller after c,
          In poller (pollers st) -> fst (poller_poll poller after c) <> Pending) ->
       pollersInvoked (trace (handleChangeEvent Scenario.trim event arrivals st))
         = seq 0 (List.length (pollers st)) /\
       released (trace (handleChangeEvent Scenario.trim event arrivals st)) = true).
Proof.
  split; [vm_compute; reflexivity|]. split; [vm_compute; reflexivity|].
  split; [vm_compute; reflexivity|]. split; [vm_compute; reflexivity|].
  intros H. specialize (H Scenario.change 0%nat Scenario.unlucky).
  assert (Hfresh : mtimeMs (currentStat Scenario.change) > lastCheck Scenario.unlucky)
    by (vm_compute; reflexivity).
  assert (Hsettle : forall poller after c,
            In poller (pollers Scenario.unlucky) ->
            fst (poller_poll poller after c) <> Pending).
  { intros poller after c [<- | [<- | []]]; cbn.
    - discriminate.
    - destruct (existsb _ c); discriminate. }
  destruct (H Hfresh eq_refl Hsettle) as [_ Hreleased].
  vm_compute in Hreleased. discriminate Hreleased.
Qed.

Lemma start_resets_lastCheck_and_polls_silently_witness :
  map Scenario.disk (filePaths Scenario.ready) = map Some [ {| mtimeMs := 100000 |} ] /\
  outcome (poll (earliestOf 150000 [ {| mtimeMs := 100000 |} ] - 60000) false
             (with_stopped false (with_lastCheck 0 Scenario.ready))) = Returned tt /\
  lastCheck (final (start 150000 Scenario.disk Scenario.ready)) = 0 /\
  emitted (trace (start 150000 Scenario.disk Scenario.ready)) = [].
Proof.
  assert (H1 : map Scenario.disk (filePaths Scenario.ready)
               = map Some [ {| mtimeMs := 100000 |} ])
    by (vm_compute; reflexivity).
  assert (H2 : outcome (poll (earliestOf 150000 [ {| mtimeMs := 100000 |} ] - 60000) false
                          (with_stopped false (with_lastCheck 0 Scenario.ready)))
               = Returned tt)
    by (vm_compute; reflexivity).
  split; [exact H1|]. split; [exact H2|].
  destruct (start_resets_lastCheck_and_polls_silently string Scenario.Keys
              150000 Scenario.disk Scenario.ready [ {| mtimeMs := 100000 |} ] H1 H2)
    as [_ [_ [H3 [_ [_ [_ [H4 _]]]]]]].
  split; [exact H3 | exact H4].
Defined.

(** C4 as the spec words it fails: with one watched file last modified at
    100000, [start] leaves [lastCheck] at 0, not at 40000. *)
Lemma start_does_not_seed_lastCheck :
  lastCheck (final (start 150000 Scenario.disk Scenario.ready)) = 0 /\
  ~ (forall (now : Date) (fs : string -> option Stats)
            (st : IMessageListener string Scenario.Keys)
            (path : string) (stat : Stats),
       filePaths st = [path] ->
       fs path = Some stat ->
       outcome (start now fs st) = Returned tt ->
       lastCheck (final (start now fs st)) = mtime stat - 60000).
Proof.
  split; [vm_compute; reflexivity|].
  intros H.
  specialize (H 150000 Scenario.disk Scenario.ready "chat.db"%string
                {| mtimeMs := 100000 |} eq_refl eq_refl eq_refl).
  vm_compute in H. discriminate H.
Qed.

Lemma lastCheck_only_grows_and_is_written_under_the_lock_witness :
  isStart (@OpHandleChangeEvent string Scenario.Keys Scenario.change 0) = false /\
  lastCheck Scenario.ready <=
  lastCheck (final (runOp Scenario.trim (OpHandleChangeEvent Scenario.change 0)
                      Scenario.ready)) /\
  lastCheck Scenario.ready <=
  lastCheck (runOps Scenario.trim
               [OpHandleChangeEvent Scenario.change2 0; OpStop;
                OpResumeChangeEvent Scenario.change 1] Scenario.ready).
Proof.
  destruct (lastCheck_only_grows_and_is_written_under_the_lock string Scenario.Keys
              Scenario.trim (OpHandleChangeEvent Scenario.change 0) Scenario.ready)
    as [_ [_ [H3 H4]]].
  split; [reflexivity|]. split; [exact (H3 eq_refl)|].
  exact (H4 [OpHandleChangeEvent Scenario.change2 0; OpStop;
             OpResumeChangeEvent Scenario.change 1] eq_refl).
Defined.

Lemma settle_delay_precedes_release_witness :
  mtimeMs (currentStat Scenario.change) > lastCheck Scenario.ready /\
  outcome (poll (mtimeMs (prevStat Scenario.change) - 30000) true
             (with_lastCheck (mtimeMs (currentStat Scenario.change)) Scenario.ready))
    = Returned tt /\
  afterRelease
    (trace (handleChangeEvent_locked Scenario.trim Scenario.change 1 Scenario.ready)) = [] /\
  delays
    (trace (handleChangeEvent_locked Scenario.trim Scenario.change 1 Scenario.ready))
    = [100].
Proof.
  assert (H1 : mtimeMs (currentStat Scenario.change) > lastCheck Scenario.ready)
    by (vm_compute; reflexivity).
  assert (H2 : outcome (poll (mtimeMs (prevStat Scenario.change) - 30000) true
                          (with_lastCheck (mtimeMs (currentStat Scenario.change))
                             Scenario.ready)) = Returned tt)
    by (vm_compute; reflexivity).
  split; [exact H1|]. split; [exact H2|].
  destruct (settle_delay_precedes_release string Scenario.Keys Scenario.trim
              Scenario.change 1 Scenario.ready H1 H2) as [H3 [H4 _]].
  split; [exact H3|].
  assert (Hc : (0 < waiting (processLock Scenario.ready) + 1)%nat)
    by (vm_compute; constructor).
  destruct (H4 Hc) as [_ [H5 _]]. exact H5.
Defined.

(** C8 as the spec words it fails: with a caller parked on the lock, the
    100 ms delay comes before the release, which is the last effect; nothing,
    and so no delay, follows the release. *)
Lemma settle_delay_is_not_after_release :
  trace (handleChangeEvent_locked Scenario.trim Scenario.change 1 Scenario.ready) =
    [ESetLastCheck 200000; EPollerPoll 0 70000; EEmit "new-message" "m1"%string;
     EPollerPoll 1 70000; ETrimCaches; EWaitMs 100; ERelease] /\
  ~ (forall (event : FileChangeEvent) (arrivals : nat)
            (st : IMessageListener string Scenario.Keys),
       mtimeMs (currentStat event) > lastCheck st ->
       outcome (poll (mtimeMs (prevStat event) - 30000) true
                  (with_lastCheck (mtimeMs (currentStat event)) st)) = Returned tt ->
       (0 < waiting (processLock st) + arrivals)%nat ->
       In (EWaitMs 100)
          (afterRelease (trace (handleChangeEvent_locked Scenario.trim event arrivals st)))).
Proof.
  split; [vm_compute; reflexivity|].
  intros H. specialize (H Scenario.change 1%nat Scenario.ready).
  assert (Hfresh : mtimeMs (currentStat Scenario.change) > lastCheck Scenario.ready)
    by (vm_compute; reflexivity).
  assert (Hc : (0 < waiting (processLock Scenario.ready) + 1)%nat)
    by (vm_compute; constructor).
  specialize (H Hfresh eq_refl Hc). vm_compute in H. exact H.
Qed.

Lemma earliest_modified_date_is_a_minimum_witness :
  map Scenario.disk (filePaths Scenario.ready) = map Some [ {| mtimeMs := 100000 |} ] /\
  outcome (getEarliestModifiedDate 150000 Scenario.disk Scenario.ready)
    = Returned (earliestOf 150000 [ {| mtimeMs := 100000 |} ]) /\
  earliestOf 150000 [ {| mtimeMs := 100000 |} ] <= 150000 /\
  Forall (fun after => after <= 150000 - 60000)
    (pollAfters (trace (start 150000 Scenario.disk Scenario.ready))).
Proof.
  assert (H1 : map Scenario.disk (filePaths Scenario.ready)
               = map Some [ {| mtimeMs := 100000 |} ])
    by (vm_compute; reflexivity).
  split; [exact H1|].
  destruct (earliest_modified_date_is_a_minimum string Scenario.Keys
              150000 Scenario.disk Scenario.ready [ {| mtimeMs := 100000 |} ] H1)
    as [H2 [H3 [_ [_ [_ [_ H4]]]]]].
  split; [exact H2|]. split; [exact H3 | exact H4].
Defined.

Lemma getCacheName_identifies_guid_delivered_read_witness :
  Utils.guid Scenario.sent = Utils.guid Scenario.deliveredMessage /\
  Utils.delivered Scenario.sent <> Utils.delivered Scenario.deliveredMessage /\
  Utils.getCacheName Scenario.sent <> Utils.getCacheName Scenario.deliveredMessage /\
  Utils.getCacheName Scenario.deliveredMessage = "m1:1700000000000:0"%string.
Proof.
  assert (H1 : Utils.guid Scenario.sent = Utils.guid Scenario.deliveredMessage)
    by reflexivity.
  assert (H2 : Utils.delivered Scenario.sent <> Utils.delivered Scenario.deliveredMessage)
    by (vm_compute; intros E; discriminate E).
  split; [exact H1|]. split; [exact H2|].
  destruct (getCacheName_identifies_guid_delivered_read Scenario.sent
              Scenario.deliveredMessage) as [_ [_ [_ [_ [_ H3]]]]].
  split; [exact (H3 H1 (or_introl H2)) | vm_compute; reflexivity].
Defined.



(** * Properties of the other helpers *)
Section StringFacts.

Import JSString.
Local Open Scope string_scope.

Lemma list_ascii_of_string_app (a b : string) :
  list_ascii_of_string (a ++ b) =
  (list_ascii_of_string a ++ list_ascii_of_string b)%list.
Proof. induction a as [|c a IH]; [reflexivity|]. cbn. rewrite IH. reflexivity. Qed.

Lemma dropSlashes_name (l t : list ascii) :
  l <> [] -> forallb (fun c => negb (isSlash c)) (rev l) = true ->
  dropSlashes (rev l ++ t)%list = (rev l ++ t)%list.
Proof.
  intros Hne Hall. destruct (rev l) as [|c r] eqn:E.
  - apply (f_equal (@rev ascii)) in E. rewrite rev_involutive in E.
    cbn in E. contradiction.
  - cbn in Hall. apply andb_prop in Hall. destruct Hall as [Hc _].
    cbn. destruct (isSlash c); [discriminate | reflexivity].
Qed.

Lemma upToSlash_name (l t : list ascii) :
  forallb (fun c => negb (isSlash c)) l = true ->
  upToSlash (l ++ "/"%char :: t)%list = l.
Proof.
  induction l as [|c l IH]; intros Hall.
  - reflexivity.
  - cbn in Hall. apply andb_prop in Hall. destruct Hall as [Hc Hl].
    cbn. destruct (isSlash c); [discriminate|]. rewrite (IH Hl). reflexivity.
Qed.

Lemma forallb_rev (A : Type) (f : A -> bool) (l : list A) :
  forallb f (rev l) = forallb f l.
Proof.
  induction l as [|x l IH]; [reflexivity|].
  cbn. rewrite forallb_app, IH. cbn. rewrite andb_true_r. apply andb_comm.
Qed.

(** The base name of a file in a directory is the name of the file. *)
Lemma basename_in_directory (dir name : string) :
  name <> "" -> slashFree name = true ->
  basename (dir ++ "/" ++ name) = name.
Proof.
  intros Hne Hfree. unfold basename, slashFree in *.
  rewrite !list_ascii_of_string_app. cbn [list_ascii_of_string app].
  rewrite rev_app_distr. cbn [rev]. rewrite <- app_assoc. cbn [app].
  assert (Hl : list_ascii_of_string name <> []).
  { destruct name; [contradiction Hne; reflexivity | discriminate]. }
  rewrite dropSlashes_name by (try rewrite forallb_rev; assumption).
  rewrite upToSlash_name by (rewrite forallb_rev; assumption).
  rewrite rev_involutive. apply string_of_list_ascii_of_string.
Qed.

Lemma replaceFirst_absent (pat rep s : string) :
  contains pat s = false -> replaceFirst pat rep s = s.
Proof.
  induction s as [|c s IH]; intros H; cbn in *.
  - apply orb_false_iff in H. destruct H as [H _]. rewrite H. reflexivity.
  - apply orb_false_iff in H. destruct H as [H1 H2]. rewrite H1, (IH H2). reflexivity.
Qed.

Lemma startsWith_caf_before_mp3 (g : string) :
  startsWith ".caf" (g ++ ".mp3") = startsWith ".caf" g.
Proof.
  destruct g as [|c1 [|c2 [|c3 [|c4 g]]]]; cbn; try reflexivity;
    repeat (match goal with
            | |- context [Ascii.eqb ?a ?b] => destruct (Ascii.eqb a b)
            end; cbn; try reflexivity).
Qed.

Lemma contains_caf_before_mp3 (g : string) :
  contains ".caf" (g ++ ".mp3") = contains ".caf" g.
Proof.
  induction g as [|c g IH].
  - reflexivity.
  - change (contains ".caf" (String c g ++ ".mp3"))
      with (startsWith ".caf" (String c g ++ ".mp3") || contains ".caf" (g ++ ".mp3"))%bool.
    rewrite startsWith_caf_before_mp3, IH. reflexivity.
Qed.

Lemma slashFree_mp3 (g : string) : slashFree g = true -> slashFree (g ++ ".mp3") = true.
Proof.
  unfold slashFree. intros H. rewrite list_ascii_of_string_app, forallb_app, H.
  reflexivity.
Qed.

End StringFacts.

Section ConvertAudioFacts.

Import Helpers.

Variable convertDir : string.
Variable existsSync : string -> bool.
Variable convertCafToMp3 : Attachment -> string -> Outcome unit.

(** X12. When [convertAudio] returns a path, for an attachment whose guid has
    no slash and no ".caf" in it, the path is the file [<guid>.mp3] of the
    conversion directory, and the attachment object now has that path, the
    MIME type "audio/mp3" and the transfer name [<guid>.mp3], whatever its
    transfer name was; the guid is kept. *)
Theorem convertAudio_names_the_mp3_after_the_guid (attachment : Attachment)
        (path : string) :
  JSString.slashFree (guid attachment) = true ->
  JSString.contains ".caf" (guid attachment) = false ->
  outcome3 (convertAudio convertDir existsSync convertCafToMp3 attachment)
    = Returned (Some path) ->
  path = (convertDir ++ "/" ++ guid attachment ++ ".mp3")%string /\
  snd (fst (convertAudio convertDir existsSync convertCafToMp3 attachment)) =
    {| guid := guid attachment;
       transferName := (guid attachment ++ ".mp3")%string;
       mimeType := Value "audio/mp3"%string;
       filePath := Value path |}.
Proof.
  intros Hslash Hcaf Hret.
  assert (Hname : JSString.replaceFirst ".caf" ".mp3"
                    (JSString.basename (mp3Path convertDir attachment))
                  = (guid attachment ++ ".mp3")%string).
  { unfold mp3Path. rewrite basename_in_directory.
    - apply replaceFirst_absent. rewrite contains_caf_before_mp3. exact Hcaf.
    - destruct (guid attachment); discriminate.
    - apply slashFree_mp3. exact Hslash. }
  unfold outcome3, convertAudio in *.
  destruct (existsSync (mp3Path convertDir attachment)); cbn [negb] in *.
  - cbn [fst snd] in *. injection Hret as <-. unfold converted. rewrite Hname.
    split; reflexivity.
  - destruct (convertCafToMp3 attachment (mp3Path convertDir attachment));
      cbn [fst snd] in *; try discriminate.
    injection Hret as <-. unfold converted. rewrite Hname. split; reflexivity.
Qed.

(** X13. [convertAudio] never throws and converts at most once: it does not
    call the converter when the target file exists, and returns [null]
    exactly when the target is missing and the converter throws, in which
    case the attachment object is left as it was. *)
Theorem convertAudio_is_safe_and_converts_once (attachment : Attachment) :
  (forall error : string,
     outcome3 (convertAudio convertDir existsSync convertCafToMp3 attachment)
       <> Threw error) /\
  (List.length (conversions (snd (convertAudio convertDir existsSync
                                    convertCafToMp3 attachment))) <= 1)%nat /\
  (existsSync (mp3Path convertDir attachment) = true ->
   conversions (snd (convertAudio convertDir existsSync convertCafToMp3 attachment)) = []) /\
  (outcome3 (convertAudio convertDir existsSync convertCafToMp3 attachment)
     = Returned None <->
   existsSync (mp3Path convertDir attachment) = false /\
   exists error : string,
     convertCafToMp3 attachment (mp3Path convertDir attachment) = Threw error) /\
  (outcome3 (convertAudio convertDir existsSync convertCafToMp3 attachment)
     = Returned None ->
   snd (fst (convertAudio convertDir existsSync convertCafToMp3 attachment)) = attachment).
Proof.
  unfold outcome3, convertAudio.
  destruct (existsSync (mp3Path convertDir attachment)) eqn:Hex; cbn [negb].
  - cbn. split; [discriminate|]. split; [lia|]. split; [reflexivity|].
    split; [|discriminate].
    split; [discriminate | intros [H _]; discriminate H].
  - destruct (convertCafToMp3 attachment (mp3Path convertDir attachment))
      as [[] | error |] eqn:Hc; cbn.
    + split; [discriminate|]. split; [lia|]. split; [discriminate|].
      split; [|discriminate].
      split; [discriminate | intros [_ [e He]]; discriminate He].
    + split; [discriminate|]. split; [lia|]. split; [discriminate|].
      split; [|reflexivity].
      split; [intros _; split; [reflexivity | exists error; reflexivity] | reflexivity].
    + split; [discriminate|]. split; [lia|]. split; [discriminate|].
      split; [|discriminate].
      split; [discriminate | intros [_ [e He]]; discriminate He].
Qed.

End ConvertAudioFacts.

Section OverviewFacts.

Import Helpers.

Variable apiEventValue : ApiEvent -> string.

Lemma isNumber_true (n : Z) (v : Nullable Z) : isNumber n v = true <-> v = Value n.
Proof.
  destruct v as [| | m]; cbn; split; try discriminate.
  - intros H. apply Z.eqb_eq in H. subst. reflexivity.
  - intros H. injection H as ->. apply Z.eqb_refl.
Qed.

Lemma isNumber_false (n : Z) (v : Nullable Z) : isNumber n v = false <-> v <> Value n.
Proof.
  split.
  - intros H E. apply isNumber_true in E. rewrite E in H. discriminate.
  - intros H. destruct (isNumber n v) eqn:E; [|reflexivity].
    apply isNumber_true in E. contradiction.
Qed.

(** X14. [messageOverview] never throws, not even for a message that is
    [null] or [undefined]: the two accesses that would throw on such a
    message, [msg.text] and the call of [groupMessageType], are reached for
    a message with attachments or with an item type only. *)
Theorem messageOverview_never_throws (message : Nullable MessageDbSpec) :
  (exists overview : string, messageOverview apiEventValue message = Returned overview) /\
  (message = Null \/ message = Undefined ->
   groupMessageType message = Threw "TypeError" /\
   messageOverview apiEventValue message = Returned "Incoming Message: N/A"%string).
Proof.
  split.
  - unfold messageOverview. destruct message as [| | msg]; cbn [getOpt get groupMessageType].
    + eexists. reflexivity.
    + eexists. reflexivity.
    + repeat match goal with
             | |- context [if ?b then _ else _] => destruct b
             end; eexists; reflexivity.
  - intros [-> | ->]; split; reflexivity.
Qed.

(** X15. For a message without attachments and without text whose item type
    is 1, 2 or 3, [messageOverview] is "Group Event: " followed by the event
    that [groupMessageType] gives, and by "null" when it gives none, which
    is the case exactly for item type 1 with a group action that is neither
    0 nor 1. *)
Theorem messageOverview_of_a_group_event (msg : MessageDbSpec) :
  orElse (attachments msg) [] = [] ->
  truthyString (text msg) = false ->
  isGroupItem (itemType msg) = true ->
  exists event : option ApiEvent,
    groupMessageType (Value msg) = Returned event /\
    messageOverview apiEventValue (Value msg) =
      Returned ("Group Event: " ++ renderEvent apiEventValue event)%string /\
    (event = None <->
     itemType msg = Value 1 /\
     groupActionType msg <> Value 0 /\ groupActionType msg <> Value 1).
Proof.
  intros Hatt Htext Hitem.
  unfold messageOverview. cbn [getOpt]. rewrite Hatt, Htext, Hitem. cbn.
  eexists. split; [reflexivity|]. split; [reflexivity|].
  unfold isGroupItem in Hitem.
  destruct (isNumber 1 (itemType msg)) eqn:H1.
  - apply isNumber_true in H1. rewrite H1. cbn.
    destruct (isNumber 0 (groupActionType msg)) eqn:G0; cbn.
    + apply isNumber_true in G0. split; [discriminate|]. intros [_ [G _]]. contradiction.
    + destruct (isNumber 1 (groupActionType msg)) eqn:G1; cbn.
      * apply isNumber_true in G1. split; [discriminate|]. intros [_ [_ G]]. contradiction.
      * apply isNumber_false in G0, G1. split; [|reflexivity].
        intros _. repeat split; assumption.
  - cbn in Hitem. pose proof H1 as H1'. apply isNumber_false in H1'. cbn.
    destruct (isNumber 2 (itemType msg)) eqn:H2; cbn.
    + split; [discriminate|]. intros [E _]. contradiction.
    + cbn in Hitem. rewrite Hitem. split; [discriminate|]. intros [E _]. contradiction.
Qed.

(** X16. For a message with attachments, [messageOverview] tells their
    number first and looks at nothing but the number, the text and the
    sender: with a text of more than one UTF-16 code unit it adds the kind
    of message and the text, and with a shorter or absent text, such as the
    object replacement character alone, it is the number followed by
    " Attachments" alone, whatever the item type and the associated message
    are. *)
Theorem messageOverview_counts_attachments_first (msg : MessageDbSpec)
        (files : list Attachment) :
  attachments msg = Value files ->
  files <> [] ->
  ((1 < JSString.length (orElse (text msg) EmptyString))%nat ->
   messageOverview apiEventValue (Value msg) =
     Returned (Utils.numberToString (Z.of_nat (List.length files)) ++ " Attachments & "
               ++ (if truthyBool (isFromMe msg)
                   then "Outgoing Message" else "Incoming Message")
               ++ ": " ++ orElse (text msg) EmptyString)%string) /\
  ((JSString.length (orElse (text msg) EmptyString) <= 1)%nat ->
   messageOverview apiEventValue (Value msg) =
     Returned (Utils.numberToString (Z.of_nat (List.length files)) ++ " Attachments")%string).
Proof.
  intros Hatt Hne. unfold messageOverview. cbn [getOpt get]. rewrite Hatt. cbn [orElse].
  assert (Hpos : (0 <? List.length files)%nat = true).
  { destruct files; [contradiction Hne; reflexivity | reflexivity]. }
  rewrite Hpos. split; intros Hlen.
  - apply Nat.ltb_lt in Hlen. rewrite Hlen.
    destruct (text msg) as [| | s]; cbn in Hlen; try discriminate. reflexivity.
  - apply Nat.ltb_ge in Hlen. rewrite Hlen. reflexivity.
Qed.

End OverviewFacts.

Section ThemeFacts.

Import ThemeRouter.

Variable JSON : Type.
Variable saveTheme : JSON -> JSObject JSON -> Outcome unit.

Lemma setProperty_absent (k : string) (v : JSON) (o : JSObject JSON) :
  includes k (keys o) = false ->
  getProperty k o = None /\ setProperty k v o = (o ++ [(k, v)])%list.
Proof.
  induction o as [|[k' v'] rest IH]; intros H.
  - split; reflexivity.
  - cbn in H. apply orb_false_iff in H. destruct H as [Hk Hrest].
    rewrite String.eqb_sym in Hk. cbn. rewrite Hk.
    destruct (IH Hrest) as [H1 H2]. rewrite H1, H2. split; reflexivity.
Qed.

Lemma includes_true_present (k : string) (o : JSObject JSON) :
  includes k (keys o) = true -> exists v, getProperty k o = Some v.
Proof.
  induction o as [|[k' v'] rest IH]; intros H; [discriminate|].
  cbn in H. cbn. rewrite String.eqb_sym in H.
  destruct (String.eqb k' k); [eexists; reflexivity|].
  apply IH. exact H.
Qed.

Lemma getProperty_app_other (k k0 : string) (v : JSON) (o : JSObject JSON) :
  k <> k0 -> getProperty k (o ++ [(k0, v)]) = getProperty k o.
Proof.
  intros Hne. induction o as [|[k' v'] rest IH]; cbn.
  - destruct (String.eqb_spec k0 k); [subst; contradiction Hne; reflexivity | reflexivity].
  - rewrite IH. reflexivity.
Qed.

Lemma getProperty_app_new (k : string) (v : JSON) (o : JSObject JSON) :
  getProperty k o = None -> getProperty k (o ++ [(k, v)]) = Some v.
Proof.
  induction o as [|[k' v'] rest IH]; cbn; intros H.
  - rewrite String.eqb_refl. reflexivity.
  - destruct (String.eqb k' k); [discriminate | exact (IH H)].
Qed.

(** X17. [create] saves, once and under the name of the request, a theme
    that always carries a "name": the one the data had, which the name of
    the request does not replace, or else the name of the request, added as
    its last property; every other property is saved as it was sent. When
    the data of the request are missing it throws and saves nothing. *)
Theorem create_saves_a_theme_that_has_a_name (name : JSON) (o : JSObject JSON) :
  (exists saved : JSObject JSON,
     snd (create saveTheme name (Value o)) =
       (ESaveTheme name saved ::
        match saveTheme name saved with
        | Returned _ => [ESend "Successfully saved theme!"]
        | _ => []
        end)%list /\
     Helpers.outcome3 (create saveTheme name (Value o)) = saveTheme name saved /\
     snd (fst (create saveTheme name (Value o))) = Value saved /\
     getProperty "name" saved =
       Some (match getProperty "name" o with Some own => own | None => name end) /\
     keys saved =
       (if includes "name" (keys o) then keys o else keys o ++ ["name"%string])%list /\
     (forall k : string, k <> "name"%string -> getProperty k saved = getProperty k o)) /\
  create saveTheme name Null = (Threw "TypeError", Null, []) /\
  create saveTheme name Undefined = (Threw "TypeError", Undefined, []).
Proof.
  split; [|split; reflexivity].
  unfold create, Helpers.outcome3.
  destruct (includes "name" (keys o)) eqn:Hin; cbn [negb].
  - exists o. destruct (includes_true_present "name" o Hin) as [own Hown].
    rewrite Hown.
    destruct (saveTheme name o) as [[] | e |]; cbn;
      repeat split; reflexivity.
  - exists (o ++ [("name"%string, name)])%list.
    destruct (setProperty_absent "name" name o Hin) as [Hnone Hset].
    rewrite Hset, Hnone, (getProperty_app_new "name" name o Hnone).
    assert (Hkeys : keys (o ++ [("name"%string, name)]) = (keys o ++ ["name"%string])%list)
      by (unfold keys; rewrite map_app; reflexivity).
    assert (Hother : forall k : string, k <> "name"%string ->
              getProperty k (o ++ [("name"%string, name)]) = getProperty k o)
      by (intros k Hk; apply getProperty_app_other; exact Hk).
    destruct (saveTheme name (o ++ [("name"%string, name)])) as [[] | e |]; cbn;
      repeat split; try reflexivity; try exact Hkeys; try exact Hother.
Qed.

End ThemeFacts.

(** * The further properties at work *)

Lemma addPoller_registers_last_witness :
  outcome (poll 70000 true Scenario.ready) = Returned tt /\
  pollersInvoked
    (trace (poll 70000 true (final (addPoller Scenario.brokenPoller Scenario.ready))))
  = [0; 1; 2]%nat.
Proof.
  assert (H : outcome (poll 70000 true Scenario.ready) = Returned tt)
    by (vm_compute; reflexivity).
  split; [exact H|].
  destruct (addPoller_registers_last string Scenario.Keys Scenario.brokenPoller
              70000 true Scenario.ready) as [_ [Hlast _]].
  exact (Hlast H).
Defined.

Lemma handleChangeEvent_gives_the_token_up_witness :
  free (processLock Scenario.ready) = 1%nat /\
  outcome (handleChangeEvent Scenario.trim Scenario.change 2 Scenario.ready) = Returned tt /\
  processLock (final (handleChangeEvent Scenario.trim Scenario.change 2 Scenario.ready)) =
    {| free := 0; waiting := 1 |}.
Proof.
  assert (H1 : free (processLock Scenario.ready) = 1%nat) by reflexivity.
  assert (H2 : outcome (handleChangeEvent Scenario.trim Scenario.change 2 Scenario.ready)
               = Returned tt) by (vm_compute; reflexivity).
  split; [exact H1|]. split; [exact H2|].
  exact (handleChangeEvent_gives_the_token_up string Scenario.Keys Scenario.trim
           Scenario.change 2 Scenario.ready 0 H1 H2).
Defined.

Lemma lock_never_holds_more_than_one_token_witness :
  (free (processLock Scenario.ready) <= 1)%nat /\
  wellScheduled Scenario.trim MoreScenarios.busyDay 0 Scenario.ready = true /\
  map (fun n => processLock (runOps Scenario.trim (firstn n MoreScenarios.busyDay)
                               Scenario.ready)) [1; 2; 4; 5]%nat =
    [ {| free := 0; waiting := 0 |}; {| free := 0; waiting := 1 |};
      {| free := 0; waiting := 0 |}; {| free := 1; waiting := 0 |} ] /\
  (free (processLock (runOps Scenario.trim MoreScenarios.busyDay Scenario.ready))
   + owedAfter Scenario.trim MoreScenarios.busyDay 0 Scenario.ready <= 1)%nat.
Proof.
  assert (H1 : (free (processLock Scenario.ready) <= 1)%nat) by (vm_compute; constructor).
  assert (H2 : wellScheduled Scenario.trim MoreScenarios.busyDay 0 Scenario.ready = true)
    by (vm_compute; reflexivity).
  split; [exact H1|]. split; [exact H2|]. split; [vm_compute; reflexivity|].
  exact (lock_never_holds_more_than_one_token string Scenario.Keys Scenario.trim
           MoreScenarios.busyDay Scenario.ready H1 H2).
Defined.

Lemma handled_change_shadows_older_changes_witness :
  free (processLock Scenario.ready) <> 0%nat /\
  mtimeMs (currentStat Scenario.change) <= mtimeMs (currentStat Scenario.change2) /\
  pollersInvoked
    (trace (handleChangeEvent Scenario.trim Scenario.change 0
              (final (handleChangeEvent Scenario.trim Scenario.change2 0 Scenario.ready))))
  = [].
Proof.
  assert (H1 : free (processLock Scenario.ready) <> 0%nat)
    by (vm_compute; intros E; discriminate E).
  assert (H2 : mtimeMs (currentStat Scenario.change)
               <= mtimeMs (currentStat Scenario.change2))
    by (vm_compute; intros E; discriminate E).
  split; [exact H1|]. split; [exact H2|].
  exact (proj1 (handled_change_shadows_older_changes string Scenario.Keys Scenario.trim
                  Scenario.change2 Scenario.change 0 0 Scenario.ready H1 H2)).
Defined.

Lemma failed_poll_keeps_the_lock_witness :
  free (processLock Scenario.unlucky) = 1%nat /\
  mtimeMs (currentStat Scenario.change) > lastCheck Scenario.unlucky /\
  outcome (poll (mtimeMs (prevStat Scenario.change) - 30000) true Scenario.unlucky)
    = Threw "SQLITE_BUSY" /\
  lastCheck (final (handleChangeEvent Scenario.trim Scenario.change 0 Scenario.unlucky))
    = 200000 /\
  outcome (handleChangeEvent Scenario.trim Scenario.change2 0
             (final (handleChangeEvent Scenario.trim Scenario.change 0 Scenario.unlucky)))
    = Pending.
Proof.
  assert (H1 : free (processLock Scenario.unlucky) = 1%nat) by reflexivity.
  assert (H2 : mtimeMs (currentStat Scenario.change) > lastCheck Scenario.unlucky)
    by (vm_compute; reflexivity).
  assert (H3 : outcome (poll (mtimeMs (prevStat Scenario.change) - 30000) true
                          Scenario.unlucky) = Threw "SQLITE_BUSY")
    by (vm_compute; reflexivity).
  split; [exact H1|]. split; [exact H2|]. split; [exact H3|].
  destruct (failed_poll_keeps_the_lock string Scenario.Keys Scenario.trim
              Scenario.change 0 Scenario.unlucky "SQLITE_BUSY" H1 H2 H3)
    as [_ [Hl [_ [_ [_ Hlater]]]]].
  split; [exact Hl | exact (proj1 (Hlater Scenario.change2 0%nat))].
Defined.

Lemma getEarliestModifiedDate_fails_at_unreadable_path_witness :
  filePaths MoreScenarios.threeFiles =
    ["chat.db"%string] ++ "chat.db-shm"%string :: ["chat.db-wal"%string] /\
  map Scenario.disk ["chat.db"%string] = map Some [ {| mtimeMs := 100000 |} ] /\
  Scenario.disk "chat.db-shm" = None /\
  getEarliestModifiedDate 150000 Scenario.disk MoreScenarios.threeFiles =
    (Threw "ENOENT", MoreScenarios.threeFiles, [EStat "chat.db"; EStat "chat.db-shm"]).
Proof.
  assert (H1 : filePaths MoreScenarios.threeFiles =
               ["chat.db"%string] ++ "chat.db-shm"%string :: ["chat.db-wal"%string])
    by reflexivity.
  assert (H2 : map Scenario.disk ["chat.db"%string] = map Some [ {| mtimeMs := 100000 |} ])
    by reflexivity.
  assert (H3 : Scenario.disk "chat.db-shm" = None) by reflexivity.
  split; [exact H1|]. split; [exact H2|]. split; [exact H3|].
  exact (getEarliestModifiedDate_fails_at_unreadable_path string Scenario.Keys
           150000 Scenario.disk MoreScenarios.threeFiles
           ["chat.db"%string] ["chat.db-wal"%string] "chat.db-shm"
           [ {| mtimeMs := 100000 |} ] H1 H2 H3).
Defined.

Lemma start_fails_on_unreadable_path_witness :
  filePaths MoreScenarios.threeFiles =
    ["chat.db"%string] ++ "chat.db-shm"%string :: ["chat.db-wal"%string] /\
  map Scenario.disk ["chat.db"%string] = map Some [ {| mtimeMs := 100000 |} ] /\
  Scenario.disk "chat.db-shm" = None /\
  outcome (start 150000 Scenario.disk MoreScenarios.threeFiles) = Threw "ENOENT" /\
  pollersInvoked (trace (start 150000 Scenario.disk MoreScenarios.threeFiles)) = [].
Proof.
  assert (H1 : filePaths MoreScenarios.threeFiles =
               ["chat.db"%string] ++ "chat.db-shm"%string :: ["chat.db-wal"%string])
    by reflexivity.
  assert (H2 : map Scenario.disk ["chat.db"%string] = map Some [ {| mtimeMs := 100000 |} ])
    by reflexivity.
  assert (H3 : Scenario.disk "chat.db-shm" = None) by reflexivity.
  split; [exact H1|]. split; [exact H2|]. split; [exact H3|].
  destruct (start_fails_on_unreadable_path string Scenario.Keys
              150000 Scenario.disk MoreScenarios.threeFiles
              ["chat.db"%string] ["chat.db-wal"%string] "chat.db-shm"
              [ {| mtimeMs := 100000 |} ] H1 H2 H3) as [Ho [_ [Hi _]]].
  split; [exact Ho | exact Hi].
Defined.

Lemma start_keeps_registry_lock_and_subscribers_witness :
  outcome (start 150000 Scenario.disk MoreScenarios.threeFiles) <> Returned tt /\
  watcher (final (start 150000 Scenario.disk MoreScenarios.threeFiles)) =
    watcher MoreScenarios.threeFiles /\
  pollers (final (start 150000 Scenario.disk MoreScenarios.threeFiles)) =
    pollers MoreScenarios.threeFiles.
Proof.
  assert (H : outcome (start 150000 Scenario.disk MoreScenarios.threeFiles) <> Returned tt)
    by (vm_compute; intros E; discriminate E).
  split; [exact H|].
  destruct (start_keeps_registry_lock_and_subscribers string Scenario.Keys
              150000 Scenario.disk MoreScenarios.threeFiles)
    as [Hp [_ [_ [_ [_ [Hw _]]]]]].
  split; [exact (proj1 (Hw H)) | exact Hp].
Defined.

Lemma getEarliestModifiedDate_ignores_path_order_witness :
  Permutation (filePaths MoreScenarios.forward) (filePaths MoreScenarios.backward) /\
  Forall (fun p => MoreScenarios.disk2 p <> None) (filePaths MoreScenarios.forward) /\
  exists d : Date,
    outcome (getEarliestModifiedDate 150000 MoreScenarios.disk2 MoreScenarios.forward)
      = Returned d /\
    outcome (getEarliestModifiedDate 150000 MoreScenarios.disk2 MoreScenarios.backward)
      = Returned d.
Proof.
  assert (H1 : Permutation (filePaths MoreScenarios.forward)
                 (filePaths MoreScenarios.backward))
    by (apply perm_swap).
  assert (H2 : Forall (fun p => MoreScenarios.disk2 p <> None)
                 (filePaths MoreScenarios.forward))
    by (repeat constructor; vm_compute; intros E; discriminate E).
  split; [exact H1|]. split; [exact H2|].
  exact (getEarliestModifiedDate_ignores_path_order string Scenario.Keys
           150000 MoreScenarios.disk2 MoreScenarios.forward MoreScenarios.backward H1 H2).
Defined.

Lemma convertAudio_names_the_mp3_after_the_guid_witness :
  JSString.slashFree (Helpers.guid MoreScenarios.voice) = true /\
  JSString.contains ".caf" (Helpers.guid MoreScenarios.voice) = false /\
  Helpers.outcome3
    (Helpers.convertAudio "/conv" MoreScenarios.noFile MoreScenarios.converts
       MoreScenarios.voice) = Returned (Some "/conv/at_0_7C3B.mp3"%string) /\
  Helpers.transferName
    (snd (fst (Helpers.convertAudio "/conv" MoreScenarios.noFile MoreScenarios.converts
                 MoreScenarios.voice))) = "at_0_7C3B.mp3"%string.
Proof.
  assert (H1 : JSString.slashFree (Helpers.guid MoreScenarios.voice) = true)
    by (vm_compute; reflexivity).
  assert (H2 : JSString.contains ".caf" (Helpers.guid MoreScenarios.voice) = false)
    by (vm_compute; reflexivity).
  assert (H3 : Helpers.outcome3
                 (Helpers.convertAudio "/conv" MoreScenarios.noFile MoreScenarios.converts
                    MoreScenarios.voice) = Returned (Some "/conv/at_0_7C3B.mp3"%string))
    by (vm_compute; reflexivity).
  split; [exact H1|]. split; [exact H2|]. split; [exact H3|].
  destruct (convertAudio_names_the_mp3_after_the_guid "/conv" MoreScenarios.noFile
              MoreScenarios.converts MoreScenarios.voice _ H1 H2 H3) as [_ Hobj].
  rewrite Hobj. reflexivity.
Defined.

Lemma convertAudio_is_safe_and_converts_once_witness :
  MoreScenarios.noFile (Helpers.mp3Path "/conv" MoreScenarios.voice) = false /\
  MoreScenarios.breaks MoreScenarios.voice (Helpers.mp3Path "/conv" MoreScenarios.voice)
    = Threw "ffmpeg exited with code 1" /\
  Helpers.outcome3
    (Helpers.convertAudio "/conv" MoreScenarios.noFile MoreScenarios.breaks
       MoreScenarios.voice) = Returned None /\
  snd (fst (Helpers.convertAudio "/conv" MoreScenarios.noFile MoreScenarios.breaks
              MoreScenarios.voice)) = MoreScenarios.voice.
Proof.
  destruct (convertAudio_is_safe_and_converts_once "/conv" MoreScenarios.noFile
              MoreScenarios.breaks MoreScenarios.voice) as [_ [_ [_ [Hiff Hsame]]]].
  assert (H1 : MoreScenarios.noFile (Helpers.mp3Path "/conv" MoreScenarios.voice) = false)
    by reflexivity.
  assert (H2 : MoreScenarios.breaks MoreScenarios.voice
                 (Helpers.mp3Path "/conv" MoreScenarios.voice)
               = Threw "ffmpeg exited with code 1") by reflexivity.
  split; [exact H1|]. split; [exact H2|].
  assert (H3 : Helpers.outcome3
                 (Helpers.convertAudio "/conv" MoreScenarios.noFile MoreScenarios.breaks
                    MoreScenarios.voice) = Returned None)
    by (apply (proj2 Hiff); split; [exact H1 | eexists; exact H2]).
  split; [exact H3 | exact (Hsame H3)].
Defined.

Lemma messageOverview_never_throws_witness :
  (@Null Helpers.MessageDbSpec = Null \/ @Null Helpers.MessageDbSpec = Undefined) /\
  Helpers.groupMessageType Null = Threw "TypeError" /\
  Helpers.messageOverview MoreScenarios.eventName Null
    = Returned "Incoming Message: N/A"%string.
Proof.
  assert (H : @Null Helpers.MessageDbSpec = Null \/ @Null Helpers.MessageDbSpec = Undefined)
    by (left; reflexivity).
  split; [exact H|].
  exact (proj2 (messageOverview_never_throws MoreScenarios.eventName Null) H).
Defined.

Lemma messageOverview_of_a_group_event_witness :
  Helpers.orElse (Helpers.attachments MoreScenarios.oddGroupAction) [] = [] /\
  Helpers.truthyString (Helpers.text MoreScenarios.oddGroupAction) = false /\
  Helpers.isGroupItem (Helpers.itemType MoreScenarios.oddGroupAction) = true /\
  Helpers.messageOverview MoreScenarios.eventName (Value MoreScenarios.oddGroupAction)
    = Returned "Group Event: null"%string.
Proof.
  assert (H1 : Helpers.orElse (Helpers.attachments MoreScenarios.oddGroupAction) [] = [])
    by reflexivity.
  assert (H2 : Helpers.truthyString (Helpers.text MoreScenarios.oddGroupAction) = false)
    by reflexivity.
  assert (H3 : Helpers.isGroupItem (Helpers.itemType MoreScenarios.oddGroupAction) = true)
    by reflexivity.
  split; [exact H1|]. split; [exact H2|]. split; [exact H3|].
  destruct (messageOverview_of_a_group_event MoreScenarios.eventName
              MoreScenarios.oddGroupAction H1 H2 H3) as [event [Hg [Ho Hnone]]].
  assert (He : event = None).
  { apply (proj2 Hnone). split; [reflexivity|]. split; intros E; discriminate E. }
  rewrite Ho, He. reflexivity.
Defined.

Lemma messageOverview_counts_attachments_first_witness :
  String.length MoreScenarios.placeholder = 3%nat /\
  (JSString.length (Helpers.orElse (Helpers.text MoreScenarios.twoPhotos) EmptyString)
   <= 1)%nat /\
  Helpers.messageOverview MoreScenarios.eventName (Value MoreScenarios.twoPhotos)
    = Returned "2 Attachments"%string /\
  (1 < JSString.length
         (Helpers.orElse (Helpers.text MoreScenarios.captionedPhotos) EmptyString))%nat /\
  Helpers.messageOverview MoreScenarios.eventName (Value MoreScenarios.captionedPhotos)
    = Returned ("2 Attachments & Outgoing Message: " ++ MoreScenarios.placeholder ++ "Hi")%string.
Proof.
  assert (H0 : Helpers.attachments MoreScenarios.twoPhotos
               = Value [MoreScenarios.voice; MoreScenarios.voice]) by reflexivity.
  assert (H1 : Helpers.attachments MoreScenarios.captionedPhotos
               = Value [MoreScenarios.voice; MoreScenarios.voice]) by reflexivity.
  assert (H2 : [MoreScenarios.voice; MoreScenarios.voice] <> []) by discriminate.
  assert (H3 : (JSString.length
                  (Helpers.orElse (Helpers.text MoreScenarios.twoPhotos) EmptyString)
                <= 1)%nat) by (vm_compute; constructor).
  assert (H4 : (1 < JSString.length
                      (Helpers.orElse (Helpers.text MoreScenarios.captionedPhotos)
                         EmptyString))%nat) by (vm_compute; repeat constructor).
  split; [reflexivity|]. split; [exact H3|].
  destruct (messageOverview_counts_attachments_first MoreScenarios.eventName
              MoreScenarios.twoPhotos _ H0 H2) as [_ Hshort].
  destruct (messageOverview_counts_attachments_first MoreScenarios.eventName
              MoreScenarios.captionedPhotos _ H1 H2) as [Hlong _].
  split; [rewrite (Hshort H3); reflexivity|]. split; [exact H4|].
  rewrite (Hlong H4). reflexivity.
Defined.

Lemma create_saves_a_theme_that_has_a_name_witness :
  exists saved : ThemeRouter.JSObject string,
    snd (fst (ThemeRouter.create MoreScenarios.saves "Ocean"%string
                (Value MoreScenarios.colours))) = Value saved /\
    ThemeRouter.getProperty "name" saved = Some "Ocean"%string /\
    ThemeRouter.getProperty "primary" saved = Some "#2772C3"%string.
Proof.
  destruct (create_saves_a_theme_that_has_a_name string MoreScenarios.saves
              "Ocean"%string MoreScenarios.colours)
    as [[saved [_ [_ [Hobj [Hname [_ Hother]]]]]] _].
  exists saved. split; [exact Hobj|]. split; [exact Hname|].
  rewrite (Hother "primary"%string) by discriminate. reflexivity.
Defined.

(** * Properties of the FaceTime status handler *)
Section FaceTimeFacts.

Import FaceTime.

Variable EventCache : Type.
Variable find : EventCache -> string -> bool.
Variable add : EventCache -> string -> EventCache.
Variable slugifyAddress : string -> string.
Variable HandleRow : Type.
Variable HandleResponse : Type.
Variable getHandles : string -> Outcome (list HandleRow).
Variable serialize : HandleRow -> Outcome HandleResponse.
Variable isMinVentura : bool.
Variable answerAndWaitForLink : string -> Outcome string.

Local Abbreviation Output := (FaceTimeStatusData HandleResponse).
Local Abbreviation Effects := (list (CallEffect HandleResponse)).
Local Abbreviation run :=
  (handle EventCache find add slugifyAddress HandleRow HandleResponse
     getHandles serialize isMinVentura answerAndWaitForLink).
Local Abbreviation runFinish :=
  (finish EventCache HandleResponse isMinVentura answerAndWaitForLink).
Local Abbreviation runLookUp :=
  (lookUpAndSend EventCache slugifyAddress HandleRow HandleResponse
     getHandles serialize isMinVentura answerAndWaitForLink).

Lemma emissions_app (t1 t2 : Effects) :
  emissions HandleResponse (t1 ++ t2) =
  emissions HandleResponse t1 ++ emissions HandleResponse t2.
Proof.
  induction t1 as [|e t1 IH]; [reflexivity|].
  destruct e; cbn; rewrite IH; reflexivity.
Qed.

(** The last step sends the payload it was given, with or without a link,
    or nothing, and leaves the cache alone. *)
Lemma finish_sends (data : CallData) (output : Output) (cache : EventCache)
      (before : Effects) :
  snd (fst (runFinish data output cache before)) = cache /\
  exists sent : list Output,
    emissions HandleResponse (snd (runFinish data output cache before)) =
      emissions HandleResponse before ++ sent /\
    (sent = [] \/ sent = [output] \/
     exists link : string, sent = [withUrl HandleResponse link output]).
Proof.
  unfold finish.
  destruct (Z.eqb (call_status data) 4 && isMinVentura)%bool.
  - destruct (answerAndWaitForLink (call_uuid data)) as [link | e |];
      cbn [fst snd]; (split; [reflexivity|]); rewrite emissions_app.
    + exists [withUrl HandleResponse link output]. split; [reflexivity|].
      right. right. exists link. reflexivity.
    + exists [output]. split; [reflexivity|]. right. left. reflexivity.
    + exists []. split; [reflexivity|]. left. reflexivity.
  - destruct (Z.eqb (call_status data) 6 && isMinVentura)%bool;
      cbn [fst snd]; (split; [reflexivity|]); rewrite emissions_app;
      exists [output]; (split; [reflexivity|]); right; left; reflexivity.
Qed.

Lemma lookUpAndSend_sends (data : CallData) (h : HandleRef) (cache : EventCache)
      (before : Effects) :
  snd (fst (runLookUp data h cache before)) = cache /\
  exists sent : list Output,
    emissions HandleResponse (snd (runLookUp data h cache before)) =
      emissions HandleResponse before ++ sent /\
    (sent = [] \/
     exists (serialized : Nullable HandleResponse),
       sent = [buildOutput HandleResponse data h serialized] \/
       exists link : string,
         sent = [withUrl HandleResponse link (buildOutput HandleResponse data h serialized)]).
Proof.
  assert (Hquery : forall addr : string,
            emissions HandleResponse (before ++ [FGetHandles HandleResponse addr]) =
            emissions HandleResponse before)
    by (intros addr; rewrite emissions_app; cbn; apply app_nil_r).
  assert (Hnone : snd (fst (Threw "x" : Outcome unit, cache, before)) = cache) by reflexivity.
  unfold lookUpAndSend.
  destruct (getHandles (slugifyAddress (value h))) as [rows | e |]; cbn [fst snd].
  - assert (Hfin : forall serialized : Nullable HandleResponse,
              snd (fst (runFinish data (buildOutput HandleResponse data h serialized) cache
                          (before ++ [FGetHandles HandleResponse
                                        (slugifyAddress (value h))]))) = cache /\
              exists sent : list Output,
                emissions HandleResponse
                  (snd (runFinish data (buildOutput HandleResponse data h serialized) cache
                          (before ++ [FGetHandles HandleResponse
                                        (slugifyAddress (value h))]))) =
                  emissions HandleResponse before ++ sent /\
                (sent = [] \/
                 exists (serialized0 : Nullable HandleResponse),
                   sent = [buildOutput HandleResponse data h serialized0] \/
                   exists link : string,
                     sent = [withUrl HandleResponse link
                               (buildOutput HandleResponse data h serialized0)])).
    { intros serialized.
      destruct (finish_sends data (buildOutput HandleResponse data h serialized) cache
                  (before ++ [FGetHandles HandleResponse (slugifyAddress (value h))]))
        as [Hc [sent [He Hs]]].
      split; [exact Hc|]. exists sent. rewrite He, Hquery. split; [reflexivity|].
      destruct Hs as [-> | [-> | [link ->]]].
      - left. reflexivity.
      - right. exists serialized. left. reflexivity.
      - right. exists serialized. right. exists link. reflexivity. }
    destruct rows as [|row rest]; [apply Hfin|].
    destruct (serialize row) as [response | e |]; cbn [fst snd].
    + apply Hfin.
    + split; [reflexivity|]. exists []. rewrite Hquery, app_nil_r.
      split; [reflexivity | left; reflexivity].
    + split; [reflexivity|]. exists []. rewrite Hquery, app_nil_r.
      split; [reflexivity | left; reflexivity].
  - split; [reflexivity|]. exists []. rewrite Hquery, app_nil_r.
    split; [reflexivity | left; reflexivity].
  - split; [reflexivity|]. exists []. rewrite Hquery, app_nil_r.
    split; [reflexivity | left; reflexivity].
Qed.

Lemma status_of_output (data : CallData) (h : HandleRef)
      (serialized : Nullable HandleResponse) :
  call_status data <> 1 -> call_status data <> 3 ->
  status HandleResponse (buildOutput HandleResponse data h serialized) = "incoming"%string \/
  status HandleResponse (buildOutput HandleResponse data h serialized) = "disconnected"%string \/
  status HandleResponse (buildOutput HandleResponse data h serialized) = "unknown"%string.
Proof.
  intros H1 H3. cbn. unfold callStatusMap.
  destruct (Z.eqb_spec (call_status data) 1); [contradiction|].
  destruct (Z.eqb_spec (call_status data) 3); [contradiction|].
  destruct (Z.eqb (call_status data) 4); [left; reflexivity|].
  destruct (Z.eqb (call_status data) 6); [right; left; reflexivity|].
  right. right. reflexivity.
Qed.

(** X18. [handle] sends at most one payload, and only for an event with a
    handle whose call status is neither 1 nor 3: the payload carries the
    call's uuid and status number and the address of the handle, and its
    status is "incoming", "disconnected" or "unknown", never the "answered"
    or "outgoing" of the status map. *)
Theorem handle_never_reports_answered_or_outgoing (data : CallData)
        (cache : EventCache) :
  (List.length (emissions HandleResponse (snd (run data cache))) <= 1)%nat /\
  (forall output : Output,
     In output (emissions HandleResponse (snd (run data cache))) ->
     call_status data <> 1 /\ call_status data <> 3 /\
     (exists h : HandleRef, data_handle data = Value h /\
        address HandleResponse output = value h) /\
     uuid HandleResponse output = call_uuid data /\
     status_id HandleResponse output = call_status data /\
     (status HandleResponse output = "incoming"%string \/
      status HandleResponse output = "disconnected"%string \/
      status HandleResponse output = "unknown"%string)).
Proof.
  assert (Hsent : forall (h : HandleRef) (c : EventCache) (before : Effects),
            emissions HandleResponse before = [] ->
            call_status data <> 1 -> call_status data <> 3 ->
            data_handle data = Value h ->
            (List.length (emissions HandleResponse (snd (runLookUp data h c before)))
             <= 1)%nat /\
            (forall output : Output,
               In output (emissions HandleResponse (snd (runLookUp data h c before))) ->
               call_status data <> 1 /\ call_status data <> 3 /\
               (exists h0 : HandleRef, data_handle data = Value h0 /\
                  address HandleResponse output = value h0) /\
               uuid HandleResponse output = call_uuid data /\
               status_id HandleResponse output = call_status data /\
               (status HandleResponse output = "incoming"%string \/
                status HandleResponse output = "disconnected"%string \/
                status HandleResponse output = "unknown"%string))).
  { intros h c before Hbefore H1 H3 Hh.
    destruct (lookUpAndSend_sends data h c before) as [_ [sent [He Hs]]].
    rewrite He, Hbefore. cbn [app].
    destruct Hs as [-> | [serialized [-> | [link ->]]]].
    - split; [cbn; lia | intros output []].
    - split; [cbn; lia|]. intros output [<- | []].
      split; [exact H1|]. split; [exact H3|].
      split; [exists h; split; [exact Hh | reflexivity]|].
      split; [reflexivity|]. split; [reflexivity|].
      apply status_of_output; assumption.
    - split; [cbn; lia|]. intros output [<- | []].
      split; [exact H1|]. split; [exact H3|].
      split; [exists h; split; [exact Hh | reflexivity]|].
      split; [reflexivity|]. split; [reflexivity|].
      apply (status_of_output data h serialized); assumption. }
  unfold handle.
  destruct (Z.eqb_spec (call_status data) 1) as [E1 | N1]; cbn [orb].
  - split; [cbn; lia | intros output []].
  - destruct (Z.eqb_spec (call_status data) 3) as [E3 | N3].
    + split; [cbn; lia | intros output []].
    + destruct (data_handle data) as [| | h] eqn:Hh.
      * split; [cbn; lia | intros output []].
      * split; [cbn; lia | intros output []].
      * destruct (Z.eqb (call_status data) 4).
        -- destruct (find cache (incomingId data)).
           ++ split; [cbn; lia | intros output []].
           ++ apply Hsent; [reflexivity | assumption | assumption | reflexivity].
        -- apply Hsent; [reflexivity | assumption | assumption | reflexivity].
Qed.

(** X19. An incoming call that [handle] has seen is not handled again: with
    an event cache that finds what was added to it, a second [handle] of
    the same event only asks the cache and returns, with no query and no
    payload, however the first one ended, be it with an exception. *)
Theorem handle_sees_an_incoming_call_once (data : CallData) (cache : EventCache)
        (h : HandleRef) :
  (forall (c : EventCache) (id : string), find (add c id) id = true) ->
  call_status data = 4 ->
  data_handle data = Value h ->
  run data (snd (fst (run data cache))) =
  (Returned tt, snd (fst (run data cache)),
   [FFind HandleResponse (incomingId data)]).
Proof.
  intros Hlaw Hstatus Hh.
  assert (Hseen : find (snd (fst (run data cache))) (incomingId data) = true).
  { unfold handle. rewrite Hstatus, Hh. cbn [Z.eqb Pos.eqb orb].
    destruct (find cache (incomingId data)) eqn:Hfind.
    - cbn [fst snd]. exact Hfind.
    - destruct (lookUpAndSend_sends data h (add cache (incomingId data))
                  [FFind HandleResponse (incomingId data);
                   FAdd HandleResponse (incomingId data)]) as [Hc _].
      rewrite Hc. apply Hlaw. }
  unfold handle at 1. rewrite Hstatus, Hh. cbn [Z.eqb Pos.eqb orb].
  rewrite Hseen. reflexivity.
Qed.

(** X20. For an incoming call on a system that can answer it, seen for the
    first time and whose handle rows are found and serialized, the payload
    is sent once the wait for the link is over: with the link as its url
    when the wait returns one, and without a url when the wait throws;
    while the wait is pending nothing is sent. The call is in the cache in
    all three cases. *)
Theorem handle_sends_an_incoming_call_with_or_without_link (data : CallData)
        (cache : EventCache) (h : HandleRef) (rows : list HandleRow)
        (serialized : Nullable HandleResponse) :
  call_status data = 4 ->
  isMinVentura = true ->
  data_handle data = Value h ->
  find cache (incomingId data) = false ->
  getHandles (slugifyAddress (value h)) = Returned rows ->
  (rows = [] /\ serialized = Null \/
   exists (row : HandleRow) (rest : list HandleRow) (response : HandleResponse),
     rows = row :: rest /\ serialize row = Returned response /\
     serialized = Value response) ->
  snd (fst (run data cache)) = add cache (incomingId data) /\
  emissions HandleResponse (snd (run data cache)) =
    match answerAndWaitForLink (call_uuid data) with
    | Returned link =>
        [withUrl HandleResponse link (buildOutput HandleResponse data h serialized)]
    | Threw _ => [buildOutput HandleResponse data h serialized]
    | Pending => []
    end /\
  fst (fst (run data cache)) =
    match answerAndWaitForLink (call_uuid data) with
    | Pending => Pending
    | _ => Returned tt
    end.
Proof.
  intros Hstatus Hventura Hh Hfind Hrows Hser.
  unfold handle. rewrite Hstatus, Hh. cbn [Z.eqb Pos.eqb orb].
  rewrite Hfind.
  unfold lookUpAndSend. rewrite Hrows.
  assert (Hfin : forall before : Effects,
            emissions HandleResponse before = [] ->
            snd (fst (runFinish data (buildOutput HandleResponse data h serialized)
                        (add cache (incomingId data)) before))
              = add cache (incomingId data) /\
            emissions HandleResponse
              (snd (runFinish data (buildOutput HandleResponse data h serialized)
                      (add cache (incomingId data)) before)) =
              match answerAndWaitForLink (call_uuid data) with
              | Returned link =>
                  [withUrl HandleResponse link (buildOutput HandleResponse data h serialized)]
              | Threw _ => [buildOutput HandleResponse data h serialized]
              | Pending => []
              end /\
            fst (fst (runFinish data (buildOutput HandleResponse data h serialized)
                        (add cache (incomingId data)) before)) =
              match answerAndWaitForLink (call_uuid data) with
              | Pending => Pending
              | _ => Returned tt
              end).
  { intros before Hbefore. unfold finish. rewrite Hstatus, Hventura.
    cbn [Z.eqb Pos.eqb andb].
    destruct (answerAndWaitForLink (call_uuid data)) as [link | e |];
      cbn [fst snd]; rewrite emissions_app, Hbefore; repeat split. }
  destruct Hser as [[-> ->] | [row [rest [response [-> [Hrow ->]]]]]].
  - apply Hfin. reflexivity.
  - rewrite Hrow. apply Hfin. reflexivity.
Qed.

End FaceTimeFacts.

(** * Properties of the attachment helpers *)
Section BlurHashFacts.

Import BlurHash.

Variable Image : Type.
Variable Bitmap : Type.
Variable getSize : Image -> NativeImage.Size.
Variable resize : Image -> Z -> Image.
Variable toBitmap : Image -> Bitmap.
Variable blurHashEncode : Bitmap -> Z -> Z -> Z -> Z -> Try string.

(** X21. With an image library whose [resize] to width 320 gives an image no
    wider than that, [getBlurHash] hands the encoder the bitmap, the width
    and the height of one and the same image, with 3 by 3 components: the
    image given when it is at most 320 wide, its resized copy otherwise; so
    the encoder never gets an image wider than 320. The result is the hash
    of that call, or [null] when the encoder throws. *)
Theorem getBlurHash_encodes_no_image_wider_than_320 (image : Image) :
  (forall img : Image, NativeImage.width (getSize (resize img 320)) <= 320) ->
  exists img : Image,
    encoderCall Image Bitmap getSize resize toBitmap image =
      (toBitmap img, NativeImage.width (getSize img),
       NativeImage.height (getSize img), 3, 3) /\
    NativeImage.width (getSize img) <= 320 /\
    (NativeImage.width (getSize image) <= 320 -> img = image) /\
    (320 < NativeImage.width (getSize image) -> img = resize image 320) /\
    getBlurHash Image Bitmap getSize resize toBitmap blurHashEncode image =
      match blurHashEncode (toBitmap img) (NativeImage.width (getSize img))
              (NativeImage.height (getSize img)) 3 3 with
      | Done hash => Value hash
      | Exception _ => Null
      end.
Proof.
  intros Hresize.
  exists (calcImage Image getSize resize image).
  split; [reflexivity|].
  unfold calcImage at 1 2 3.
  destruct (Z.gtb_spec (NativeImage.width (getSize image)) 320) as [Hwide | Hfits].
  - split; [apply Hresize|]. split; [lia|]. split; reflexivity.
  - split; [exact Hfits|]. split; [reflexivity|]. split; [lia | reflexivity].
Qed.

End BlurHashFacts.

Section AttachmentResponseFacts.

Import AttachmentEntity.

Variable Disk : Type.
Variable Bytes : Type.
Variable Image : Type.
Variable Bitmap : Type.
Variable getRealPath : string -> string.
Variable convertDir : string.
Variable existsSync : Disk -> string -> bool.
Variable readFileSync : Disk -> string -> Try Bytes.
Variable convertCafToMp3 : Disk -> Attachment -> string -> Outcome unit * Disk.
Variable createFromPath : Disk -> string -> Image.
Variable getSize : Image -> NativeImage.Size.
Variable resize : Image -> Z -> Image.
Variable toBitmap : Image -> Bitmap.
Variable blurHashEncode : Bitmap -> Z -> Z -> Z -> Z -> Try string.
Variable bytesToBase64 : Bytes -> string.

Local Abbreviation run :=
  (getAttachmentResponse Disk Bytes Image Bitmap getRealPath convertDir existsSync
     readFileSync convertCafToMp3 createFromPath getSize resize toBitmap blurHashEncode
     bytesToBase64).
Local Abbreviation runRead :=
  (readAndRespond Disk Bytes Image Bitmap existsSync readFileSync createFromPath getSize
     resize toBitmap blurHashEncode bytesToBase64).
Local Abbreviation answer := (respond Image getSize).
(** The second half of the function returns a response about the attachment
    object it is given, leaves the object and the disk alone, and asks for
    one file: whether it exists and, when it does, its content. *)
Lemma readAndRespond_spec (withData withBlurhash : bool) (a : Attachment)
      (fPath : string) (disk : Disk) (before : list FileEffect) :
  attachmentOf (runRead withData withBlurhash a fPath disk before) = a /\
  diskOf (runRead withData withBlurhash a fPath disk before) = disk /\
  effectsOf (runRead withData withBlurhash a fPath disk before) =
    before ++ FExists fPath :: (if existsSync disk fPath then [FRead fPath] else []) /\
  exists (data : Nullable string) (image : option Image) (blurhash : Nullable string),
    responseOf (runRead withData withBlurhash a fPath disk before) =
      Returned (answer a data image blurhash) /\
    (data = Null \/
     withData = true /\ existsSync disk fPath = true /\
     exists fopen : Bytes,
       readFileSync disk fPath = Done fopen /\ data = Value (bytesToBase64 fopen)) /\
    (withData = false -> data = Null) /\
    (image = None \/
     isHandledImage (mimeType a) = true /\ existsSync disk fPath = true /\
     image = Some (createFromPath disk fPath)) /\
    (blurhash = Null \/ withBlurhash = true /\ image <> None).
Proof.
  unfold readAndRespond, attachmentOf, diskOf, effectsOf, responseOf.
  destruct (existsSync disk fPath) eqn:Hex.
  - destruct (readFileSync disk fPath) as [fopen | e] eqn:Hread; cbn [fst snd].
    + do 3 (split; [reflexivity|]).
      eexists _, _, _. split; [reflexivity|].
      split.
      { destruct withData; [right | left; reflexivity].
        split; [reflexivity|]. split; [reflexivity|]. exists fopen. split; reflexivity. }
      split; [intros ->; reflexivity|].
      destruct (isHandledImage (mimeType a)).
      * split; [right; repeat split|].
        destruct withBlurhash; [right | left; reflexivity].
        split; [reflexivity | discriminate].
      * split; left; reflexivity.
    + do 3 (split; [reflexivity|]).
      exists Null, None, Null. split; [reflexivity|].
      split; [left; reflexivity|]. split; [reflexivity|]. split; left; reflexivity.
  - cbn [fst snd]. do 3 (split; [reflexivity|]).
    exists Null, None, Null. split; [reflexivity|].
    split; [left; reflexivity|]. split; [reflexivity|]. split; left; reflexivity.
Qed.

(** The transfer name that a conversion gives an attachment. *)
Lemma converted_transferName (a : Attachment) :
  JSString.slashFree (guid a) = true ->
  JSString.contains ".caf" (guid a) = false ->
  transferName (converted convertDir a) = (guid a ++ ".mp3")%string.
Proof.
  intros Hslash Hcaf. unfold converted, mp3Path. cbn [transferName guid].
  rewrite basename_in_directory.
  - apply replaceFirst_absent. rewrite contains_caf_before_mp3. exact Hcaf.
  - destruct (guid a); discriminate.
  - apply slashFree_mp3. exact Hslash.
Qed.

Lemma in_app_convert (before : list FileEffect) (fPath p : string) (b : bool) :
  In (FConvert p) (before ++ FExists fPath :: (if b then [FRead fPath] else [])) ->
  In (FConvert p) before.
Proof.
  intros H. apply in_app_or in H. destruct H as [H | [H | H]].
  - exact H.
  - discriminate H.
  - destruct b; [destruct H as [H | []]; discriminate H | destruct H].
Qed.

Lemma in_app_read (before : list FileEffect) (fPath p : string) (b : bool) :
  (forall q : string, ~ In (FRead q) before) ->
  In (FRead p) (before ++ FExists fPath :: (if b then [FRead fPath] else [])) ->
  p = fPath /\ b = true.
Proof.
  intros Hnone H. apply in_app_or in H. destruct H as [H | [H | H]].
  - contradiction (Hnone p H).
  - discriminate H.
  - destruct b; [|destruct H]. destruct H as [H | []]. injection H as <-. split; reflexivity.
Qed.

(** X22. [getAttachmentResponse] runs the converter only for an attachment
    with a path whose type is the Core Audio format, on the mp3 path of its
    guid, and only when no file is there; a call that runs no conversion
    leaves the disk as it was. For an attachment without a path nothing is
    asked of the disk and the attachment object is left as it was. *)
Theorem getAttachmentResponse_converts_only_a_missing_mp3_of_a_caf
        (attachment : Attachment) (withData withBlurhash : bool) (disk : Disk) :
  (forall p : string,
     In (FConvert p) (effectsOf (run attachment withData withBlurhash disk)) ->
     uti attachment = "com.apple.coreaudio-format"%string /\
     p = mp3Path convertDir attachment /\
     existsSync disk p = false /\
     truthyPath (filePath attachment) <> None) /\
  ((forall p : string,
      ~ In (FConvert p) (effectsOf (run attachment withData withBlurhash disk))) ->
   diskOf (run attachment withData withBlurhash disk) = disk) /\
  (truthyPath (filePath attachment) = None ->
   effectsOf (run attachment withData withBlurhash disk) = [] /\
   attachmentOf (run attachment withData withBlurhash disk) = attachment).
Proof.
  unfold getAttachmentResponse.
  destruct (truthyPath (filePath attachment)) as [path|] eqn:Hpath.
  2:{ cbn. split; [intros p []|]. split; [reflexivity|]. intros _. split; reflexivity. }
  destruct (String.eqb_spec (uti attachment) "com.apple.coreaudio-format") as [Huti | Huti].
  - destruct (existsSync disk (mp3Path convertDir attachment)) eqn:Hex; cbn [negb].
    + destruct (readAndRespond_spec withData withBlurhash (converted convertDir attachment)
                  (mp3Path convertDir attachment) disk
                  [FExists (mp3Path convertDir attachment)]) as [_ [Hd [He _]]].
      rewrite He, Hd. split; [|split; [reflexivity | discriminate]].
      intros p H. apply in_app_convert in H. destruct H as [H | []]. discriminate H.
    + destruct (convertCafToMp3 disk attachment (mp3Path convertDir attachment))
        as [[[] | e |] disk'] eqn:Hconv.
      * destruct (readAndRespond_spec withData withBlurhash (converted convertDir attachment)
                    (mp3Path convertDir attachment) disk'
                    [FExists (mp3Path convertDir attachment);
                     FConvert (mp3Path convertDir attachment)]) as [_ [Hd [He _]]].
        rewrite He, Hd. split; [|split; [|discriminate]].
        -- intros p H. apply in_app_convert in H.
           destruct H as [H | [H | []]]; [discriminate H|]. injection H as <-.
           split; [exact Huti|]. split; [reflexivity|]. split; [exact Hex | discriminate].
        -- intros Hno. exfalso. apply (Hno (mp3Path convertDir attachment)).
           apply in_or_app. left. right. left. reflexivity.
      * destruct (readAndRespond_spec withData withBlurhash attachment
                    (getRealPath path) disk'
                    [FExists (mp3Path convertDir attachment);
                     FConvert (mp3Path convertDir attachment)]) as [_ [Hd [He _]]].
        rewrite He, Hd. split; [|split; [|discriminate]].
        -- intros p H. apply in_app_convert in H.
           destruct H as [H | [H | []]]; [discriminate H|]. injection H as <-.
           split; [exact Huti|]. split; [reflexivity|]. split; [exact Hex | discriminate].
        -- intros Hno. exfalso. apply (Hno (mp3Path convertDir attachment)).
           apply in_or_app. left. right. left. reflexivity.
      * unfold effectsOf, diskOf. cbn [fst snd]. split; [|split; [|discriminate]].
        -- intros p [H | [H | []]]; [discriminate H|]. injection H as <-.
           split; [exact Huti|]. split; [reflexivity|]. split; [exact Hex | discriminate].
        -- intros Hno. exfalso. apply (Hno (mp3Path convertDir attachment)).
           right. left. reflexivity.
  - destruct (readAndRespond_spec withData withBlurhash attachment (getRealPath path) disk [])
      as [_ [Hd [He _]]].
    rewrite He, Hd. split; [|split; [reflexivity | discriminate]].
    intros p H. apply in_app_convert in H. destruct H.
Qed.

Lemma readAndRespond_policy (withData withBlurhash : bool) (a : Attachment)
      (fPath : string) (disk : Disk) (before : list FileEffect)
      (r : Response.AttachmentResponse) :
  responseOf (runRead withData withBlurhash a fPath disk before) = Returned r ->
  (Response.data r = Null \/
   withData = true /\
   exists (p : string) (fopen : Bytes),
     In (FRead p) (effectsOf (runRead withData withBlurhash a fPath disk before)) /\
     readFileSync (diskOf (runRead withData withBlurhash a fPath disk before)) p
       = Done fopen /\
     Response.data r = Value (bytesToBase64 fopen)) /\
  (withData = false -> Response.data r = Null) /\
  (Response.blurhash r <> Null ->
   withBlurhash = true /\ isHandledImage (Response.mimeType r) = true) /\
  (Response.height r <> 0 \/ Response.width r <> 0 ->
   isHandledImage (Response.mimeType r) = true /\
   exists p : string,
     In (FRead p) (effectsOf (runRead withData withBlurhash a fPath disk before))).
Proof.
  intros Hr.
  destruct (readAndRespond_spec withData withBlurhash a fPath disk before)
    as [_ [Hd [He [data [image [blurhash [Hresp [Hdata [Hnodata [Himage Hblur]]]]]]]]]].
  rewrite Hresp in Hr. injection Hr as <-. rewrite He, Hd. cbn.
  assert (Hread : existsSync disk fPath = true ->
                  In (FRead fPath)
                    (before ++ FExists fPath
                       :: (if existsSync disk fPath then [FRead fPath] else []))).
  { intros ->. apply in_or_app. right. right. left. reflexivity. }
  split.
  { destruct Hdata as [-> | [Hwith [Hex [fopen [Hopen ->]]]]]; [left; reflexivity|].
    right. split; [exact Hwith|]. exists fPath, fopen.
    split; [exact (Hread Hex)|]. split; [exact Hopen | reflexivity]. }
  split; [exact Hnodata|].
  split.
  { intros Hhash. destruct Hblur as [-> | [Hwith Hsome]]; [contradiction Hhash; reflexivity|].
    split; [exact Hwith|].
    destruct Himage as [-> | [Hmime _]]; [contradiction Hsome; reflexivity | exact Hmime]. }
  intros Hsize.
  destruct Himage as [-> | [Hmime [Hex _]]].
  - destruct Hsize as [H | H]; contradiction H; reflexivity.
  - split; [exact Hmime|]. exists fPath. exact (Hread Hex).
Qed.

(** X23. A response of [getAttachmentResponse] has data only when data was
    asked for, and then it is the Base64 form of the content of a file the
    call read; it has a blurhash only when one was asked for and the MIME
    type it reports is one of the handled image types; and it has a height
    or a width other than 0 only for such a MIME type and after a file was
    read. *)
Theorem getAttachmentResponse_gives_data_and_image_only_when_asked_and_read
        (attachment : Attachment) (withData withBlurhash : bool) (disk : Disk)
        (r : Response.AttachmentResponse) :
  responseOf (run attachment withData withBlurhash disk) = Returned r ->
  (Response.data r = Null \/
   withData = true /\
   exists (p : string) (fopen : Bytes),
     In (FRead p) (effectsOf (run attachment withData withBlurhash disk)) /\
     readFileSync (diskOf (run attachment withData withBlurhash disk)) p = Done fopen /\
     Response.data r = Value (bytesToBase64 fopen)) /\
  (withData = false -> Response.data r = Null) /\
  (Response.blurhash r <> Null ->
   withBlurhash = true /\ isHandledImage (Response.mimeType r) = true) /\
  (Response.height r <> 0 \/ Response.width r <> 0 ->
   isHandledImage (Response.mimeType r) = true /\
   exists p : string,
     In (FRead p) (effectsOf (run attachment withData withBlurhash disk))).
Proof.
  unfold getAttachmentResponse.
  destruct (truthyPath (filePath attachment)) as [path|].
  2:{ cbn. intros Hr. injection Hr as <-. cbn.
      split; [left; reflexivity|]. split; [reflexivity|].
      split; [intros H; contradiction H; reflexivity|].
      intros [H | H]; contradiction H; reflexivity. }
  destruct (String.eqb (uti attachment) "com.apple.coreaudio-format").
  - destruct (negb (existsSync disk (mp3Path convertDir attachment))).
    + destruct (convertCafToMp3 disk attachment (mp3Path convertDir attachment))
        as [[[] | e |] disk'].
      * apply readAndRespond_policy.
      * apply readAndRespond_policy.
      * intros Hr. discriminate Hr.
    + apply readAndRespond_policy.
  - apply readAndRespond_policy.
Qed.

(** X24. For an attachment in the Core Audio format that has a path, and
    whose guid has no slash and no ".caf" in it, when the mp3 of its guid is
    there or the converter returns, [getAttachmentResponse] returns a
    response about the mp3: its MIME type is "audio/mp3" and its transfer
    name [<guid>.mp3], it has no height, width or blurhash whatever the
    attachment's MIME type was, the only file read is the mp3, and the
    attachment object is left with the path of the mp3. *)
Theorem getAttachmentResponse_describes_the_mp3_of_a_voice_message
        (attachment : Attachment) (withData withBlurhash : bool) (disk : Disk)
        (path : string) :
  truthyPath (filePath attachment) = Some path ->
  uti attachment = "com.apple.coreaudio-format"%string ->
  JSString.slashFree (guid attachment) = true ->
  JSString.contains ".caf" (guid attachment) = false ->
  (existsSync disk (mp3Path convertDir attachment) = true \/
   exists disk' : Disk,
     convertCafToMp3 disk attachment (mp3Path convertDir attachment)
       = (Returned tt, disk')) ->
  (exists r : Response.AttachmentResponse,
     responseOf (run attachment withData withBlurhash disk) = Returned r /\
     Response.guid r = guid attachment /\
     Response.mimeType r = Value "audio/mp3"%string /\
     Response.transferName r = (guid attachment ++ ".mp3")%string /\
     Response.height r = 0 /\ Response.width r = 0 /\
     Response.blurhash r = Null) /\
  filePath (attachmentOf (run attachment withData withBlurhash disk))
    = Value (mp3Path convertDir attachment) /\
  (forall p : string,
     In (FRead p) (effectsOf (run attachment withData withBlurhash disk)) ->
     p = mp3Path convertDir attachment).
Proof.
  intros Hpath Huti Hslash Hcaf Hconv.
  assert (Hgen : forall (d : Disk) (before : list FileEffect),
            (forall q : string, ~ In (FRead q) before) ->
            (exists r : Response.AttachmentResponse,
               responseOf (runRead withData withBlurhash (converted convertDir attachment)
                             (mp3Path convertDir attachment) d before) = Returned r /\
               Response.guid r = guid attachment /\
               Response.mimeType r = Value "audio/mp3"%string /\
               Response.transferName r = (guid attachment ++ ".mp3")%string /\
               Response.height r = 0 /\ Response.width r = 0 /\
               Response.blurhash r = Null) /\
            filePath (attachmentOf
                        (runRead withData withBlurhash (converted convertDir attachment)
                           (mp3Path convertDir attachment) d before))
              = Value (mp3Path convertDir attachment) /\
            (forall p : string,
               In (FRead p)
                 (effectsOf (runRead withData withBlurhash (converted convertDir attachment)
                               (mp3Path convertDir attachment) d before)) ->
               p = mp3Path convertDir attachment)).
  { intros d before Hnone.
    destruct (readAndRespond_spec withData withBlurhash (converted convertDir attachment)
                (mp3Path convertDir attachment) d before)
      as [Ha [_ [He [data [image [blurhash [Hresp [_ [_ [Himage Hblur]]]]]]]]]].
    assert (Hi : image = None).
    { destruct Himage as [Hi | [Hmime _]]; [exact Hi | discriminate Hmime]. }
    assert (Hb : blurhash = Null).
    { destruct Hblur as [Hb | [_ Hsome]]; [exact Hb | contradiction (Hsome Hi)]. }
    subst image blurhash. rewrite Ha, He.
    split; [|split; [reflexivity|]].
    - eexists. split; [exact Hresp|]. cbn [respond Response.guid Response.mimeType
        Response.transferName Response.height Response.width Response.blurhash].
      split; [reflexivity|]. split; [reflexivity|].
      split; [apply converted_transferName; assumption|].
      split; [reflexivity|]. split; reflexivity.
    - intros p H. apply in_app_read in H; [|exact Hnone]. exact (proj1 H). }
  unfold getAttachmentResponse. rewrite Hpath, Huti, String.eqb_refl.
  destruct Hconv as [Hex | [disk' Hconv]].
  - rewrite Hex. cbn [negb]. apply Hgen.
    intros q [H | []]. discriminate H.
  - destruct (existsSync disk (mp3Path convertDir attachment)); cbn [negb].
    + apply Hgen. intros q [H | []]. discriminate H.
    + rewrite Hconv. apply Hgen. intros q [H | [H | []]]; discriminate H.
Qed.

(** X25. Every response of [getAttachmentResponse] is about the attachment
    object as the call leaves it, and the call leaves the object as it was
    unless its type is the Core Audio format, it has a path, and the mp3 of
    its guid is there or the converter returns; then the object is the
    converted one. When the mp3 is missing and the converter throws, the
    object is left as it was: the response is about the original file. *)
Theorem getAttachmentResponse_describes_the_attachment_it_leaves
        (attachment : Attachment) (withData withBlurhash : bool) (disk : Disk) :
  (forall r : Response.AttachmentResponse,
     responseOf (run attachment withData withBlurhash disk) = Returned r ->
     exists (data : Nullable string) (image : option Image) (blurhash : Nullable string),
       r = answer (attachmentOf (run attachment withData withBlurhash disk))
             data image blurhash) /\
  (attachmentOf (run attachment withData withBlurhash disk) = attachment \/
   attachmentOf (run attachment withData withBlurhash disk)
     = converted convertDir attachment /\
   uti attachment = "com.apple.coreaudio-format"%string /\
   truthyPath (filePath attachment) <> None /\
   (existsSync disk (mp3Path convertDir attachment) = true \/
    exists disk' : Disk,
      convertCafToMp3 disk attachment (mp3Path convertDir attachment)
        = (Returned tt, disk'))) /\
  (forall (error : string) (disk' : Disk),
     existsSync disk (mp3Path convertDir attachment) = false ->
     convertCafToMp3 disk attachment (mp3Path convertDir attachment)
       = (Threw error, disk') ->
     attachmentOf (run attachment withData withBlurhash disk) = attachment).
Proof.
  assert (Hgen : forall (a : Attachment) (fPath : string) (d : Disk)
                        (before : list FileEffect),
            (forall r : Response.AttachmentResponse,
               responseOf (runRead withData withBlurhash a fPath d before) = Returned r ->
               exists (data : Nullable string) (image : option Image)
                      (blurhash : Nullable string),
                 r = answer (attachmentOf (runRead withData withBlurhash a fPath d before))
                       data image blurhash) /\
            attachmentOf (runRead withData withBlurhash a fPath d before) = a).
  { intros a fPath d before.
    destruct (readAndRespond_spec withData withBlurhash a fPath d before)
      as [Ha [_ [_ [data [image [blurhash [Hresp _]]]]]]].
    rewrite Ha. split; [|reflexivity].
    intros r Hr. rewrite Hresp in Hr. injection Hr as <-.
    exists data, image, blurhash. reflexivity. }
  unfold getAttachmentResponse.
  destruct (truthyPath (filePath attachment)) as [path|] eqn:Hpath.
  2:{ cbn. split; [|split; [left; reflexivity | reflexivity]].
      intros r Hr. injection Hr as <-. exists Null, None, Null. reflexivity. }
  destruct (String.eqb_spec (uti attachment) "com.apple.coreaudio-format") as [Huti | Huti].
  - destruct (existsSync disk (mp3Path convertDir attachment)) eqn:Hex; cbn [negb].
    + destruct (Hgen (converted convertDir attachment) (mp3Path convertDir attachment) disk
                  [FExists (mp3Path convertDir attachment)]) as [Hr Ha].
      split; [exact Hr|]. rewrite Ha. split; [|intros error disk' E; discriminate E].
      right. split; [reflexivity|]. split; [exact Huti|].
      split; [discriminate | left; reflexivity].
    + destruct (convertCafToMp3 disk attachment (mp3Path convertDir attachment))
        as [[[] | e |] disk1] eqn:Hconv.
      * destruct (Hgen (converted convertDir attachment) (mp3Path convertDir attachment)
                    disk1 [FExists (mp3Path convertDir attachment);
                           FConvert (mp3Path convertDir attachment)]) as [Hr Ha].
        split; [exact Hr|]. rewrite Ha. split; [|intros error disk' _ E; discriminate E].
        right. split; [reflexivity|]. split; [exact Huti|].
        split; [discriminate | right; exists disk1; reflexivity].
      * destruct (Hgen attachment (getRealPath path) disk1
                    [FExists (mp3Path convertDir attachment);
                     FConvert (mp3Path convertDir attachment)]) as [Hr Ha].
        split; [exact Hr|]. rewrite Ha. split; [left; reflexivity | reflexivity].
      * unfold responseOf, attachmentOf. cbn [fst snd].
        split; [intros r E; discriminate E|]. split; [left; reflexivity | reflexivity].
  - destruct (Hgen attachment (getRealPath path) disk []) as [Hr Ha].
    split; [exact Hr|]. rewrite Ha. split; [left; reflexivity | reflexivity].
Qed.

End AttachmentResponseFacts.

Section MetadataFacts.

Import AttachmentMetadata.

Variable Other : Type.
Variable noOther : Other.
Variable handledImageMimes : list string.
Variable getAudioMetadata : Nullable string -> Outcome (Nullable (Metadata Other)).
Variable getImageMetadata : Nullable string -> Outcome (Nullable (Metadata Other)).
Variable getVideoMetadata : Nullable string -> Outcome (Nullable (Metadata Other)).
Variable Image : Type.
Variable getRealPath : Nullable string -> Try string.
Variable createFromPath : string -> Image.
Variable getSize : Image -> NativeImage.Size.

Local Abbreviation run :=
  (getAttachmentMetadata Other noOther handledImageMimes getAudioMetadata
     getImageMetadata getVideoMetadata Image getRealPath createFromPath getSize).

Lemma image_is_not_audio (mime : string) :
  JSString.startsWith "image" mime = true -> JSString.startsWith "audio" mime = false.
Proof.
  destruct mime as [|c mime]; [discriminate|]. cbn [JSString.startsWith].
  destruct (Ascii.eqb_spec "i"%char c) as [<- | _]; intros H;
    [reflexivity | discriminate H].
Qed.

(** X26. [getAttachmentMetadata] never reads the prefix of a MIME type that
    is [null] or [undefined]: it throws only when the one reader it called,
    on the path of the attachment, threw, and with that error. It calls at
    most one reader, and for an attachment in the Core Audio format it is
    the audio reader, whatever the MIME type. *)
Theorem getAttachmentMetadata_throws_only_when_its_reader_throws
        (attachment : AttachmentEntity.Attachment) :
  (forall error : string,
     fst (run attachment) = Threw error ->
     snd (run attachment) = [MAudio (AttachmentEntity.filePath attachment)] /\
     getAudioMetadata (AttachmentEntity.filePath attachment) = Threw error \/
     snd (run attachment) = [MImage (AttachmentEntity.filePath attachment)] /\
     getImageMetadata (AttachmentEntity.filePath attachment) = Threw error \/
     snd (run attachment) = [MVideo (AttachmentEntity.filePath attachment)] /\
     getVideoMetadata (AttachmentEntity.filePath attachment) = Threw error) /\
  (List.length (snd (run attachment)) <= 1)%nat /\
  (AttachmentEntity.uti attachment = "com.apple.coreaudio-format"%string ->
   run attachment =
     (getAudioMetadata (AttachmentEntity.filePath attachment),
      [MAudio (AttachmentEntity.filePath attachment)])).
Proof.
  unfold getAttachmentMetadata, isCaf.
  destruct (String.eqb_spec (AttachmentEntity.uti attachment) "com.apple.coreaudio-format")
    as [Huti | Huti]; cbn [negb andb].
  - split; [|split; [cbn; lia | reflexivity]].
    intros error H. left. split; [reflexivity | exact H].
  - split; [|split; [|intros E; contradiction (Huti E)]].
    + intros error.
      destruct (AttachmentEntity.mimeType attachment) as [| | mime];
        cbn [Helpers.truthyString mimeStartsWith negb fst snd];
        try (intros E; discriminate E).
      destruct (String.eqb mime EmptyString); cbn [negb fst snd];
        [intros E; discriminate E|].
      destruct (JSString.startsWith "audio" mime).
      { intros H. left. split; [reflexivity | exact H]. }
      destruct (JSString.startsWith "image" mime).
      { destruct (getImageMetadata (AttachmentEntity.filePath attachment)) eqn:Himg;
          cbn [fst snd]; intros E; try discriminate E.
        right. left. split; [reflexivity|]. exact E. }
      destruct (JSString.startsWith "video" mime); cbn [fst snd].
      { intros H. right. right. split; [reflexivity | exact H]. }
      intros E; discriminate E.
    + destruct (AttachmentEntity.mimeType attachment) as [| | mime];
        cbn [Helpers.truthyString mimeStartsWith negb fst snd List.length]; try lia.
      destruct (String.eqb mime EmptyString); cbn [negb fst snd List.length]; [lia|].
      destruct (JSString.startsWith "audio" mime); [cbn [snd List.length]; lia|].
      destruct (JSString.startsWith "image" mime).
      { destruct (getImageMetadata (AttachmentEntity.filePath attachment));
          cbn [snd List.length]; lia. }
      destruct (JSString.startsWith "video" mime); cbn [snd List.length]; lia.
Qed.

(** X27. For an attachment that is not in the Core Audio format and has an
    image MIME type, when the image reader returns, [getAttachmentMetadata]
    returns what the reader returned, or else a metadata whose height and
    width are both those of the image loaded from the path, which are both
    other than 0, and whose other fields are the reader's; this only for a
    handled MIME type and a metadata that lacks a height or a width.
    Complete metadata is returned as it is, and so is an [undefined] one,
    for which setting the size throws inside the [try]. *)
Theorem getAttachmentMetadata_fills_both_sizes_or_leaves_the_metadata
        (attachment : AttachmentEntity.Attachment) (mime : string)
        (metadata : Nullable (Metadata Other)) :
  AttachmentEntity.uti attachment <> "com.apple.coreaudio-format"%string ->
  AttachmentEntity.mimeType attachment = Value mime ->
  JSString.startsWith "image" mime = true ->
  getImageMetadata (AttachmentEntity.filePath attachment) = Returned metadata ->
  exists result : Nullable (Metadata Other),
    run attachment = (Returned result, [MImage (AttachmentEntity.filePath attachment)]) /\
    (result = metadata \/
     In mime handledImageMimes /\ lacksSize Other metadata = true /\
     exists (path : string) (filled : Metadata Other),
       getRealPath (AttachmentEntity.filePath attachment) = Done path /\
       NativeImage.height (getSize (createFromPath path)) <> 0 /\
       NativeImage.width (getSize (createFromPath path)) <> 0 /\
       result = Value filled /\
       height filled = Value (NativeImage.height (getSize (createFromPath path))) /\
       width filled = Value (NativeImage.width (getSize (createFromPath path))) /\
       other filled = match metadata with Value m => other m | _ => noOther end) /\
    (lacksSize Other metadata = false -> result = metadata) /\
    (metadata = Undefined -> result = Undefined).
Proof.
  intros Huti Hmime Himage Hread.
  exists (sizeFromNativeImage Other noOther handledImageMimes Image getRealPath
            createFromPath getSize attachment metadata).
  split.
  { unfold getAttachmentMetadata, isCaf.
    destruct (String.eqb_spec (AttachmentEntity.uti attachment)
                "com.apple.coreaudio-format") as [E | _]; [contradiction (Huti E)|].
    rewrite Hmime. cbn [negb andb Helpers.truthyString mimeStartsWith].
    assert (Hne : String.eqb mime EmptyString = false)
      by (destruct mime; [discriminate Himage | reflexivity]).
    rewrite Hne, (image_is_not_audio mime Himage), Himage, Hread. reflexivity. }
  unfold sizeFromNativeImage, isHandled. rewrite Hmime.
  destruct (existsb (String.eqb mime) handledImageMimes) eqn:Hhandled; cbn [andb].
  2:{ split; [left; reflexivity|]. split; reflexivity || (intros ->; reflexivity). }
  assert (Hin : In mime handledImageMimes).
  { apply existsb_exists in Hhandled. destruct Hhandled as [m [Hm E]].
    apply String.eqb_eq in E. subst m. exact Hm. }
  destruct (lacksSize Other metadata) eqn:Hlacks.
  2:{ split; [left; reflexivity|]. split; reflexivity || (intros ->; reflexivity). }
  destruct (getRealPath (AttachmentEntity.filePath attachment)) as [path | e] eqn:Hpath.
  2:{ split; [left; reflexivity|].
      split; [intros E; discriminate E | intros ->; reflexivity]. }
  destruct (Z.eqb_spec (NativeImage.height (getSize (createFromPath path))) 0)
    as [Hh | Hh]; cbn [negb andb].
  { split; [left; reflexivity|].
    split; [intros E; discriminate E | intros ->; reflexivity]. }
  destruct (Z.eqb_spec (NativeImage.width (getSize (createFromPath path))) 0)
    as [Hw | Hw]; cbn [negb].
  { split; [left; reflexivity|].
    split; [intros E; discriminate E | intros ->; reflexivity]. }
  split; [|split; [intros E; discriminate E | intros ->; reflexivity]].
  destruct metadata as [| | m].
  - left. reflexivity.
  - right. split; [exact Hin|]. split; [reflexivity|].
    eexists path, _. split; [reflexivity|]. split; [exact Hh|]. split; [exact Hw|].
    split; [reflexivity|]. split; [reflexivity|]. split; reflexivity.
  - right. split; [exact Hin|]. split; [reflexivity|].
    eexists path, _. split; [reflexivity|]. split; [exact Hh|]. split; [exact Hw|].
    split; [reflexivity|]. split; [reflexivity|]. split; reflexivity.
Qed.

End MetadataFacts.

(** * The attachment helpers and the FaceTime handler at work *)

Lemma handle_never_reports_answered_or_outgoing_witness :
  FaceTime.emissions unit (snd (MoreScenarios.handleWith MoreScenarios.ringing [])) <> [] /\
  forall output : FaceTime.FaceTimeStatusData unit,
    In output
      (FaceTime.emissions unit (snd (MoreScenarios.handleWith MoreScenarios.ringing []))) ->
    FaceTime.address unit output = "+15550100"%string /\
    FaceTime.status_id unit output = 4.
Proof.
  split; [vm_compute; intros E; discriminate E|].
  intros output Hin.
  destruct (proj2 (handle_never_reports_answered_or_outgoing (list string)
                     MoreScenarios.cacheFind MoreScenarios.cacheAdd MoreScenarios.asTyped
                     unit unit MoreScenarios.noHandles MoreScenarios.serializeUnit true
                     MoreScenarios.noAnswer MoreScenarios.ringing []) output Hin)
    as [_ [_ [[h [Hh Haddress]] [_ [Hid _]]]]].
  injection Hh as <-. split; [exact Haddress | exact Hid].
Defined.

Lemma handle_sees_an_incoming_call_once_witness :
  (forall (c : list string) (id : string),
     MoreScenarios.cacheFind (MoreScenarios.cacheAdd c id) id = true) /\
  FaceTime.call_status MoreScenarios.ringing = 4 /\
  MoreScenarios.handleWith MoreScenarios.ringing
    (snd (fst (MoreScenarios.handleWith MoreScenarios.ringing []))) =
  (Returned tt, ["ft-4-8E1F"%string], [FaceTime.FFind unit "ft-4-8E1F"]).
Proof.
  assert (H1 : forall (c : list string) (id : string),
            MoreScenarios.cacheFind (MoreScenarios.cacheAdd c id) id = true).
  { intros c id. unfold MoreScenarios.cacheFind, MoreScenarios.cacheAdd.
    cbn [existsb]. rewrite String.eqb_refl. reflexivity. }
  assert (H2 : FaceTime.call_status MoreScenarios.ringing = 4) by reflexivity.
  assert (H3 : FaceTime.data_handle MoreScenarios.ringing
               = Value {| FaceTime.value := "+15550100" |}) by reflexivity.
  split; [exact H1|]. split; [exact H2|].
  unfold MoreScenarios.handleWith.
  rewrite (handle_sees_an_incoming_call_once (list string)
             MoreScenarios.cacheFind MoreScenarios.cacheAdd MoreScenarios.asTyped
             unit unit MoreScenarios.noHandles MoreScenarios.serializeUnit true
             MoreScenarios.noAnswer MoreScenarios.ringing [] _ H1 H2 H3).
  vm_compute. reflexivity.
Defined.

Lemma handle_sends_an_incoming_call_with_or_without_link_witness :
  FaceTime.call_status MoreScenarios.ringing = 4 /\
  MoreScenarios.cacheFind [] (FaceTime.incomingId MoreScenarios.ringing) = false /\
  MoreScenarios.noHandles (MoreScenarios.asTyped "+15550100") = Returned [] /\
  FaceTime.emissions unit (snd (MoreScenarios.handleWith MoreScenarios.ringing [])) =
    [FaceTime.buildOutput unit MoreScenarios.ringing {| FaceTime.value := "+15550100" |}
       Null].
Proof.
  assert (H1 : FaceTime.call_status MoreScenarios.ringing = 4) by reflexivity.
  assert (H2 : true = true) by reflexivity.
  assert (H3 : FaceTime.data_handle MoreScenarios.ringing
               = Value {| FaceTime.value := "+15550100" |}) by reflexivity.
  assert (H4 : MoreScenarios.cacheFind [] (FaceTime.incomingId MoreScenarios.ringing)
               = false) by reflexivity.
  assert (H5 : MoreScenarios.noHandles
                 (MoreScenarios.asTyped (FaceTime.value {| FaceTime.value := "+15550100" |}))
               = Returned []) by reflexivity.
  assert (H6 : @nil unit = [] /\ @Null unit = Null \/
               exists (row : unit) (rest : list unit) (response : unit),
                 [] = row :: rest /\ MoreScenarios.serializeUnit row = Returned response /\
                 Null = Value response) by (left; split; reflexivity).
  split; [exact H1|]. split; [exact H4|]. split; [exact H5|].
  exact (proj1 (proj2 (handle_sends_an_incoming_call_with_or_without_link (list string)
                         MoreScenarios.cacheFind MoreScenarios.cacheAdd
                         MoreScenarios.asTyped unit unit MoreScenarios.noHandles
                         MoreScenarios.serializeUnit true MoreScenarios.noAnswer
                         MoreScenarios.ringing [] _ [] Null H1 H2 H3 H4 H5 H6))).
Defined.

Lemma getBlurHash_encodes_no_image_wider_than_320_witness :
  (forall img : NativeImage.Size,
     NativeImage.width (MoreScenarios.sizeOf (MoreScenarios.scale img 320)) <= 320) /\
  BlurHash.encoderCall NativeImage.Size NativeImage.Size MoreScenarios.sizeOf
    MoreScenarios.scale MoreScenarios.pixels (MoreScenarios.openImage [] EmptyString) =
  ({| NativeImage.width := 320; NativeImage.height := 240 |}, 320, 240, 3, 3).
Proof.
  assert (H : forall img : NativeImage.Size,
            NativeImage.width (MoreScenarios.sizeOf (MoreScenarios.scale img 320)) <= 320)
    by (intros img; cbn; lia).
  split; [exact H|].
  destruct (getBlurHash_encodes_no_image_wider_than_320 NativeImage.Size NativeImage.Size
              MoreScenarios.sizeOf MoreScenarios.scale MoreScenarios.pixels
              MoreScenarios.oneHash (MoreScenarios.openImage [] EmptyString) H)
    as [img [Hcall [_ [_ [Hwide _]]]]].
  rewrite Hcall, Hwide by (cbn; lia). reflexivity.
Defined.

Lemma getAttachmentResponse_converts_only_a_missing_mp3_of_a_caf_witness :
  In (AttachmentEntity.FConvert "/conv/at_0_7C3B.mp3")
    (AttachmentEntity.effectsOf
       (MoreScenarios.respondWith MoreScenarios.writesMp3 MoreScenarios.voiceMemo
          true true MoreScenarios.attachments)) /\
  MoreScenarios.fileExists MoreScenarios.attachments "/conv/at_0_7C3B.mp3" = false.
Proof.
  assert (H : In (AttachmentEntity.FConvert "/conv/at_0_7C3B.mp3")
                (AttachmentEntity.effectsOf
                   (MoreScenarios.respondWith MoreScenarios.writesMp3
                      MoreScenarios.voiceMemo true true MoreScenarios.attachments)))
    by (vm_compute; right; left; reflexivity).
  split; [exact H|].
  exact (proj1 (proj2 (proj2
    (proj1 (getAttachmentResponse_converts_only_a_missing_mp3_of_a_caf
              MoreScenarios.Files string NativeImage.Size NativeImage.Size
              MoreScenarios.homePath "/conv" MoreScenarios.fileExists
              MoreScenarios.readFile MoreScenarios.writesMp3 MoreScenarios.openImage
              MoreScenarios.sizeOf MoreScenarios.scale MoreScenarios.pixels
              MoreScenarios.oneHash MoreScenarios.asText MoreScenarios.voiceMemo
              true true MoreScenarios.attachments) _ H)))).
Defined.

Lemma getAttachmentResponse_gives_data_and_image_only_when_asked_and_read_witness :
  AttachmentEntity.responseOf
    (MoreScenarios.respondWith MoreScenarios.writesMp3 MoreScenarios.photo
       true true MoreScenarios.attachments) = Returned MoreScenarios.photoResponse /\
  AttachmentEntity.isHandledImage
    (AttachmentEntity.Response.mimeType MoreScenarios.photoResponse) = true.
Proof.
  assert (H : AttachmentEntity.responseOf
                (MoreScenarios.respondWith MoreScenarios.writesMp3 MoreScenarios.photo
                   true true MoreScenarios.attachments)
              = Returned MoreScenarios.photoResponse) by (vm_compute; reflexivity).
  split; [exact H|].
  destruct (getAttachmentResponse_gives_data_and_image_only_when_asked_and_read
              MoreScenarios.Files string NativeImage.Size NativeImage.Size
              MoreScenarios.homePath "/conv" MoreScenarios.fileExists
              MoreScenarios.readFile MoreScenarios.writesMp3 MoreScenarios.openImage
              MoreScenarios.sizeOf MoreScenarios.scale MoreScenarios.pixels
              MoreScenarios.oneHash MoreScenarios.asText MoreScenarios.photo
              true true MoreScenarios.attachments _ H) as [_ [_ [Hhash _]]].
  apply Hhash. intros E. discriminate E.
Defined.

Lemma getAttachmentResponse_describes_the_mp3_of_a_voice_message_witness :
  AttachmentEntity.truthyPath (AttachmentEntity.filePath MoreScenarios.voiceMemo)
    = Some "~/Attachments/7c/Audio Message.caf"%string /\
  JSString.slashFree (AttachmentEntity.guid MoreScenarios.voiceMemo) = true /\
  JSString.contains ".caf" (AttachmentEntity.guid MoreScenarios.voiceMemo) = false /\
  AttachmentEntity.filePath
    (AttachmentEntity.attachmentOf
       (MoreScenarios.respondWith MoreScenarios.writesMp3 MoreScenarios.voiceMemo
          true true MoreScenarios.attachments)) = Value "/conv/at_0_7C3B.mp3"%string.
Proof.
  assert (H1 : AttachmentEntity.truthyPath (AttachmentEntity.filePath MoreScenarios.voiceMemo)
               = Some "~/Attachments/7c/Audio Message.caf"%string) by reflexivity.
  assert (H2 : AttachmentEntity.uti MoreScenarios.voiceMemo
               = "com.apple.coreaudio-format"%string) by reflexivity.
  assert (H3 : JSString.slashFree (AttachmentEntity.guid MoreScenarios.voiceMemo) = true)
    by (vm_compute; reflexivity).
  assert (H4 : JSString.contains ".caf" (AttachmentEntity.guid MoreScenarios.voiceMemo)
               = false) by (vm_compute; reflexivity).
  assert (H5 : MoreScenarios.fileExists MoreScenarios.attachments
                 (AttachmentEntity.mp3Path "/conv" MoreScenarios.voiceMemo) = true \/
               exists disk' : MoreScenarios.Files,
                 MoreScenarios.writesMp3 MoreScenarios.attachments MoreScenarios.voiceMemo
                   (AttachmentEntity.mp3Path "/conv" MoreScenarios.voiceMemo)
                 = (Returned tt, disk'))
    by (right; eexists; reflexivity).
  split; [exact H1|]. split; [exact H3|]. split; [exact H4|].
  exact (proj1 (proj2
    (getAttachmentResponse_describes_the_mp3_of_a_voice_message
       MoreScenarios.Files string NativeImage.Size NativeImage.Size
       MoreScenarios.homePath "/conv" MoreScenarios.fileExists
       MoreScenarios.readFile MoreScenarios.writesMp3 MoreScenarios.openImage
       MoreScenarios.sizeOf MoreScenarios.scale MoreScenarios.pixels
       MoreScenarios.oneHash MoreScenarios.asText MoreScenarios.voiceMemo
       true true MoreScenarios.attachments _ H1 H2 H3 H4 H5))).
Defined.

Lemma getAttachmentResponse_describes_the_attachment_it_leaves_witness :
  MoreScenarios.fileExists MoreScenarios.attachments
    (AttachmentEntity.mp3Path "/conv" MoreScenarios.voiceMemo) = false /\
  AttachmentEntity.attachmentOf
    (MoreScenarios.respondWith MoreScenarios.ffmpegFails MoreScenarios.voiceMemo
       true true MoreScenarios.attachments) = MoreScenarios.voiceMemo.
Proof.
  assert (H1 : MoreScenarios.fileExists MoreScenarios.attachments
                 (AttachmentEntity.mp3Path "/conv" MoreScenarios.voiceMemo) = false)
    by (vm_compute; reflexivity).
  assert (H2 : MoreScenarios.ffmpegFails MoreScenarios.attachments MoreScenarios.voiceMemo
                 (AttachmentEntity.mp3Path "/conv" MoreScenarios.voiceMemo)
               = (Threw "ffmpeg exited with code 1", MoreScenarios.attachments))
    by reflexivity.
  split; [exact H1|].
  exact (proj2 (proj2
    (getAttachmentResponse_describes_the_attachment_it_leaves
       MoreScenarios.Files string NativeImage.Size NativeImage.Size
       MoreScenarios.homePath "/conv" MoreScenarios.fileExists
       MoreScenarios.readFile MoreScenarios.ffmpegFails MoreScenarios.openImage
       MoreScenarios.sizeOf MoreScenarios.scale MoreScenarios.pixels
       MoreScenarios.oneHash MoreScenarios.asText MoreScenarios.voiceMemo
       true true MoreScenarios.attachments)) _ _ H1 H2).
Defined.

Lemma getAttachmentMetadata_throws_only_when_its_reader_throws_witness :
  fst (MoreScenarios.metadataWith MoreScenarios.ffprobeFails MoreScenarios.clip)
    = Threw "ffprobe failed" /\
  snd (MoreScenarios.metadataWith MoreScenarios.ffprobeFails MoreScenarios.clip)
    = [AttachmentMetadata.MVideo Null].
Proof.
  assert (H : fst (MoreScenarios.metadataWith MoreScenarios.ffprobeFails MoreScenarios.clip)
              = Threw "ffprobe failed") by (vm_compute; reflexivity).
  split; [exact H|].
  destruct (proj1 (getAttachmentMetadata_throws_only_when_its_reader_throws
                     unit tt ["image/jpeg"; "image/png"]%string MoreScenarios.noMetadata
                     MoreScenarios.noMetadata MoreScenarios.ffprobeFails NativeImage.Size
                     MoreScenarios.realPath MoreScenarios.loadImage MoreScenarios.sizeOf
                     MoreScenarios.clip) _ H) as [[_ E] | [[_ E] | [Hv _]]].
  - discriminate E.
  - discriminate E.
  - exact Hv.
Defined.

Lemma getAttachmentMetadata_fills_both_sizes_or_leaves_the_metadata_witness :
  AttachmentEntity.uti MoreScenarios.photo <> "com.apple.coreaudio-format"%string /\
  JSString.startsWith "image" "image/jpeg" = true /\
  MoreScenarios.noMetadata (AttachmentEntity.filePath MoreScenarios.photo) = Returned Null /\
  fst (MoreScenarios.metadataWith MoreScenarios.noMetadata MoreScenarios.photo) =
    Returned (Value {| AttachmentMetadata.height := Value 480;
                       AttachmentMetadata.width := Value 640;
                       AttachmentMetadata.other := tt |}).
Proof.
  assert (H1 : AttachmentEntity.uti MoreScenarios.photo
               <> "com.apple.coreaudio-format"%string) by (intros E; discriminate E).
  assert (H2 : AttachmentEntity.mimeType MoreScenarios.photo = Value "image/jpeg"%string)
    by reflexivity.
  assert (H3 : JSString.startsWith "image" "image/jpeg" = true) by reflexivity.
  assert (H4 : MoreScenarios.noMetadata (AttachmentEntity.filePath MoreScenarios.photo)
               = Returned Null) by reflexivity.
  split; [exact H1|]. split; [exact H3|]. split; [exact H4|].
  destruct (getAttachmentMetadata_fills_both_sizes_or_leaves_the_metadata
              unit tt ["image/jpeg"; "image/png"]%string MoreScenarios.noMetadata
              MoreScenarios.noMetadata MoreScenarios.noMetadata NativeImage.Size
              MoreScenarios.realPath MoreScenarios.loadImage MoreScenarios.sizeOf
              MoreScenarios.photo _ _ H1 H2 H3 H4)
    as [result [Hrun [[E | [_ [_ [path [filled [Hpath [_ [_ [Hres [Hh [Hw _]]]]]]]]]]] _]]].
  - subst result. vm_compute in Hrun. discriminate Hrun.
  - unfold MoreScenarios.metadataWith. rewrite Hrun, Hres. cbn [fst].
    destruct filled as [h w []]. cbn in Hh, Hw. rewrite Hh, Hw. reflexivity.
Defined.

(** * The emitter at work *)

(** On the listener without subscribers whose first poller reports an
    "error" result, the poll with emission throws at that result and calls
    one poller, while the poll without emission returns and calls both. *)
Lemma poll_flag_only_decides_emission_witness :
  outcome (poll 70000 true Scenario.noisy) = Threw "ERR_UNHANDLED_ERROR" /\
  outcome (poll 70000 false Scenario.noisy) = Returned tt /\
  pollersInvoked (trace (poll 70000 true Scenario.noisy)) = [0%nat] /\
  exists later : list nat,
    [0%nat; 1%nat] = pollersInvoked (trace (poll 70000 true Scenario.noisy)) ++ later.
Proof.
  destruct (poll_flag_only_decides_emission string Scenario.Keys 70000 Scenario.noisy)
    as [_ [_ [_ [_ [[later Hlater] _]]]]].
  split; [vm_compute; reflexivity|]. split; [vm_compute; reflexivity|].
  split; [vm_compute; reflexivity|].
  exists later. rewrite <- Hlater. vm_compute. reflexivity.
Defined.

Lemma emission_throws_only_for_an_unhandled_error_or_a_failing_subscriber_witness :
  outcome (emitAll [ {| eventType := "new-message"; data := "m1"%string |} ]
             Scenario.fragile) = Threw "consumer failed" /\
  heard (trace (emitAll [ {| eventType := "new-message"; data := "m1"%string |} ]
                  Scenario.fragile)) = [("new-message"%string, "m1"%string)] /\
  exists subscriber : Subscriber string,
    In subscriber (listeners Scenario.fragile) /\
    callback subscriber "m1"%string = Some "consumer failed"%string.
Proof.
  assert (H : outcome (emitAll [ {| eventType := "new-message"; data := "m1"%string |} ]
                         Scenario.fragile) = Threw "consumer failed")
    by (vm_compute; reflexivity).
  split; [exact H|]. split; [vm_compute; reflexivity|].
  destruct (proj1 (emission_throws_only_for_an_unhandled_error_or_a_failing_subscriber
                     string Scenario.Keys
                     [ {| eventType := "new-message"; data := "m1"%string |} ]
                     Scenario.fragile) _ H)
    as [r [Hin [[Htype _] | [subscriber [Hsub [_ Hcall]]]]]].
  - destruct Hin as [<- | []]. discriminate Htype.
  - destruct Hin as [<- | []]. exists subscriber. split; [exact Hsub | exact Hcall].
Defined.

Lemma emission_failure_leaves_the_poll_loop_witness :
  pollers Scenario.noisy = [] ++ Scenario.reportingPoller :: [Scenario.typingPoller] /\
  outcome (poll 70000 true Scenario.noisy) = Threw "ERR_UNHANDLED_ERROR" /\
  pollersInvoked (trace (poll 70000 true Scenario.noisy)) = [0%nat] /\
  emitted (trace (poll 70000 true Scenario.noisy)) = [("error"%string, "m1"%string)].
Proof.
  assert (H1 : pollers Scenario.noisy
               = [] ++ Scenario.reportingPoller :: [Scenario.typingPoller])
    by reflexivity.
  assert (H2 : outcome (pollFrom 0 [] 70000 true Scenario.noisy) = Returned tt)
    by reflexivity.
  assert (H3 : poller_poll Scenario.reportingPoller 70000
                 (cache (final (pollFrom 0 [] 70000 true Scenario.noisy)))
               = (Returned [ {| eventType := "error"; data := "m1"%string |};
                             {| eventType := "new-message"; data := "m2"%string |} ],
                  [])) by reflexivity.
  assert (H4 : outcome (emitAll [ {| eventType := "error"; data := "m1"%string |};
                                  {| eventType := "new-message"; data := "m2"%string |} ]
                          (with_cache [] (final (pollFrom 0 [] 70000 true Scenario.noisy))))
               = Threw "ERR_UNHANDLED_ERROR") by (vm_compute; reflexivity).
  split; [exact H1|].
  destruct (emission_failure_leaves_the_poll_loop string Scenario.Keys
              [] [Scenario.typingPoller] Scenario.reportingPoller 70000 Scenario.noisy
              _ _ _ H1 H2 H3 H4) as [Ho [Hi _]].
  split; [exact Ho|]. split; [exact Hi|]. vm_compute. reflexivity.
Defined.
